(** * dmpv: Vulkan hardware-decode interop (video/out/hwdec/hwdec_vulkan.c)

    A shallow embedding of the device context builder ([vulkan_init],
    [vulkan_uninit]) and of the per-frame import/export protocol
    ([mapper_map], [mapper_unmap]), with the properties of the design
    document stated and settled against it.  The queue lock hooks
    ([lock_queue], [unlock_queue]) and the timer routines (osdep/timer-unix.c
    and the timer core) are embedded after them, with properties read off
    the code.

    Conventions.
    - C integers are [Z]; [uint64_t] arithmetic is reduced with [wrap64].
    - Loop counters and array indices are [nat].
    - A C array is a [list]; every access is checked against the length of
      the list, and an access outside it is the fault [OutOfBounds].
    - A pointer that may be NULL is an [option]; dereferencing NULL is the
      fault [NullDeref].
    - Calls into libplacebo, FFmpeg and the renderer are recorded in a
      trace; what they return is a parameter of the development. *)

From Stdlib Require Import ZArith Lia Bool List.
From stdpp Require Import base tactics option list gmap strings.

Local Open Scope Z_scope.

(** ** Vulkan constants (vulkan_core.h) *)

Definition VK_NULL_HANDLE : Z := 0.
Definition VK_QUEUE_FAMILY_IGNORED : Z := 4294967295.
Definition VK_QUEUE_GRAPHICS_BIT : Z := 1.
Definition VK_QUEUE_COMPUTE_BIT : Z := 2.
Definition VK_QUEUE_TRANSFER_BIT : Z := 4.
Definition VK_QUEUE_VIDEO_DECODE_BIT_KHR : Z := 32.
Definition VK_IMAGE_ASPECT_COLOR_BIT : Z := 1.
Definition VK_IMAGE_ASPECT_PLANE_0_BIT_KHR : Z := 16.
Definition VK_IMAGE_ASPECT_PLANE_1_BIT_KHR : Z := 32.
Definition VK_IMAGE_ASPECT_PLANE_2_BIT_KHR : Z := 64.

(** [uint64_t] wrap-around. *)
Definition wrap64 (z : Z) : Z := z mod 2 ^ 64.

(** ** Faults and results *)

Inductive fault : Type :=
| NullDeref        (* a NULL pointer is dereferenced *)
| InvalidPointer   (* a pointer to no live object is dereferenced *)
| OutOfBounds.     (* an array is accessed past its end *)

Inductive res (A : Type) : Type :=
| Ok (a : A)
| Fault (f : fault).
Arguments Ok {A} a.
Arguments Fault {A} f.

Definition is_ok {A} (r : res A) : bool :=
  match r with Ok _ => true | Fault _ => false end.

(** ** Device context builder ([vulkan_init], [vulkan_uninit]) *)

Module Builder.

Local Open Scope string_scope.

(** Entry [i] of the two arrays filled by
    [vkGetPhysicalDeviceQueueFamilyProperties2]:
    [qf[i].queueFamilyProperties.queueFlags], [.queueCount] and
    [qf_vid[i].videoCodecOperations]. *)
Record VkQueueFamily : Type := mkfamily {
  queueFlags : Z;
  queueCount : Z;
  videoCodecOperations : Z }.

Record pl_vulkan_queue : Type := mkqueue {
  q_index : Z;
  q_count : Z }.

(** [vk->vulkan] ([pl_vulkan]) with the instance extensions of
    [vk->vkinst]; [phys_device] stands for what the physical device
    reports as its queue families. *)
Record dmpvk_ctx : Type := mkvk {
  phys_device : list VkQueueFamily;
  extensions : list string;
  inst_extensions : list string;
  queue_graphics : pl_vulkan_queue;
  queue_transfer : pl_vulkan_queue;
  queue_compute : pl_vulkan_queue }.

Record AVVulkanDeviceQueueFamily : Type := mkdevqf {
  idx : Z;
  num : Z;
  flags : Z;
  video_caps : Z }.

Record legacy_queues : Type := mklegacy {
  queue_family_index : Z;
  nb_graphics_queues : Z;
  queue_family_tx_index : Z;
  nb_tx_queues : Z;
  queue_family_comp_index : Z;
  nb_comp_queues : Z;
  queue_family_decode_index : Z;
  nb_decode_queues : Z }.

(** The two builds selected by
    [LIBAVUTIL_VERSION_INT >= AV_VERSION_INT(59, 34, 100)]. *)
Inductive queue_api : Type := NewQueueAPI | LegacyQueueAPI.

Inductive queue_assignment : Type :=
| MultiQueue (qf : list AVVulkanDeviceQueueFamily)   (* qf[0 .. nb_qf-1] *)
| LegacyQueues (q : legacy_queues).

(** [AVVulkanDeviceContext] as [vulkan_init] fills it; [lock_hooks] says
    that [lock_queue]/[unlock_queue] are this file's, with
    [user_opaque = p->lock_ctx]. *)
Record AVVulkanDeviceContext : Type := mkdevctx {
  lock_hooks : bool;
  enabled_inst_extensions : list string;
  enabled_dev_extensions : list string;
  queues : queue_assignment }.

Record mp_hwdec_ctx : Type := mkhwctx {
  driver_name : string;
  av_device_ref : option AVVulkanDeviceContext;
  hw_imgfmt : Z }.

(** What [vulkan_init] allocates. *)
Inductive resource : Type :=
| ResQf          (* talloc_array: qf *)
| ResQfVid       (* talloc_array: qf_vid *)
| ResDeviceCtx   (* av_hwdevice_ctx_alloc: hw_device_ctx *)
| ResLockCtx     (* talloc_zero: p->lock_ctx *)
| ResMutex.      (* pthread_mutex_init: p->lock_ctx->mutex *)

#[global] Instance resource_eq_dec : EqDecision resource.
Proof. solve_decision. Defined.
#[global] Instance VkQueueFamily_eq_dec : EqDecision VkQueueFamily.
Proof. solve_decision. Defined.
#[global] Instance pl_vulkan_queue_eq_dec : EqDecision pl_vulkan_queue.
Proof. solve_decision. Defined.
#[global] Instance dmpvk_ctx_eq_dec : EqDecision dmpvk_ctx.
Proof. solve_decision. Defined.
#[global] Instance AVVulkanDeviceQueueFamily_eq_dec : EqDecision AVVulkanDeviceQueueFamily.
Proof. solve_decision. Defined.
#[global] Instance legacy_queues_eq_dec : EqDecision legacy_queues.
Proof. solve_decision. Defined.
#[global] Instance queue_assignment_eq_dec : EqDecision queue_assignment.
Proof. solve_decision. Defined.
#[global] Instance AVVulkanDeviceContext_eq_dec : EqDecision AVVulkanDeviceContext.
Proof. solve_decision. Defined.
#[global] Instance mp_hwdec_ctx_eq_dec : EqDecision mp_hwdec_ctx.
Proof. solve_decision. Defined.

(** [struct ra_hwdec] as seen by [vulkan_init]: [ra_vk_ctx] is the result
    of [ra_vk_ctx_get(hw->ra_ctx)], [ra_pl] of [ra_pl_get(hw->ra_ctx->ra)],
    [hw_driver_name] is [hw->driver->name]. *)
Record ra_hwdec : Type := mkhw {
  probing : bool;
  hw_driver_name : string;
  ra_vk_ctx : option dmpvk_ctx;
  ra_pl : option Z }.

(** What [vulkan_init] and [vulkan_uninit] change: the registry
    [hw->devs], the private data [p] and the allocations that are live. *)
Record hw_state : Type := mkstate {
  devs : list mp_hwdec_ctx;
  p_hwctx : mp_hwdec_ctx;
  p_gpu : option Z;
  p_lock_ctx : option dmpvk_ctx;   (* p->lock_ctx, with its [vulkan] field *)
  live : list resource }.

Definition alloc (r : resource) (st : hw_state) : hw_state :=
  mkstate (devs st) (p_hwctx st) (p_gpu st) (p_lock_ctx st) (r :: live st).

(** [talloc_free], [av_buffer_unref], [mp_mutex_destroy]: freeing what is
    not allocated (a NULL pointer) does nothing. *)
Definition free (r : resource) (st : hw_state) : hw_state :=
  mkstate (devs st) (p_hwctx st) (p_gpu st) (p_lock_ctx st)
          (filter (fun x => x <> r) (live st)).

Definition set_p_gpu (g : option Z) (st : hw_state) : hw_state :=
  mkstate (devs st) (p_hwctx st) g (p_lock_ctx st) (live st).

Definition set_p_lock_ctx (c : option dmpvk_ctx) (st : hw_state) : hw_state :=
  mkstate (devs st) (p_hwctx st) (p_gpu st) c (live st).

Definition set_p_hwctx (c : mp_hwdec_ctx) (st : hw_state) : hw_state :=
  mkstate (devs st) c (p_gpu st) (p_lock_ctx st) (live st).

(** Modelled from the spec: [hwdec_devices_add] and [hwdec_devices_remove]
    (video/hwdec.c is not among the sources); the device registry
    "accepts/revokes {driver name, device handle, format tag}
    registration". *)
Definition hwdec_devices_add (c : mp_hwdec_ctx) (st : hw_state) : hw_state :=
  mkstate (devs st ++ [c]) (p_hwctx st) (p_gpu st) (p_lock_ctx st) (live st).

Definition hwdec_devices_remove (c : mp_hwdec_ctx) (st : hw_state) : hw_state :=
  mkstate (filter (fun x => x <> c) (devs st)) (p_hwctx st) (p_gpu st)
          (p_lock_ctx st) (live st).

(** Lines 97-106: the scan for the device extension, with its [break]. *)
Fixpoint has_video_decode_queue (exts : list string) : bool :=
  match exts with
  | [] => false
  | e :: rest =>
      if String.eqb e "VK_KHR_video_decode_queue" then true
      else has_video_decode_queue rest
  end.

(** [(qf[i].queueFamilyProperties.queueFlags) & VK_QUEUE_VIDEO_DECODE_BIT_KHR] *)
Definition decode_capable (q : VkQueueFamily) : bool :=
  negb (Z.land (queueFlags q) VK_QUEUE_VIDEO_DECODE_BIT_KHR =? 0)%Z.

(** Lines 211-223: the decode families appended to [device_hwctx->qf],
    scanning from family [i] on. *)
Fixpoint decode_entries (families : list VkQueueFamily) (i : Z)
    : list AVVulkanDeviceQueueFamily :=
  match families with
  | [] => []
  | q :: rest =>
      if decode_capable q then
        mkdevqf i (queueCount q) VK_QUEUE_VIDEO_DECODE_BIT_KHR
                (videoCodecOperations q)
          :: decode_entries rest (i + 1)
      else decode_entries rest (i + 1)
  end.

(** Lines 227-233: [decode_index] after scanning from family [i] on. *)
Fixpoint scan_decode_index (families : list VkQueueFamily) (i decode_index : Z) : Z :=
  match families with
  | [] => decode_index
  | q :: rest =>
      scan_decode_index rest (i + 1) (if decode_capable q then i else decode_index)
  end.

(** Lines 187-250.  In the multi-queue build the array [qf] of the
    decoder's context is a list here (its capacity is declared by FFmpeg).
    In the legacy build [qf[decode_index]] is read only for an index the
    scan has visited. *)
Definition assign_queue_families (api : queue_api) (vk : dmpvk_ctx) : queue_assignment :=
  let families := phys_device vk in
  match api with
  | NewQueueAPI =>
      MultiQueue
        ([ mkdevqf (q_index (queue_graphics vk)) (q_count (queue_graphics vk))
                   VK_QUEUE_GRAPHICS_BIT 0;
           mkdevqf (q_index (queue_transfer vk)) (q_count (queue_transfer vk))
                   VK_QUEUE_TRANSFER_BIT 0;
           mkdevqf (q_index (queue_compute vk)) (q_count (queue_compute vk))
                   VK_QUEUE_COMPUTE_BIT 0 ]
         ++ decode_entries families 0)
  | LegacyQueueAPI =>
      let decode_index := scan_decode_index families 0 (-1) in
      LegacyQueues
        (mklegacy (q_index (queue_graphics vk)) (q_count (queue_graphics vk))
                  (q_index (queue_transfer vk)) (q_count (queue_transfer vk))
                  (q_index (queue_compute vk)) (q_count (queue_compute vk))
                  decode_index
                  (if (0 <=? decode_index)%Z then
                     match families !! Z.to_nat decode_index with
                     | Some q => queueCount q
                     | None => 0
                     end
                   else 0))
  end.

Section Init.

(** [api] is the build; [IMGFMT_VULKAN] the format tag of img_format.h;
    [av_hwdevice_ctx_alloc] and [talloc_zero] tell whether the allocation
    returned non-NULL; [av_hwdevice_ctx_init] is the backend's
    initialisation call with its return value. *)
Variable api : queue_api.
Variable IMGFMT_VULKAN : Z.
Variable av_hwdevice_ctx_alloc : bool.
Variable talloc_zero : bool.
Variable av_hwdevice_ctx_init : AVVulkanDeviceContext -> Z.

(** Lines 271-275, the [error:] label. *)
Definition init_error (st : hw_state) : Z * hw_state :=
  (-1, free ResDeviceCtx (free ResQfVid (free ResQf st))).

(** Lines 171-185 and the queue assignment. *)
Definition build_device_hwctx (vk : dmpvk_ctx) : AVVulkanDeviceContext :=
  mkdevctx true (inst_extensions vk) (extensions vk) (assign_queue_families api vk).

(** [vulkan_init], lines 70-276. *)
Definition vulkan_init (hw : ra_hwdec) (st : hw_state) : Z * hw_state :=
  match ra_vk_ctx hw with
  | None => (0, st)
  | Some vk =>
      let st := set_p_gpu (ra_pl hw) st in
      match ra_pl hw with
      | None => (0, st)
      | Some _ =>
          if negb (has_video_decode_queue (extensions vk)) then (0, st)
          else if (length (phys_device vk) =? 0)%nat then init_error st
          else
            let st := alloc ResQfVid (alloc ResQf st) in
            if negb av_hwdevice_ctx_alloc then init_error st
            else
              let st := alloc ResDeviceCtx st in
              if negb talloc_zero then init_error (set_p_lock_ctx None st)
              else
                let st := alloc ResMutex (alloc ResLockCtx (set_p_lock_ctx (Some vk) st)) in
                let device_hwctx := build_device_hwctx vk in
                if (av_hwdevice_ctx_init device_hwctx <? 0)%Z then init_error st
                else
                  let hwctx := mkhwctx (hw_driver_name hw) (Some device_hwctx)
                                       IMGFMT_VULKAN in
                  let st := hwdec_devices_add hwctx (set_p_hwctx hwctx st) in
                  (0, free ResQfVid (free ResQf st))
      end
  end.

(** [vulkan_uninit], lines 278-290. *)
Definition vulkan_uninit (st : hw_state) : hw_state :=
  let st := hwdec_devices_remove (p_hwctx st) st in
  let st := free ResDeviceCtx
              (set_p_hwctx (mkhwctx (driver_name (p_hwctx st)) None
                                    (hw_imgfmt (p_hwctx st))) st) in
  match p_lock_ctx st with
  | Some _ => set_p_lock_ctx None (free ResLockCtx (free ResMutex st))
  | None => st
  end.

End Init.

End Builder.

(** ** Frame import/export protocol: data *)

Module Protocol.

Definition addr := nat.
Definition pl_tex := Z.
Definition ra_tex := Z.

(** The fields of FFmpeg's [AVVkFrame] this file reads or writes. *)
Record AVVkFrame : Type := mkAVVkFrame {
  vkf_img : list Z;
  vkf_layout : list Z;
  vkf_sem : list Z;
  vkf_sem_value : list Z;
  vkf_access : list Z }.

Inductive frame_field : Type := FImg | FLayout | FSem | FSemValue | FAccess.

Definition field_get (fld : frame_field) (f : AVVkFrame) : list Z :=
  match fld with
  | FImg => vkf_img f
  | FLayout => vkf_layout f
  | FSem => vkf_sem f
  | FSemValue => vkf_sem_value f
  | FAccess => vkf_access f
  end.

Definition field_set (fld : frame_field) (l : list Z) (f : AVVkFrame) : AVVkFrame :=
  match fld with
  | FImg => mkAVVkFrame l (vkf_layout f) (vkf_sem f) (vkf_sem_value f) (vkf_access f)
  | FLayout => mkAVVkFrame (vkf_img f) l (vkf_sem f) (vkf_sem_value f) (vkf_access f)
  | FSem => mkAVVkFrame (vkf_img f) (vkf_layout f) l (vkf_sem_value f) (vkf_access f)
  | FSemValue => mkAVVkFrame (vkf_img f) (vkf_layout f) (vkf_sem f) l (vkf_access f)
  | FAccess => mkAVVkFrame (vkf_img f) (vkf_layout f) (vkf_sem f) (vkf_sem_value f) l
  end.

(** [AVHWFramesContext] with the one field of its [AVVulkanFramesContext]
    ([hwfc->hwctx]) that is read, [usage]. *)
Record AVHWFramesContext : Type := mkAVHWFramesContext {
  hwfc_width : Z;
  hwfc_height : Z;
  hwfc_sw_format : Z;
  vkfc_usage : Z }.

(** [struct mp_image]: the fields used of [p->layout] (format, logical
    size, plane count) and of [mapper->src] ([hwctx], [planes[0]], which
    for a Vulkan image is the [AVVkFrame *]). *)
Record mp_image : Type := mkmp_image {
  imgfmt : Z;
  w : Z;
  h : Z;
  num_planes : nat;
  hwctx : AVHWFramesContext;
  planes0 : option addr }.

Record vulkan_mapper_priv : Type := mkpriv {
  p_layout : mp_image;
  p_vkf : option addr;
  p_tex : list (option pl_tex);
  p_img : list Z;
  p_img_layout : list Z;
  p_sem : list Z;
  p_sem_value : list Z;
  p_num_images : nat }.

(** [struct ra_hwdec_mapper]: [src], [tex[4]] and [priv]. *)
Record ra_hwdec_mapper : Type := mkmapper {
  m_src : option mp_image;
  m_tex : list (option ra_tex);
  m_priv : vulkan_mapper_priv }.

Record pl_vulkan_hold_params : Type := mkhold {
  hold_tex : pl_tex;
  hold_out_layout : nat;       (* &new_layout[index] *)
  hold_qf : Z;
  hold_sem : Z;
  hold_value : Z }.

Record pl_vulkan_wrap_params : Type := mkwrap {
  wrap_image : Z;
  wrap_width : Z;
  wrap_height : Z;
  wrap_format : Z;
  wrap_usage : Z;
  wrap_aspect : Z }.

Record pl_vulkan_release_params : Type := mkrelease {
  release_tex : pl_tex;
  release_layout : Z;
  release_qf : Z;
  release_sem : Z;
  release_value : Z }.

(** What the protocol does to the outside, in program order: calls to the
    decoder's frame lock, stores into a native frame, and calls into the
    renderer backend. *)
Inductive event : Type :=
| EvLockFrame (vkf : option addr)
| EvUnlockFrame (vkf : option addr)
| EvFrameStore (a : addr) (fld : frame_field) (i : nat) (v : Z)
| EvWrap (prm : pl_vulkan_wrap_params)
| EvRelease (prm : pl_vulkan_release_params)
| EvWrapTex (t : pl_tex)
| EvTexDestroy (t : pl_tex)
| EvHold (prm : pl_vulkan_hold_params)
| EvRaTexFree (t : ra_tex).

Record world : Type := mkworld {
  frames : gmap addr AVVkFrame;   (* native frames owned by the decoder *)
  mapper : ra_hwdec_mapper;
  trace : list event }.

(** ** The state-and-fault monad *)

Definition M (A : Type) : Type := world -> res A * world.

Definition ret {A} (a : A) : M A := fun wd => (Ok a, wd).

Definition raise {A} (f : fault) : M A := fun wd => (Fault f, wd).

Definition bind {A B} (m : M A) (k : A -> M B) : M B :=
  fun wd =>
    match m wd with
    | (Ok a, wd') => k a wd'
    | (Fault f, wd') => (Fault f, wd')
    end.

Declare Scope prog_scope.
Delimit Scope prog_scope with prog.
Notation "'let!' x ':=' m 'in' k" := (bind m (fun x => k))
  (at level 10, x pattern, m at level 100, k at level 200) : prog_scope.
Notation "m ';;;' k" := (bind m (fun _ => k))
  (at level 100, k at level 200, right associativity) : prog_scope.
Local Open Scope prog_scope.

Definition lift {A} (r : res A) : M A := fun wd => (r, wd).

Definition emit (e : event) : M unit :=
  fun wd => (Ok tt, mkworld (frames wd) (mapper wd) (trace wd ++ [e])).

Definition get_mapper : M ra_hwdec_mapper := fun wd => (Ok (mapper wd), wd).

Definition get_priv : M vulkan_mapper_priv :=
  fun wd => (Ok (m_priv (mapper wd)), wd).

(** [*p = g( *p )] on the private data, and [mapper->tex = l]. *)
Definition update_priv (g : vulkan_mapper_priv -> vulkan_mapper_priv) : M unit :=
  fun wd => (Ok tt, mkworld (frames wd)
                      (mkmapper (m_src (mapper wd)) (m_tex (mapper wd))
                                (g (m_priv (mapper wd))))
                      (trace wd)).

Definition update_m_tex (l : list (option ra_tex)) : M unit :=
  fun wd => (Ok tt, mkworld (frames wd)
                      (mkmapper (m_src (mapper wd)) l (m_priv (mapper wd)))
                      (trace wd)).

(** Checked array access. *)
Definition read_idx {A} (l : list A) (i : nat) : res A :=
  match l !! i with
  | Some x => Ok x
  | None => Fault OutOfBounds
  end.

Definition write_idx {A} (l : list A) (i : nat) (x : A) : res (list A) :=
  if bool_decide (i < length l)%nat then Ok (<[i := x]> l) else Fault OutOfBounds.

(** [vkf->fld[i]] as an rvalue. *)
Definition load (vkf : option addr) (fld : frame_field) (i : nat) : M Z :=
  fun wd =>
    match vkf with
    | None => (Fault NullDeref, wd)
    | Some a =>
        match frames wd !! a with
        | None => (Fault InvalidPointer, wd)
        | Some f => (read_idx (field_get fld f) i, wd)
        end
    end.

(** [vkf->fld[i] = v]. *)
Definition store (vkf : option addr) (fld : frame_field) (i : nat) (v : Z) : M unit :=
  fun wd =>
    match vkf with
    | None => (Fault NullDeref, wd)
    | Some a =>
        match frames wd !! a with
        | None => (Fault InvalidPointer, wd)
        | Some f =>
            match write_idx (field_get fld f) i v with
            | Fault e => (Fault e, wd)
            | Ok l =>
                (Ok tt, mkworld (<[a := field_set fld l f]> (frames wd))
                          (mapper wd)
                          (trace wd ++ [EvFrameStore a fld i v]))
            end
        end
    end.

(** [for (int i = ...; ...; i++)] over the indices [idxs], threading the
    locals [s]. *)
Fixpoint for_each {St} (idxs : list nat) (body : nat -> St -> M St) (s : St) : M St :=
  match idxs with
  | [] => ret s
  | i :: rest => let! s' := body i s in for_each rest body s'
  end.

(** [for (int i = 0; p->tex[i] != NULL; i++)].  The loop reads slot [i]
    before iteration [i] and its bodies only write slots already passed, so
    it runs over the array as it was on entry; running off the end of the
    array reads [p->tex[4]]. *)
Fixpoint while_tex {St} (texs : list (option pl_tex)) (i : nat)
    (body : nat -> pl_tex -> St -> M St) (s : St) : M St :=
  match texs with
  | [] => raise OutOfBounds
  | None :: _ => ret s
  | Some t :: rest => let! s' := body i t s in while_tex rest (S i) body s'
  end.

(** ** The plane-to-image rule, as both functions write it:
    [p->layout.num_planes > 1 && num_images == 1 ? 0 : i]. *)
Definition multiplane (np ni : nat) : bool :=
  bool_decide (1 < np)%nat && bool_decide (ni = 1%nat).

Definition plane_image_index (np ni i : nat) : nat :=
  if multiplane np ni then 0%nat else i.

(** ** Field updates of the session *)

Definition set_p_vkf (v : option addr) (p : vulkan_mapper_priv) : vulkan_mapper_priv :=
  mkpriv (p_layout p) v (p_tex p) (p_img p) (p_img_layout p) (p_sem p)
         (p_sem_value p) (p_num_images p).

Definition set_p_tex (l : list (option pl_tex)) (p : vulkan_mapper_priv) : vulkan_mapper_priv :=
  mkpriv (p_layout p) (p_vkf p) l (p_img p) (p_img_layout p) (p_sem p)
         (p_sem_value p) (p_num_images p).

Definition set_p_img (l : list Z) (p : vulkan_mapper_priv) : vulkan_mapper_priv :=
  mkpriv (p_layout p) (p_vkf p) (p_tex p) l (p_img_layout p) (p_sem p)
         (p_sem_value p) (p_num_images p).

Definition set_p_img_layout (l : list Z) (p : vulkan_mapper_priv) : vulkan_mapper_priv :=
  mkpriv (p_layout p) (p_vkf p) (p_tex p) (p_img p) l (p_sem p)
         (p_sem_value p) (p_num_images p).

Definition set_p_sem (l : list Z) (p : vulkan_mapper_priv) : vulkan_mapper_priv :=
  mkpriv (p_layout p) (p_vkf p) (p_tex p) (p_img p) (p_img_layout p) l
         (p_sem_value p) (p_num_images p).

Definition set_p_sem_value (l : list Z) (p : vulkan_mapper_priv) : vulkan_mapper_priv :=
  mkpriv (p_layout p) (p_vkf p) (p_tex p) (p_img p) (p_img_layout p) (p_sem p)
         l (p_num_images p).

Definition set_p_num_images (n : nat) (p : vulkan_mapper_priv) : vulkan_mapper_priv :=
  mkpriv (p_layout p) (p_vkf p) (p_tex p) (p_img p) (p_img_layout p) (p_sem p)
         (p_sem_value p) n.

(** The locals of the release loop of [mapper_unmap]. *)
Record hold_locals : Type := mklocals {
  ok : list bool;
  new_layout : list Z;
  processed : list bool }.

(** [switch (i)] of [mapper_map]: the aspect of plane [i] of a multiplane
    image; [None] is the [default: goto error]. *)
Definition plane_aspect (i : nat) : option Z :=
  match i with
  | 0%nat => Some VK_IMAGE_ASPECT_PLANE_0_BIT_KHR
  | 1%nat => Some VK_IMAGE_ASPECT_PLANE_1_BIT_KHR
  | 2%nat => Some VK_IMAGE_ASPECT_PLANE_2_BIT_KHR
  | _ => None
  end.

(** ** The driver functions *)

Section Driver.

(** What the collaborators answer.  [pl_vulkan_get] tells whether
    [pl_vulkan_get(p_owner->gpu)] is non-NULL; [av_vkfmt_from_pixfmt] gives
    the per-plane formats ([None] is a NULL table); [mp_image_plane_w] and
    [mp_image_plane_h] give the size of plane [i] of an image of a given
    format and size; [pl_vulkan_wrap] returns the texture or NULL;
    [mppl_wrap_tex] and [pl_vulkan_hold_ex] return their [bool], the latter
    with the layout it writes through [out_layout]. *)
Variable pl_vulkan_get : bool.
Variable av_vkfmt_from_pixfmt : Z -> option (list Z).
Variable mp_image_plane_w : Z -> Z -> nat -> Z.
Variable mp_image_plane_h : Z -> Z -> nat -> Z.
Variable pl_vulkan_wrap : pl_vulkan_wrap_params -> option pl_tex.
Variable mppl_wrap_tex : pl_tex -> bool.
Variable pl_vulkan_hold_ex : pl_vulkan_hold_params -> bool * Z.

(** Modelled from the spec: [ra_tex_free] (video/out/gpu/ra.c is not among
    the sources) "frees a renderer-side texture handle held by the
    session": a handle that is set is destroyed, and its slot is cleared. *)
Definition ra_tex_free (i : nat) : M unit :=
  let! m := get_mapper in
  let! t := lift (read_idx (m_tex m) i) in
  match t with
  | Some r => emit (EvRaTexFree r)
  | None => ret tt
  end ;;;
  let! l := lift (write_idx (m_tex m) i None) in
  update_m_tex l.

(** Lines 397-401, the [end:] label of [mapper_unmap]. *)
Definition unmap_end : M unit :=
  let! p := get_priv in
  for_each (seq 0 (num_planes (p_layout p))) (fun i _ => ra_tex_free i) tt ;;;
  update_priv (set_p_vkf None).

(** Lines 342-348. *)
Definition mark_touched (np ni : nat) (texs : list (option pl_tex)) : M (list bool) :=
  while_tex texs 0
    (fun i _ will_process =>
       lift (write_idx will_process (plane_image_index np ni i) true))
    (replicate 4 false).

(** Lines 351-355: [reserved_sem_value[i] = ++vkf->sem_value[i]]. *)
Definition reserve (vkf : option addr) (ni : nat) (will_process : list bool) : M (list Z) :=
  for_each (seq 0 (Nat.min ni 4))
    (fun i reserved_sem_value =>
       let! wp := lift (read_idx will_process i) in
       if (wp : bool) then
         let! v := load vkf FSemValue i in
         store vkf FSemValue i (wrap64 (v + 1)) ;;;
         lift (write_idx reserved_sem_value i (wrap64 (v + 1)))
       else ret reserved_sem_value)
    (replicate 4 0).

(** Lines 358-382. *)
Definition hold_planes (np ni : nat) (texs : list (option pl_tex))
    (reserved_sem_value : list Z) : M hold_locals :=
  while_tex texs 0
    (fun i t st =>
       let index := plane_image_index np ni i in
       let! seen := lift (read_idx (processed st) index) in
       let! st' :=
         (if (seen : bool) then ret st
          else
            let! p := get_priv in
            let! s := lift (read_idx (p_sem p) index) in
            let! v := lift (read_idx reserved_sem_value index) in
            let prm := mkhold t index VK_QUEUE_FAMILY_IGNORED s v in
            emit (EvHold prm) ;;;
            let! nl := lift (write_idx (new_layout st) index (snd (pl_vulkan_hold_ex prm))) in
            let! ok' := lift (write_idx (ok st) index (fst (pl_vulkan_hold_ex prm))) in
            let! pr := lift (write_idx (processed st) index true) in
            ret (mklocals ok' nl pr)) in
       let! p := get_priv in
       let! l := lift (write_idx (p_tex p) i None) in
       update_priv (set_p_tex l) ;;;
       ret st')
    (mklocals (replicate 4 false) (replicate 4 0) (replicate 4 false)).

(** Lines 385-394. *)
Definition commit (vkf : option addr) (ni : nat) (will_process : list bool)
    (st : hold_locals) (reserved_sem_value : list Z) : M unit :=
  for_each (seq 0 (Nat.min ni 4))
    (fun i _ =>
       let! wp := lift (read_idx will_process i) in
       (if (wp : bool) then
          let! good := lift (read_idx (ok st) i) in
          if (good : bool) then
            let! nl := lift (read_idx (new_layout st) i) in
            store vkf FLayout i nl
          else
            let! r := lift (read_idx reserved_sem_value i) in
            store vkf FSemValue i (wrap64 (r - 1))
        else ret tt) ;;;
       store vkf FAccess i 0)
    tt.

(** [mapper_unmap], lines 324-402.  The [continue] of the two texture
    loops cannot be taken (the loop condition already tests the slot). *)
Definition mapper_unmap : M unit :=
  let! m := get_mapper in
  match m_src m with
  | None => unmap_end
  | Some _ =>
      let p := m_priv m in
      let vkf := p_vkf p in
      let num_images := p_num_images p in
      let np := num_planes (p_layout p) in
      let! will_process := mark_touched np num_images (p_tex p) in
      emit (EvLockFrame vkf) ;;;
      let! reserved_sem_value := reserve vkf num_images will_process in
      emit (EvUnlockFrame vkf) ;;;
      let! st := hold_planes np num_images (p_tex p) reserved_sem_value in
      emit (EvLockFrame vkf) ;;;
      commit vkf num_images will_process st reserved_sem_value ;;;
      emit (EvUnlockFrame vkf) ;;;
      unmap_end
  end.

(** Line 431: count the leading non-NULL images, at most 4. *)
Fixpoint count_images (vkf : option addr) (idxs : list nat) (n : nat) : M nat :=
  match idxs with
  | [] => ret n
  | i :: rest =>
      let! handle := load vkf FImg i in
      if handle =? VK_NULL_HANDLE then ret n else count_images vkf rest (S n)
  end.

(** [p->dst[i] = vkf->fld[i]], one of the four assignments of lines
    433-436. *)
Definition copy_entry (vkf : option addr) (fld : frame_field) (i : nat)
    (get : vulkan_mapper_priv -> list Z)
    (set : list Z -> vulkan_mapper_priv -> vulkan_mapper_priv) : M unit :=
  let! x := load vkf fld i in
  let! p := get_priv in
  let! l := lift (write_idx (get p) i x) in
  update_priv (set l).

(** Lines 432-437. *)
Definition snapshot (vkf : option addr) (num_images : nat) : M unit :=
  for_each (seq 0 (Nat.min num_images 4))
    (fun i _ =>
       copy_entry vkf FImg i p_img set_p_img ;;;
       copy_entry vkf FLayout i p_img_layout set_p_img_layout ;;;
       copy_entry vkf FSem i p_sem set_p_sem ;;;
       copy_entry vkf FSemValue i p_sem_value set_p_sem_value)
    tt.

(** The call built for plane [i] at lines 466-473. *)
Definition wrap_params_of (p : vulkan_mapper_priv) (hwfc : AVHWFramesContext)
    (image fmt aspect : Z) (i : nat) : pl_vulkan_wrap_params :=
  mkwrap image
         (mp_image_plane_w (imgfmt (p_layout p)) (hwfc_width hwfc) i)
         (mp_image_plane_h (imgfmt (p_layout p)) (hwfc_height hwfc) i)
         fmt (vkfc_usage hwfc) aspect.

(** Lines 441-495; [true] is the normal end of the loop, [false] a
    [goto error]. *)
Fixpoint map_planes (hwfc : AVHWFramesContext) (vk_fmt : option (list Z))
    (num_images : nat) (idxs : list nat) : M bool :=
  match idxs with
  | [] => ret true
  | i :: rest =>
      let! p := get_priv in
      let np := num_planes (p_layout p) in
      match (if multiplane np num_images then plane_aspect i
             else Some VK_IMAGE_ASPECT_COLOR_BIT) with
      | None => ret false
      | Some aspect =>
          let index := plane_image_index np num_images i in
          let! image := lift (read_idx (p_img p) index) in
          let! fmt := match vk_fmt with
                      | None => raise NullDeref
                      | Some tbl => lift (read_idx tbl i)
                      end in
          let prm := wrap_params_of p hwfc image fmt aspect i in
          emit (EvWrap prm) ;;;
          let! l := lift (write_idx (p_tex p) i (pl_vulkan_wrap prm)) in
          update_priv (set_p_tex l) ;;;
          match pl_vulkan_wrap prm with
          | None => ret false
          | Some t =>
              let! p := get_priv in
              let! lay := lift (read_idx (p_img_layout p) index) in
              let! s := lift (read_idx (p_sem p) index) in
              let! v := lift (read_idx (p_sem_value p) index) in
              emit (EvRelease (mkrelease t lay VK_QUEUE_FAMILY_IGNORED s v)) ;;;
              emit (EvWrapTex t) ;;;
              if mppl_wrap_tex t then
                let! m := get_mapper in
                let! l := lift (write_idx (m_tex m) i (Some t)) in
                update_m_tex l ;;;
                map_planes hwfc vk_fmt num_images rest
              else
                emit (EvTexDestroy t) ;;;
                let! p := get_priv in
                let! l := lift (write_idx (p_tex p) i None) in
                update_priv (set_p_tex l) ;;;
                ret false
          end
      end
  end.

(** [mapper_map], lines 404-503. *)
Definition mapper_map : M Z :=
  if negb pl_vulkan_get then ret (-1)
  else
    let! m := get_mapper in
    match m_src m with
    | None => raise NullDeref
    | Some srcimg =>
        let hwfc := hwctx srcimg in
        let vkf := planes0 srcimg in
        let vk_fmt := av_vkfmt_from_pixfmt (hwfc_sw_format hwfc) in
        emit (EvLockFrame vkf) ;;;
        let! num_images := count_images vkf (seq 0 4) 0 in
        snapshot vkf num_images ;;;
        update_priv (set_p_num_images num_images) ;;;
        emit (EvUnlockFrame vkf) ;;;
        let! p := get_priv in
        let! finished := map_planes hwfc vk_fmt num_images
                           (seq 0 (num_planes (p_layout p))) in
        if (finished : bool) then
          update_priv (set_p_vkf vkf) ;;;
          ret 0
        else
          mapper_unmap ;;;
          ret (-1)
    end.

End Driver.

End Protocol.

(** ** The queue lock hooks ([lock_queue], [unlock_queue]) *)

Module Guard.

Definition thread := nat.

(** The calls the two hooks make.  The mutex is the one of
    [struct queue_lock_ctx]; [VkLockQueue] and [VkUnlockQueue] are the
    renderer's [lock_queue] and [unlock_queue] ([lock_ctx->vulkan]). *)
Inductive call : Type :=
| MutexLock
| MutexUnlock
| VkLockQueue (queue_family index : Z)
| VkUnlockQueue (queue_family index : Z).

#[global] Instance call_eq_dec : EqDecision call.
Proof. solve_decision. Defined.

(** [lock_queue], lines 52-59, and [unlock_queue], lines 61-68: the calls
    of each hook in program order. *)
Definition lock_queue (queue_family index : Z) : list call :=
  [MutexLock; VkLockQueue queue_family index].

Definition unlock_queue (queue_family index : Z) : list call :=
  [VkUnlockQueue queue_family index; MutexUnlock].

(** The threads of the decoder running the hooks: who holds the mutex, the
    calls each thread still has to make, and the calls made so far. *)
Record guard_state : Type := mkguard {
  mutex : option thread;
  pending : thread -> list call;
  log : list (thread * call) }.

Definition upd {A} (f : thread -> A) (t : thread) (x : A) : thread -> A :=
  fun t' => if decide (t' = t) then x else f t'.

(** Thread [t] is scheduled and makes its next call.  The mutex is a plain
    POSIX mutex: a thread that locks it while it is held waits (here: does
    not move), and unlocking a mutex the thread does not hold is undefined
    (here: the thread does not move either). *)
Definition advance (t : thread) (st : guard_state) : guard_state :=
  match pending st t with
  | [] => st
  | MutexLock :: rest =>
      match mutex st with
      | None => mkguard (Some t) (upd (pending st) t rest) (log st ++ [(t, MutexLock)])
      | Some _ => st
      end
  | MutexUnlock :: rest =>
      if decide (mutex st = Some t)
      then mkguard None (upd (pending st) t rest) (log st ++ [(t, MutexUnlock)])
      else st
  | c :: rest =>
      mkguard (mutex st) (upd (pending st) t rest) (log st ++ [(t, c)])
  end.

(** The threads scheduled in the order [sched]. *)
Fixpoint run (sched : list thread) (st : guard_state) : guard_state :=
  match sched with
  | [] => st
  | t :: rest => run rest (advance t st)
  end.

End Guard.

(** ** Timer routines (osdep/timer-unix.c and the timer core) *)

Module Timer.

Definition INT64_MAX : Z := 2 ^ 63 - 1.
Definition INT64_MIN : Z := - 2 ^ 63.

(** Conversion of a [uint64_t] to [int64_t], as the compilers in use do
    it: the value is kept modulo 2^64. *)
Definition to_int64 (r : Z) : Z := if r <? 2 ^ 63 then r else r - 2 ^ 64.

(** The result of an [int64_t] (or [time_t], [long]) operation; [None] is
    a signed overflow. *)
Definition int64 (z : Z) : option Z :=
  if (INT64_MIN <=? z) && (z <=? INT64_MAX) then Some z else None.

Record timespec : Type := mktimespec {
  tv_sec : Z;
  tv_nsec : Z }.

(** [mp_sleep_ns], timer-unix.c lines 25-33: the [timespec] handed to
    [nanosleep], [None] when the function returns without sleeping.  The
    division and the remainder are taken in [uint64_t]. *)
Definition mp_sleep_ns (ns : Z) : option timespec :=
  if ns <? 0 then None
  else Some (mktimespec (wrap64 ns / 1000000000) (wrap64 ns mod 1000000000)).

(** [mp_raw_time_ns], timer-unix.c lines 35-44, for the [timespec] the
    clock call leaves in [tp] (all zero when the call fails): the sum is
    taken in [uint64_t]. *)
Definition mp_raw_time_ns (tp : timespec) : Z :=
  wrap64 (tv_sec tp * 1000000000 + tv_nsec tp).

(** The state of the timer core: [raw_time_offset], whether
    [timer_init_once] has run, the seed given to [mp_rand_seed], and how
    often the raw clock and the realtime clock were read. *)
Record timer_state : Type := mktimer {
  raw_time_offset : Z;
  timer_init_once : bool;
  rand_seed : option Z;
  clock_reads : nat;
  realtime_reads : nat }.

Section Core.

(** [clock n] is what the raw clock leaves in [tp] at its [n]-th reading;
    [get_realtime n] the return value and the [timespec] of the [n]-th
    reading of the realtime clock.  [MP_START_TIME] is the constant of
    timer.h, [MPMIN] the macro of common.h, and
    [HAVE_WIN32_INTERNAL_PTHREADS] the build switch. *)
Variable clock : nat -> timespec.
Variable get_realtime : nat -> Z * timespec.
Variable MP_START_TIME : Z.
Variable MPMIN : Z -> Z -> Z.
Variable HAVE_WIN32_INTERNAL_PTHREADS : bool.

Definition read_raw_time (st : timer_state) : Z * timer_state :=
  (mp_raw_time_ns (clock (clock_reads st)),
   mktimer (raw_time_offset st) (timer_init_once st) (rand_seed st)
           (S (clock_reads st)) (realtime_reads st)).

(** [do_timer_init], lines 35-44 of the timer core. *)
Definition do_timer_init (st : timer_state) : timer_state :=
  let (seed, st) := read_raw_time st in
  let st := mktimer (raw_time_offset st) (timer_init_once st) (Some seed)
                    (clock_reads st) (realtime_reads st) in
  let (raw, st) := read_raw_time st in
  mktimer (wrap64 (raw - MP_START_TIME)) (timer_init_once st) (rand_seed st)
          (clock_reads st) (realtime_reads st).

(** [mp_time_init]: [pthread_once] runs [do_timer_init] the first time
    only. *)
Definition mp_time_init (st : timer_state) : timer_state :=
  if timer_init_once st then st
  else
    let st := do_timer_init st in
    mktimer (raw_time_offset st) true (rand_seed st) (clock_reads st)
            (realtime_reads st).

(** [mp_time_ns], lines 56-62.  The comparison with [MP_START_TIME] is
    made in [uint64_t]. *)
Definition mp_time_ns (st : timer_state) : Z * timer_state :=
  let (raw, st) := read_raw_time st in
  let r := wrap64 (raw - raw_time_offset st) in
  let r := if r <? wrap64 MP_START_TIME then wrap64 MP_START_TIME else r in
  (to_int64 r, st).

(** [mp_time_us], lines 51-54: a division of [int64_t], rounding to
    zero. *)
Definition mp_time_us (st : timer_state) : Z * timer_state :=
  let (ns, st) := mp_time_ns st in (Z.quot ns 1000, st).

(** [mp_time_ns_to_realtime], lines 114-137. *)
Definition mp_time_ns_to_realtime (time_ns : Z) (st : timer_state)
    : option timespec * timer_state :=
  let ts := mktimespec 0 0 in
  let '(stop, ts, time_rel, st) :=
    if HAVE_WIN32_INTERNAL_PTHREADS then (false, ts, Some time_ns, st)
    else
      let (rc, ts) := get_realtime (realtime_reads st) in
      let st := mktimer (raw_time_offset st) (timer_init_once st) (rand_seed st)
                        (clock_reads st) (S (realtime_reads st)) in
      if negb (rc =? 0) then (true, ts, None, st)
      else
        let (now, st) := mp_time_ns st in
        (false, ts, int64 (time_ns - now), st) in
  if (stop : bool) then (Some ts, st)
  else
    match time_rel with
    | None => (None, st)
    | Some time_rel =>
        let time_rel := MPMIN time_rel (1000 * 24 * 60 * 60 * 1000000000) in
        match int64 (tv_sec ts + Z.quot time_rel 1000000000),
              int64 (tv_nsec ts + Z.rem time_rel 1000000000) with
        | Some sec, Some nsec =>
            if 1000000000 <=? nsec then
              match int64 (sec + 1) with
              | Some sec' => (Some (mktimespec sec' (nsec - 1000000000)), st)
              | None => (None, st)
              end
            else (Some (mktimespec sec nsec), st)
        | _, _ => (None, st)
        end
    end.

(** [mp_time_us_to_realtime], lines 109-112. *)
Definition mp_time_us_to_realtime (time_us : Z) (st : timer_state)
    : option timespec * timer_state :=
  match int64 (MPMIN (Z.quot INT64_MAX 1000) time_us * 1000) with
  | Some time_ns => mp_time_ns_to_realtime time_ns st
  | None => (None, st)
  end.

End Core.

End Timer.

From Stdlib Require Import SpecFloat.

(** ** Adding a timeout to a time (the timer core, lines 69-91) *)

Module TimerAdd.

Import Timer.

(** A [double] is an IEEE 754 binary64 number; the product is rounded to
    nearest, ties to even.  Assertions are compiled in. *)
Definition double : Type := spec_float.

Definition double_mul : double -> double -> double := SFmul 53 1024.

Definition double_of_Z (z : Z) : double := binary_normalize 53 1024 z 0 false.

(** [1e6], [1e9], [0x1p63] and [-0x1p63]. *)
Definition d_1e6 : double := Eval vm_compute in double_of_Z 1000000.
Definition d_1e9 : double := Eval vm_compute in double_of_Z 1000000000.
Definition d_0x1p63 : double := Eval vm_compute in binary_normalize 53 1024 1 63 false.
Definition d_m0x1p63 : double := Eval vm_compute in SFopp d_0x1p63.

(** [(int64_t)t]: the value is truncated towards zero; the conversion of
    a NaN, of an infinity or of a value outside [int64_t] is undefined
    ([None]). *)
Definition double_to_int64 (t : double) : option Z :=
  match t with
  | S754_zero _ => Some 0
  | S754_finite s m e =>
      let magnitude := if 0 <=? e then Z.pos m * 2 ^ e else Z.pos m / 2 ^ (- e) in
      int64 (if s then - magnitude else magnitude)
  | S754_infinity _ | S754_nan => None
  end.

Inductive add_result : Type :=
| AssertionFailure        (* assert(time > 0) fails *)
| UndefinedConversion     (* (int64_t)t is undefined *)
| Value (z : Z).

Section Add.

(** [MPCLAMP] is the macro of common.h. *)
Variable MPCLAMP : double -> double -> double -> double.

(** [mp_time_us_add], lines 69-79. *)
Definition mp_time_us_add (time_us : Z) (timeout_sec : double) : add_result :=
  if negb (0 <? time_us) then AssertionFailure
  else
    let t := MPCLAMP (double_mul timeout_sec d_1e6) d_m0x1p63 d_0x1p63 in
    match (if SFeqb t d_0x1p63 then Some INT64_MAX else double_to_int64 t) with
    | None => UndefinedConversion
    | Some ti =>
        if INT64_MAX - time_us <? ti then Value INT64_MAX
        else if ti <=? - time_us then Value 1
        else Value (time_us + ti)
    end.

(** [mp_time_ns_add], lines 81-91. *)
Definition mp_time_ns_add (time_ns : Z) (timeout_sec : double) : add_result :=
  if negb (0 <? time_ns) then AssertionFailure
  else
    let t := MPCLAMP (double_mul timeout_sec d_1e9) d_m0x1p63 d_0x1p63 in
    match (if SFeqb t d_0x1p63 then Some INT64_MAX else double_to_int64 t) with
    | None => UndefinedConversion
    | Some ti =>
        if INT64_MAX - time_ns <? ti then Value INT64_MAX
        else if ti <=? - time_ns then Value 1
        else Value (time_ns + ti)
    end.

(** [mp_rel_time_to_timespec], lines 139-142; [None] when no value is
    returned (failed assertion, undefined conversion or signed
    overflow). *)
Definition mp_rel_time_to_timespec (clock : nat -> timespec)
    (get_realtime : nat -> Z * timespec) (MP_START_TIME : Z)
    (MPMIN : Z -> Z -> Z) (HAVE_WIN32_INTERNAL_PTHREADS : bool)
    (timeout_sec : double) (st : timer_state) : option timespec * timer_state :=
  let (now, st) := mp_time_ns clock MP_START_TIME st in
  match mp_time_ns_add now timeout_sec with
  | Value deadline =>
      mp_time_ns_to_realtime clock get_realtime MP_START_TIME MPMIN
        HAVE_WIN32_INTERNAL_PTHREADS deadline st
  | AssertionFailure | UndefinedConversion => (None, st)
  end.

End Add.

End TimerAdd.

(** * Specification-level definitions *)

Section BuilderSpec.

Import Builder.

(** The decode-capable families of a device with their indices, the first
    family having index [i]: the specification's view of the two scans. *)
Fixpoint decode_members (families : list VkQueueFamily) (i : nat)
    : list (nat * VkQueueFamily) :=
  match families with
  | [] => []
  | q :: rest =>
      if decode_capable q then (i, q) :: decode_members rest (S i)
      else decode_members rest (S i)
  end.

Definition decode_family_indices (families : list VkQueueFamily) : list nat :=
  (decode_members families 0).*1.

Definition decode_entry (m : nat * VkQueueFamily) : AVVulkanDeviceQueueFamily :=
  mkdevqf (Z.of_nat m.1) (queueCount m.2) VK_QUEUE_VIDEO_DECODE_BIT_KHR
          (videoCodecOperations m.2).

End BuilderSpec.

Section ProtocolSpec.

Import Protocol.

Definition is_store (e : event) : bool :=
  match e with EvFrameStore _ _ _ _ => true | _ => false end.

Definition is_hold (e : event) : bool :=
  match e with EvHold _ => true | _ => false end.

Definition is_wrap (e : event) : bool :=
  match e with EvWrap _ => true | _ => false end.

(** The release calls and the wrap calls of a trace, in order. *)
Definition hold_calls (evs : list event) : list pl_vulkan_hold_params :=
  omap (fun e => match e with EvHold prm => Some prm | _ => None end) evs.

Definition wrap_calls (evs : list event) : list pl_vulkan_wrap_params :=
  omap (fun e => match e with EvWrap prm => Some prm | _ => None end) evs.

(** The image indices on which a trace issues a release. *)
Definition hold_slots (evs : list event) : list nat :=
  hold_out_layout <$> hold_calls evs.

(** [leads I J m]: from a world in [I], running [m] ends, normally or by
    a fault, in a world in [J]. *)
Definition leads {A} (I J : world -> Prop) (m : M A) : Prop :=
  forall wd, I wd -> J (m wd).2.

End ProtocolSpec.

Section ProtocolSpecMore.

Import Protocol.

Definition is_free (e : event) : bool :=
  match e with EvRaTexFree _ => true | _ => false end.

(** The counters of a native frame are [uint64_t] values. *)
Definition counters_in_range (f : AVVkFrame) : Prop :=
  Forall (fun v => 0 <= v < 2 ^ 64) (vkf_sem_value f).

End ProtocolSpecMore.

Section ProtocolSpecWraps.

Import Protocol.

(** The plane-to-image rule in the words of the design document, for the
    session data [img] (the snapshot of the image handles) and [lay]
    ([p->layout]): with more than one plane and exactly one image, plane
    [i] is wrapped from image 0 with the aspect of plane [i], and there is
    no fourth plane; otherwise plane [i] is wrapped from image [i] with the
    colour aspect.  The size is that of plane [i] of an image of the
    frames context's size. *)
Definition wrap_for_plane (plane_w plane_h : Z -> Z -> nat -> Z)
    (img : list Z) (lay : mp_image) (hwfc : AVHWFramesContext) (ni : nat)
    (i : nat) (prm : pl_vulkan_wrap_params) : Prop :=
  (if decide (1 < num_planes lay /\ ni = 1)%nat
   then img !! 0%nat = Some (wrap_image prm) /\
        (i < 3)%nat /\
        wrap_aspect prm = nth i [VK_IMAGE_ASPECT_PLANE_0_BIT_KHR;
                                 VK_IMAGE_ASPECT_PLANE_1_BIT_KHR;
                                 VK_IMAGE_ASPECT_PLANE_2_BIT_KHR] 0
   else img !! i = Some (wrap_image prm) /\
        wrap_aspect prm = VK_IMAGE_ASPECT_COLOR_BIT) /\
  wrap_width prm = plane_w (imgfmt lay) (hwfc_width hwfc) i /\
  wrap_height prm = plane_h (imgfmt lay) (hwfc_height hwfc) i /\
  wrap_usage prm = vkfc_usage hwfc.

(** The image of plane [i] by the same rule, for a session of [np] planes
    that counted [ni] images. *)
Definition image_of_plane (np ni i : nat) : nat :=
  if decide (1 < np /\ ni = 1)%nat then 0%nat else i.

End ProtocolSpecWraps.

Section ProtocolSpecSnapshot.

Import Protocol.

(** Entry [i] of the session snapshot and of a native frame: image handle,
    layout, semaphore handle and counter. *)
Definition session_entry (p : vulkan_mapper_priv) (i : nat) : option (Z * Z * Z * Z) :=
  match p_img p !! i, p_img_layout p !! i, p_sem p !! i, p_sem_value p !! i with
  | Some x1, Some x2, Some x3, Some x4 => Some (x1, x2, x3, x4)
  | _, _, _, _ => None
  end.

Definition frame_entry (f : AVVkFrame) (i : nat) : option (Z * Z * Z * Z) :=
  match vkf_img f !! i, vkf_layout f !! i, vkf_sem f !! i, vkf_sem_value f !! i with
  | Some x1, Some x2, Some x3, Some x4 => Some (x1, x2, x3, x4)
  | _, _, _, _ => None
  end.

(** Only the snapshot arrays of the session differ between two worlds. *)
Definition only_snapshot_changed (wd wd' : world) : Prop :=
  frames wd' = frames wd /\ trace wd' = trace wd /\
  m_src (mapper wd') = m_src (mapper wd) /\
  m_tex (mapper wd') = m_tex (mapper wd) /\
  p_layout (m_priv (mapper wd')) = p_layout (m_priv (mapper wd)) /\
  p_vkf (m_priv (mapper wd')) = p_vkf (m_priv (mapper wd)) /\
  p_tex (m_priv (mapper wd')) = p_tex (m_priv (mapper wd)).

End ProtocolSpecSnapshot.

(** * Further specification-level definitions *)

Section BuilderSpecOutcome.

Import Builder.

(** The conditions under which [vulkan_init] goes through to the end. *)
Definition init_goes_through (api : queue_api) (av_hwdevice_ctx_alloc talloc_zero : bool)
    (av_hwdevice_ctx_init : AVVulkanDeviceContext -> Z)
    (hw : ra_hwdec) (vk : dmpvk_ctx) : Prop :=
  ra_vk_ctx hw = Some vk /\ ra_pl hw <> None /\
  has_video_decode_queue (extensions vk) = true /\
  phys_device vk <> [] /\
  av_hwdevice_ctx_alloc = true /\ talloc_zero = true /\
  0 <= av_hwdevice_ctx_init (build_device_hwctx api vk).

End BuilderSpecOutcome.

Section ProtocolSpecFrames.

Import Protocol.

(** What Export may do to the native frame at address [b], when the session
    holds the frame [v0]: a frame other than [v0] stays as it is; the image
    and semaphore handles of [v0] stay as they are. *)
Definition frame_kept (v0 : option addr) (b : addr) (f f' : AVVkFrame) : Prop :=
  vkf_img f' = vkf_img f /\ vkf_sem f' = vkf_sem f /\
  (Some b <> v0 -> f' = f).

Definition frames_kept (v0 : option addr) (fr fr' : gmap addr AVVkFrame) : Prop :=
  forall b, option_Forall2 (frame_kept v0 b) (fr !! b) (fr' !! b).

(** The stores Export makes: into the frame [v0], into its counters,
    layouts and access flags. *)
Definition export_store (v0 : option addr) (e : event) : Prop :=
  match e with
  | EvFrameStore a fld _ _ =>
      Some a = v0 /\ (fld = FSemValue \/ fld = FLayout \/ fld = FAccess)
  | EvWrap _ | EvRelease _ | EvWrapTex _ | EvTexDestroy _ => False
  | _ => True
  end.

(** The part of a session Export leaves alone. *)
Definition session_kept (p p' : vulkan_mapper_priv) : Prop :=
  p_layout p' = p_layout p /\ p_img p' = p_img p /\
  p_img_layout p' = p_img_layout p /\ p_sem p' = p_sem p /\
  p_sem_value p' = p_sem_value p /\ p_num_images p' = p_num_images p.

(** The invariant of Export since the world [w0]. *)
Definition export_inv (w0 wd : world) : Prop :=
  frames_kept (p_vkf (m_priv (mapper w0))) (frames w0) (frames wd) /\
  session_kept (m_priv (mapper w0)) (m_priv (mapper wd)) /\
  m_src (mapper wd) = m_src (mapper w0) /\
  exists evs, trace wd = trace w0 ++ evs /\
              Forall (export_store (p_vkf (m_priv (mapper w0)))) evs.

Definition export_event (w0 : world) (e : event) : Prop :=
  export_store (p_vkf (m_priv (mapper w0))) e.

Definition export_update (g : vulkan_mapper_priv -> vulkan_mapper_priv) : Prop :=
  forall p, session_kept p (g p).

(** The session is unmapped, has its source image and counts [n] images. *)
Definition unwinding (srcimg : mp_image) (n : nat) (wd : world) : Prop :=
  m_src (mapper wd) = Some srcimg /\ p_vkf (m_priv (mapper wd)) = None /\
  p_num_images (m_priv (mapper wd)) = n.

Definition keeps_unwinding (g : vulkan_mapper_priv -> vulkan_mapper_priv) : Prop :=
  forall p, p_vkf (g p) = p_vkf p /\ p_num_images (g p) = p_num_images p.

Definition all_events (e : event) : Prop := True.

End ProtocolSpecFrames.

Section ProtocolSpecImport.

Import Protocol.

(** The hand-over of a wrapped texture to the renderer, for plane [i] of a
    session [p] that counted [ni] images: the texture is released with the
    layout, the semaphore and the counter value the snapshot holds for the
    image of that plane. *)
Definition release_of (p : vulkan_mapper_priv) (ni i : nat) (t : pl_tex)
    (prm : pl_vulkan_release_params) : Prop :=
  let index := plane_image_index (num_planes (p_layout p)) ni i in
  release_tex prm = t /\ release_qf prm = VK_QUEUE_FAMILY_IGNORED /\
  p_img_layout p !! index = Some (release_layout prm) /\
  p_sem p !! index = Some (release_sem prm) /\
  p_sem_value p !! index = Some (release_value prm).

(** The three calls [mapper_map] makes for a plane it maps. *)
Definition plane_calls
    (c : pl_vulkan_wrap_params * pl_vulkan_release_params * pl_tex) : list event :=
  [EvWrap c.1.1; EvRelease c.1.2; EvWrapTex c.2].

(** What the calls [c] for plane [i] of the session [p] are: the wrap call
    returned the texture, on the image handle the snapshot holds for the
    plane's image, the renderer accepted the texture, and the texture was
    handed over with the snapshot's state of that image. *)
Definition plane_mapped (pl_vulkan_wrap : pl_vulkan_wrap_params -> option pl_tex)
    (mppl_wrap_tex : pl_tex -> bool) (ni : nat) (p : vulkan_mapper_priv) (i : nat)
    (c : pl_vulkan_wrap_params * pl_vulkan_release_params * pl_tex) : Prop :=
  pl_vulkan_wrap c.1.1 = Some c.2 /\ mppl_wrap_tex c.2 = true /\
  release_of p ni i c.2 c.1.2 /\
  p_img p !! plane_image_index (num_planes (p_layout p)) ni i =
    Some (wrap_image c.1.1).

End ProtocolSpecImport.

Section GuardSpec.

Import Guard.

(** A decoder thread that pairs its calls: for each queue of [queues] in
    turn it calls [lock_queue] and then [unlock_queue] on that queue. *)
Definition paired_calls (queues : list (Z * Z)) : list call :=
  flat_map (fun q => lock_queue q.1 q.2 ++ unlock_queue q.1 q.2) queues.

Definition guard_init (queues : thread -> list (Z * Z)) : guard_state :=
  mkguard None (fun t => paired_calls (queues t)) [].

(** The renderer's queue lock as the log shows it: [Some None] when no
    queue is locked, [Some (Some (t, qf, i))] when thread [t] has locked
    queue [(qf, i)] and not yet unlocked it, [None] once a renderer call
    was made while another thread's lock was open, or an unlock did not
    match the open lock. *)
Definition vk_step (o : option (option (thread * Z * Z))) (e : thread * call)
    : option (option (thread * Z * Z)) :=
  match o with
  | None => None
  | Some cur =>
      match e.2, cur with
      | VkLockQueue qf i, None => Some (Some (e.1, qf, i))
      | VkLockQueue _ _, Some _ => None
      | VkUnlockQueue qf i, Some x =>
          if decide (x = (e.1, qf, i)) then Some None else None
      | VkUnlockQueue _ _, None => None
      | _, _ => Some cur
      end
  end.

Definition serialised (l : list (thread * call)) : option (option (thread * Z * Z)) :=
  fold_left vk_step l (Some None).

(** Where a thread is in a pair of hook calls. *)
Inductive phase : Type :=
| Outside
| HasMutex (qf i : Z)
| HasQueue (qf i : Z)
| Leaving.

Definition phase_calls (ph : phase) : list call :=
  match ph with
  | Outside => []
  | HasMutex qf i => [VkLockQueue qf i; VkUnlockQueue qf i; MutexUnlock]
  | HasQueue qf i => [VkUnlockQueue qf i; MutexUnlock]
  | Leaving => [MutexUnlock]
  end.

Definition at_phase (ph : phase) (l : list call) : Prop :=
  exists queues, l = phase_calls ph ++ paired_calls queues.

(** The invariant of the guard: every thread is somewhere in a pair of
    hook calls, the thread holding the mutex is the one that is not outside
    its pair, and the renderer's queue lock is open exactly for a thread
    between its two renderer calls. *)
Definition guard_inv (st : guard_state) : Prop :=
  exists ph : thread -> phase,
    (forall t, at_phase (ph t) (pending st t)) /\
    (forall t, mutex st = Some t <-> ph t <> Outside) /\
    exists o, serialised (log st) = Some o /\
              forall t qf i, o = Some (t, qf, i) <-> ph t = HasQueue qf i.

End GuardSpec.

Section TimerAddSpec.

Import Timer TimerAdd.

Variable MPCLAMP : double -> double -> double -> double.

(** The timeout in ticks of [1 / scale] seconds: the product of the
    timeout and the scale, clamped to the range from [-0x1p63] to [0x1p63]
    and converted to [int64_t], with [0x1p63] itself taken as [INT64_MAX];
    [None] when the conversion is undefined. *)
Definition timeout_ticks (scale timeout_sec : double) : option Z :=
  let t := MPCLAMP (double_mul timeout_sec scale) d_m0x1p63 d_0x1p63 in
  if SFeqb t d_0x1p63 then Some INT64_MAX else double_to_int64 t.

End TimerAddSpec.
(** * Sample devices *)

Module BuilderSamples.

Import Builder.
Local Open Scope string_scope.

(** Three families, the third one decode-capable. *)
Definition families3 : list VkQueueFamily :=
  [ mkfamily 7 1 0; mkfamily 4 2 0; mkfamily 32 4 5 ].

(** Two more families, the fifth one decode-capable as well. *)
Definition families5 : list VkQueueFamily :=
  families3 ++ [ mkfamily 2 1 0; mkfamily 32 2 9 ].

(** A device without a decode-capable family. *)
Definition families_nodecode : list VkQueueFamily :=
  [ mkfamily 7 1 0; mkfamily 4 2 0 ].

Definition vk_of (families : list VkQueueFamily) : dmpvk_ctx :=
  mkvk families
       [ "VK_KHR_swapchain"; "VK_KHR_video_queue"; "VK_KHR_video_decode_queue" ]
       [ "VK_KHR_surface" ]
       (mkqueue 0 1) (mkqueue 1 2) (mkqueue 0 1).

Definition hw_of (families : list VkQueueFamily) : ra_hwdec :=
  mkhw false "vulkan" (Some (vk_of families)) (Some 1).

(** The state of a freshly allocated [ra_hwdec]: zeroed private data, an
    empty registry, nothing allocated. *)
Definition st0 : hw_state :=
  mkstate [] (mkhwctx "" None 0) None None [].

Definition init_accepts (c : AVVulkanDeviceContext) : Z := 0.
Definition init_rejects (c : AVVulkanDeviceContext) : Z := -22.

End BuilderSamples.

(** * Sample sessions *)

Module ProtocolSamples.

Import Protocol.

(** A 1920x1080 stream decoded into 1920x1088 images. *)
Definition hwfc0 : AVHWFramesContext := mkAVHWFramesContext 1920 1088 23 7.

(** [p->layout] for a format of [np] planes, at the logical size. *)
Definition layout0 (np : nat) : mp_image := mkmp_image 1000 1920 1080 np hwfc0 None.

(** The source image, whose native frame lives at address 5. *)
Definition src0 : mp_image := mkmp_image 2000 1920 1080 0 hwfc0 (Some 5%nat).

(** Native frames backed by two images and by one image. *)
Definition frame2 : AVVkFrame :=
  mkAVVkFrame [101; 102; 0; 0; 0; 0; 0; 0] [1; 2; 0; 0; 0; 0; 0; 0]
              [201; 202; 0; 0; 0; 0; 0; 0] [10; 20; 0; 0; 0; 0; 0; 0]
              [1; 1; 0; 0; 0; 0; 0; 0].

Definition frame1 : AVVkFrame :=
  mkAVVkFrame [101; 0; 0; 0; 0; 0; 0; 0] [1; 0; 0; 0; 0; 0; 0; 0]
              [201; 0; 0; 0; 0; 0; 0; 0] [10; 0; 0; 0; 0; 0; 0; 0]
              [1; 0; 0; 0; 0; 0; 0; 0].

(** A session that has never mapped anything. *)
Definition priv0 (np : nat) : vulkan_mapper_priv :=
  mkpriv (layout0 np) None [None; None; None; None] [0; 0; 0; 0] [0; 0; 0; 0]
         [0; 0; 0; 0] [0; 0; 0; 0] 0.

(** The world before the import of frame [f] by a session of [np] planes. *)
Definition world0 (f : AVVkFrame) (np : nat) : world :=
  mkworld {[ 5%nat := f ]}
          (mkmapper (Some src0) [None; None; None; None] (priv0 np)) [].

(** Plane sizes of a 4:2:0 format: plane 0 has the size of the image, the
    other planes half of it, rounded up. *)
Definition plane_size (fmt size : Z) (i : nat) : Z :=
  match i with 0%nat => size | _ => (size + 1) / 2 end.

Definition fmt_table (sw_format : Z) : option (list Z) := Some [9; 16; 16; 0].

Definition wrap_ok (prm : pl_vulkan_wrap_params) : option pl_tex :=
  Some (wrap_image prm * 10 + wrap_aspect prm).

(** A backend that cannot wrap a texture of the half-size planes. *)
Definition wrap_luma_only (prm : pl_vulkan_wrap_params) : option pl_tex :=
  if wrap_width prm =? 1920 then Some (wrap_image prm * 10 + wrap_aspect prm)
  else None.

Definition wrap_tex_ok (t : pl_tex) : bool := true.

Definition hold_ok (prm : pl_vulkan_hold_params) : bool * Z := (true, 77).

(** A backend whose release fails on image 1. *)
Definition hold_fail1 (prm : pl_vulkan_hold_params) : bool * Z :=
  (negb (hold_out_layout prm =? 1)%nat, 77).

Definition import (wrap : pl_vulkan_wrap_params -> option pl_tex)
    (hold : pl_vulkan_hold_params -> bool * Z) : M Z :=
  mapper_map true fmt_table plane_size plane_size wrap wrap_tex_ok hold.

(** The world after a successful import of [frame2] by a two-plane
    session. *)
Definition mapped2 : world := (import wrap_ok hold_ok (world0 frame2 2)).2.

End ProtocolSamples.

Module ProtocolFailures.

Import Protocol.

(** The session as [mapper_map] leaves it at its [error:] label when the
    second of two planes could not be wrapped: the source image is set,
    plane 0 has its texture, and no native frame reference was recorded. *)
Definition half_mapped : world :=
  mkworld {[ 5%nat := ProtocolSamples.frame2 ]}
    (mkmapper (Some ProtocolSamples.src0) [Some 1011; None; None; None]
       (mkpriv (ProtocolSamples.layout0 2) None [Some 1011; None; None; None]
          [101; 102; 0; 0] [1; 2; 0; 0] [201; 202; 0; 0] [10; 20; 0; 0] 2))
    [].

End ProtocolFailures.

(** * Sample clocks *)

Module TimerSamples.

Import Timer TimerAdd.

(** A raw clock that advances by one second from one reading to the
    next. *)
Definition sample_clock (n : nat) : timespec :=
  mktimespec (100 + Z.of_nat n) 250.

(** A realtime clock that answers. *)
Definition sample_realtime (n : nat) : Z * timespec := (0, mktimespec 1700000000 5).

(** The timer core before [mp_time_init]. *)
Definition fresh_timer : timer_state := mktimer 0 false None 0 0.

(** [MPCLAMP] as a clamp:
    [((a) < (min)) ? (min) : (((a) > (max)) ? (max) : (a))]. *)
Definition clamp (a lo hi : double) : double :=
  if SFltb a lo then lo else if SFltb hi a then hi else a.

End TimerSamples.

(** * Properties of the device context builder *)

Section BuilderFacts.

Import Builder.

Lemma decode_members_lookup families i j q :
  (j, q) ∈ decode_members families i ->
  (i <= j)%nat /\ families !! (j - i)%nat = Some q /\ decode_capable q = true.
Proof.
  revert i. induction families as [|a rest IH]; intros i Hin; simpl in Hin.
  - by apply elem_of_nil in Hin.
  - destruct (decode_capable a) eqn:Ha.
    + apply elem_of_cons in Hin as [Heq | Hin].
      * inversion Heq; subst. replace (i - i)%nat with 0%nat by lia. auto with lia.
      * apply IH in Hin as (Hle & Hl & Hc).
        replace (j - i)%nat with (S (j - S i)) by lia. auto with lia.
    + apply IH in Hin as (Hle & Hl & Hc).
      replace (j - i)%nat with (S (j - S i)) by lia. auto with lia.
Qed.

Lemma decode_entries_members families i :
  decode_entries families (Z.of_nat i) = decode_entry <$> decode_members families i.
Proof.
  revert i. induction families as [|a rest IH]; intros i; simpl; [done|].
  replace (Z.of_nat i + 1) with (Z.of_nat (S i)) by lia.
  destruct (decode_capable a); simpl; by rewrite IH.
Qed.

Lemma scan_decode_index_members families i d :
  scan_decode_index families (Z.of_nat i) d =
  match last (decode_members families i) with
  | Some m => Z.of_nat m.1
  | None => d
  end.
Proof.
  revert i d. induction families as [|a rest IH]; intros i d; simpl; [done|].
  replace (Z.of_nat i + 1) with (Z.of_nat (S i)) by lia.
  rewrite IH. destruct (decode_capable a); [|done].
  rewrite last_cons. by destruct (last (decode_members rest (S i))).
Qed.

End BuilderFacts.

Section BuilderTheorems.

Import Builder.

Lemma decode_members_indices families l :
  decode_family_indices families = l ->
  Forall2 (fun j m => m.1 = j /\ families !! j = Some m.2) l (decode_members families 0).
Proof.
  unfold decode_family_indices. intros <-.
  apply Forall2_fmap_l, Forall_Forall2_diag, Forall_forall.
  intros [j q] Hin. simpl. split; [done|].
  apply decode_members_lookup in Hin as (_ & Hl & _).
  by replace (j - 0)%nat with j in Hl by lia.
Qed.

(** C5.  If the only decode-capable family of a device is family 2, the
    legacy build records decode index 2 (with that family's queue count).
    If the decode-capable families are 2 and 4, the legacy build records
    decode index 4, the last one of the ascending scan, and the multi-queue
    build records, after the graphics, transfer and compute entries, both
    family 2 and family 4, each with its own codec-operations bitmask. *)
Theorem decode_family_selection (vk1 vk2 : dmpvk_ctx) (q2 q2' q4 : VkQueueFamily) :
  decode_family_indices (phys_device vk1) = [2%nat] ->
  phys_device vk1 !! 2%nat = Some q2 ->
  decode_family_indices (phys_device vk2) = [2%nat; 4%nat] ->
  phys_device vk2 !! 2%nat = Some q2' ->
  phys_device vk2 !! 4%nat = Some q4 ->
  (exists q, assign_queue_families LegacyQueueAPI vk1 = LegacyQueues q /\
             queue_family_decode_index q = 2 /\
             nb_decode_queues q = queueCount q2) /\
  (exists q, assign_queue_families LegacyQueueAPI vk2 = LegacyQueues q /\
             queue_family_decode_index q = 4 /\
             nb_decode_queues q = queueCount q4) /\
  (exists base, length base = 3%nat /\
     assign_queue_families NewQueueAPI vk2 =
     MultiQueue (base ++
       [ mkdevqf 2 (queueCount q2') VK_QUEUE_VIDEO_DECODE_BIT_KHR
                 (videoCodecOperations q2');
         mkdevqf 4 (queueCount q4) VK_QUEUE_VIDEO_DECODE_BIT_KHR
                 (videoCodecOperations q4) ])).
Proof.
  intros H1 Hq2 H2 Hq2' Hq4.
  apply decode_members_indices in H1, H2.
  destruct (decode_members (phys_device vk1) 0) as [|[j a] [|? ?]] eqn:E1;
    try solve [inversion H1 as [|? ? ? ? ? Ht]; inversion Ht].
  destruct (decode_members (phys_device vk2) 0) as [|[j1 b] [|[j2 c] [|? ?]]] eqn:E2;
    try solve [inversion H2 as [|? ? ? ? ? Ht]; inversion Ht as [|? ? ? ? ? Ht'];
               inversion Ht'].
  apply Forall2_cons in H1 as [[Hj Ha] _]. simpl in Hj, Ha. subst j.
  apply Forall2_cons in H2 as [[Hj1 Hb] H2]. simpl in Hj1, Hb. subst j1.
  apply Forall2_cons in H2 as [[Hj2 Hc] _]. simpl in Hj2, Hc. subst j2.
  assert (a = q2) by congruence. assert (b = q2') by congruence.
  assert (c = q4) by congruence. subst a b c.
  split; [|split].
  - eexists. split; [reflexivity|]. simpl.
    change 0 with (Z.of_nat 0). rewrite scan_decode_index_members, E1. simpl.
    split; [done|]. rewrite Nat2Z.id. by rewrite Hq2.
  - eexists. split; [reflexivity|]. simpl.
    change 0 with (Z.of_nat 0). rewrite scan_decode_index_members, E2. simpl.
    split; [done|]. rewrite Nat2Z.id. by rewrite Hq4.
  - eexists. split; [|unfold assign_queue_families;
      change 0 with (Z.of_nat 0) at 4; rewrite decode_entries_members, E2; reflexivity].
    reflexivity.
Qed.

Lemma decode_family_selection_witness :
  let vk1 := BuilderSamples.vk_of BuilderSamples.families3 in
  let vk2 := BuilderSamples.vk_of BuilderSamples.families5 in
  (exists q, assign_queue_families LegacyQueueAPI vk1 = LegacyQueues q /\
             queue_family_decode_index q = 2 /\
             nb_decode_queues q = 4) /\
  (exists q, assign_queue_families LegacyQueueAPI vk2 = LegacyQueues q /\
             queue_family_decode_index q = 4 /\
             nb_decode_queues q = 2) /\
  (exists base, length base = 3%nat /\
     assign_queue_families NewQueueAPI vk2 =
     MultiQueue (base ++
       [ mkdevqf 2 4 VK_QUEUE_VIDEO_DECODE_BIT_KHR 5;
         mkdevqf 4 2 VK_QUEUE_VIDEO_DECODE_BIT_KHR 9 ])).
Proof.
  exact (decode_family_selection
           (BuilderSamples.vk_of BuilderSamples.families3)
           (BuilderSamples.vk_of BuilderSamples.families5)
           (mkfamily 32 4 5) (mkfamily 32 4 5) (mkfamily 32 2 9)
           eq_refl eq_refl eq_refl eq_refl eq_refl).
Defined.

Lemma decode_family_indices_nil families :
  decode_family_indices families = [] -> decode_members families 0 = [].
Proof. unfold decode_family_indices. by intros ?%fmap_nil_inv. Qed.

Lemma not_elem_of_free r st : r ∉ live (free r st).
Proof. simpl. rewrite list_elem_of_filter. tauto. Qed.

Lemma elem_of_free r r' st : r ∈ live (free r' st) <-> r <> r' /\ r ∈ live st.
Proof. simpl. by rewrite list_elem_of_filter. Qed.

Lemma length_zero_iff_nil {A} (l : list A) : (length l =? 0)%nat = true <-> l = [].
Proof. destruct l; simpl; split; intros; done. Qed.

(** C4, as stated, fails: a device with queue families none of which is
    decode-capable is built and registered when the backend's
    initialisation call accepts it. *)
Lemma no_decode_family_registered :
  let r := vulkan_init LegacyQueueAPI 99 true true BuilderSamples.init_accepts
             (BuilderSamples.hw_of BuilderSamples.families_nodecode)
             BuilderSamples.st0 in
  decode_family_indices BuilderSamples.families_nodecode = [] /\
  r.1 = 0 /\ length (devs r.2) = 1%nat.
Proof. vm_compute. auto. Qed.

(** C4, amended.  For a device that passed the renderer and extension
    checks and has no decode-capable queue family: if it reports no queue
    family at all the builder fails and registers nothing; otherwise the
    builder records no decode family (decode index -1 with no decode
    queues in the legacy build, only the graphics, transfer and compute
    entries in the multi-queue build) and registers the device exactly
    when the two allocations and the backend's initialisation call
    succeed, failing with nothing registered when they do not. *)
Theorem no_decode_family_outcome api fmt alloc_ok zero_ok init hw st vk g :
  ra_vk_ctx hw = Some vk ->
  ra_pl hw = Some g ->
  has_video_decode_queue (extensions vk) = true ->
  decode_family_indices (phys_device vk) = [] ->
  let r := vulkan_init api fmt alloc_ok zero_ok init hw st in
  let dev := build_device_hwctx api vk in
  (phys_device vk = [] -> r.1 = -1 /\ devs r.2 = devs st) /\
  match queues dev with
  | MultiQueue l => length l = 3%nat
  | LegacyQueues q => queue_family_decode_index q = -1 /\ nb_decode_queues q = 0
  end /\
  (phys_device vk <> [] ->
   if alloc_ok && zero_ok && (0 <=? init dev) then
     r.1 = 0 /\ devs r.2 = devs st ++ [mkhwctx (hw_driver_name hw) (Some dev) fmt]
   else r.1 = -1 /\ devs r.2 = devs st).
Proof.
  intros Hvk Hpl Hext Hnone r dev. subst r dev.
  apply decode_family_indices_nil in Hnone.
  unfold vulkan_init. rewrite Hvk, Hpl, Hext. simpl negb. cbv iota.
  split; [|split].
  - intros ->. done.
  - unfold build_device_hwctx, assign_queue_families. simpl.
    destruct api.
    + change 0 with (Z.of_nat 0) at 4. rewrite decode_entries_members, Hnone. done.
    + change 0 with (Z.of_nat 0). rewrite scan_decode_index_members, Hnone. done.
  - intros Hne.
    destruct (length (phys_device vk) =? 0)%nat eqn:Hlen.
    { by apply length_zero_iff_nil in Hlen. }
    destruct alloc_ok, zero_ok; simpl; try done.
    rewrite Z.ltb_antisym. by destruct (0 <=? _).
Qed.

Lemma no_decode_family_outcome_witness :
  let r := vulkan_init NewQueueAPI 99 true true BuilderSamples.init_accepts
             (BuilderSamples.hw_of BuilderSamples.families_nodecode)
             BuilderSamples.st0 in
  r.1 = 0 /\ length (devs r.2) = 1%nat.
Proof.
  pose proof (no_decode_family_outcome NewQueueAPI 99 true true
                BuilderSamples.init_accepts
                (BuilderSamples.hw_of BuilderSamples.families_nodecode)
                BuilderSamples.st0
                (BuilderSamples.vk_of BuilderSamples.families_nodecode) 1
                eq_refl eq_refl eq_refl eq_refl) as (_ & _ & H).
  destruct (H ltac:(discriminate)) as [H1 H2].
  split; [exact H1|]. rewrite H2. reflexivity.
Defined.

(** C8, as stated, fails: after a rejected backend initialisation the
    queue lock context is still allocated, still referenced by
    [p->lock_ctx], and its mutex has not been destroyed. *)
Lemma guard_survives_failed_init :
  let r := vulkan_init NewQueueAPI 99 true true BuilderSamples.init_rejects
             (BuilderSamples.hw_of BuilderSamples.families3)
             BuilderSamples.st0 in
  r.1 = -1 /\ live r.2 = [ResMutex; ResLockCtx] /\ p_lock_ctx r.2 <> None.
Proof. vm_compute. repeat split; try reflexivity. intros ?; discriminate. Qed.

(** C8, amended.  If the backend's device initialisation call fails, the
    builder fails, registers no device and releases the two queue-family
    descriptor arrays and the decode device handle.  The queue lock
    context stays allocated, with its mutex initialised and [p->lock_ctx]
    pointing to it; it is [vulkan_uninit] that destroys the mutex, frees
    the context and clears the pointer. *)
Theorem failed_backend_init_cleanup api fmt init hw st vk g :
  ra_vk_ctx hw = Some vk ->
  ra_pl hw = Some g ->
  has_video_decode_queue (extensions vk) = true ->
  phys_device vk <> [] ->
  init (build_device_hwctx api vk) < 0 ->
  let r := vulkan_init api fmt true true init hw st in
  let st' := vulkan_uninit r.2 in
  r.1 = -1 /\ devs r.2 = devs st /\
  (ResQf ∉ live r.2) /\ (ResQfVid ∉ live r.2) /\ (ResDeviceCtx ∉ live r.2) /\
  (ResLockCtx ∈ live r.2) /\ (ResMutex ∈ live r.2) /\ p_lock_ctx r.2 = Some vk /\
  (ResLockCtx ∉ live st') /\ (ResMutex ∉ live st') /\ p_lock_ctx st' = None.
Proof.
  intros Hvk Hpl Hext Hne Hinit r st'. subst st' r.
  unfold vulkan_init. rewrite Hvk, Hpl, Hext. simpl negb. cbv iota.
  destruct (length (phys_device vk) =? 0)%nat eqn:Hlen.
  { by apply length_zero_iff_nil in Hlen. }
  apply Z.ltb_lt in Hinit. rewrite Hinit.
  unfold init_error, vulkan_uninit. cbn [fst snd].
  repeat split; try done.
  - rewrite !elem_of_free. tauto.
  - rewrite !elem_of_free. tauto.
  - apply not_elem_of_free.
  - rewrite !elem_of_free. simpl. rewrite !elem_of_cons. intuition congruence.
  - rewrite !elem_of_free. simpl. rewrite !elem_of_cons. intuition congruence.
  - simpl. rewrite !list_elem_of_filter. tauto.
  - simpl. rewrite !list_elem_of_filter. tauto.
Qed.

Lemma failed_backend_init_cleanup_witness :
  let r := vulkan_init LegacyQueueAPI 99 true true BuilderSamples.init_rejects
             (BuilderSamples.hw_of BuilderSamples.families3)
             BuilderSamples.st0 in
  r.1 = -1 /\ p_lock_ctx r.2 = Some (BuilderSamples.vk_of BuilderSamples.families3) /\
  p_lock_ctx (vulkan_uninit r.2) = None.
Proof.
  pose proof (failed_backend_init_cleanup LegacyQueueAPI 99
                BuilderSamples.init_rejects
                (BuilderSamples.hw_of BuilderSamples.families3)
                BuilderSamples.st0
                (BuilderSamples.vk_of BuilderSamples.families3) 1
                eq_refl eq_refl eq_refl ltac:(discriminate) eq_refl)
    as (H1 & _ & _ & _ & _ & _ & _ & H2 & _ & _ & H3).
  exact (conj H1 (conj H2 H3)).
Defined.

End BuilderTheorems.
(** * Properties of the import/export protocol *)

(** ** Invariants of the driver functions *)

Section Leads.

Import Protocol.
Local Open Scope prog_scope.

Lemma leads_bind {A B} (I J K : world -> Prop) (m : M A) (k : A -> M B) :
  leads I J m -> (forall a, leads J K (k a)) -> (forall wd, J wd -> K wd) ->
  leads I K (bind m k).
Proof.
  intros Hm Hk HJK wd HI. unfold bind.
  specialize (Hm wd HI). destruct (m wd) as [[a|f] wd']; simpl in *.
  - by apply Hk.
  - by apply HJK.
Qed.

Lemma leads_weaken {A} (I I' J J' : world -> Prop) (m : M A) :
  leads I J m -> (forall wd, I' wd -> I wd) -> (forall wd, J wd -> J' wd) ->
  leads I' J' m.
Proof. intros Hm HI HJ wd H. apply HJ, Hm, HI, H. Qed.

End Leads.

Section Invariants.

Import Protocol.
Local Open Scope prog_scope.

(** An invariant [I] of the world, the events that keep it ([allowed]) and
    the updates of the private data that keep it ([good]). *)
Variable I : world -> Prop.
Variable allowed : event -> Prop.
Variable good : (vulkan_mapper_priv -> vulkan_mapper_priv) -> Prop.

Hypothesis I_emit : forall e wd,
  allowed e -> I wd -> I (mkworld (frames wd) (mapper wd) (trace wd ++ [e])).
Hypothesis I_priv : forall g wd,
  good g -> I wd ->
  I (mkworld (frames wd)
       (mkmapper (m_src (mapper wd)) (m_tex (mapper wd)) (g (m_priv (mapper wd))))
       (trace wd)).
Hypothesis I_m_tex : forall l wd,
  I wd ->
  I (mkworld (frames wd) (mkmapper (m_src (mapper wd)) l (m_priv (mapper wd)))
       (trace wd)).
Hypothesis I_store : forall a fld i v f l wd,
  allowed (EvFrameStore a fld i v) -> frames wd !! a = Some f -> I wd ->
  I (mkworld (<[a := field_set fld l f]> (frames wd)) (mapper wd)
       (trace wd ++ [EvFrameStore a fld i v])).

Variable pl_vulkan_get : bool.
Variable av_vkfmt_from_pixfmt : Z -> option (list Z).
Variable mp_image_plane_w : Z -> Z -> nat -> Z.
Variable mp_image_plane_h : Z -> Z -> nat -> Z.
Variable pl_vulkan_wrap : pl_vulkan_wrap_params -> option pl_tex.
Variable mppl_wrap_tex : pl_tex -> bool.
Variable pl_vulkan_hold_ex : pl_vulkan_hold_params -> bool * Z.

Definition stable {A} (m : M A) : Prop := leads I I m.

Lemma stable_ret {A} (a : A) : stable (ret a).
Proof. by intros wd H. Qed.

Lemma stable_raise {A} (f : fault) : stable (@raise A f).
Proof. by intros wd H. Qed.

Lemma stable_lift {A} (r : res A) : stable (lift r).
Proof. by intros wd H. Qed.

Lemma stable_get_mapper : stable get_mapper.
Proof. by intros wd H. Qed.

Lemma stable_get_priv : stable get_priv.
Proof. by intros wd H. Qed.

Lemma stable_bind {A B} (m : M A) (k : A -> M B) :
  stable m -> (forall a, stable (k a)) -> stable (bind m k).
Proof. intros Hm Hk. by apply leads_bind with (J := I). Qed.

Lemma stable_emit e : allowed e -> stable (emit e).
Proof. intros He wd H. by apply I_emit. Qed.

Lemma stable_update_priv g : good g -> stable (update_priv g).
Proof. intros Hg wd H. by apply I_priv. Qed.

Lemma stable_update_m_tex l : stable (update_m_tex l).
Proof. intros wd H. by apply I_m_tex. Qed.

Lemma stable_load vkf fld i : stable (load vkf fld i).
Proof.
  intros wd H. unfold load.
  destruct vkf as [a|]; [|done]. by destruct (frames wd !! a).
Qed.

Lemma stable_store vkf fld i v :
  (forall a, vkf = Some a -> allowed (EvFrameStore a fld i v)) ->
  stable (store vkf fld i v).
Proof.
  intros Ha wd H. unfold store.
  destruct vkf as [a|]; [|done].
  destruct (frames wd !! a) as [f|] eqn:Hf; [|done].
  destruct (write_idx (field_get fld f) i v); [|done].
  simpl. eapply I_store; eauto.
Qed.

Lemma stable_for_each {St} idxs (body : nat -> St -> M St) s :
  (forall i s', stable (body i s')) -> stable (for_each idxs body s).
Proof.
  intros Hb. revert s. induction idxs as [|i rest IH]; intros s; simpl.
  - apply stable_ret.
  - apply stable_bind; [apply Hb | apply IH].
Qed.

Lemma stable_while_tex {St} texs i (body : nat -> pl_tex -> St -> M St) s :
  (forall j t s', stable (body j t s')) -> stable (while_tex texs i body s).
Proof.
  intros Hb. revert i s. induction texs as [|[t|] rest IH]; intros i s; simpl.
  - apply stable_raise.
  - apply stable_bind; [apply Hb | intros; apply IH].
  - apply stable_ret.
Qed.

Ltac stable_step :=
  first
    [ apply stable_ret | apply stable_raise | apply stable_lift
    | apply stable_get_mapper | apply stable_get_priv
    | apply stable_load | apply stable_update_m_tex
    | apply stable_bind; [|intros ?]
    | apply stable_for_each; intros ? ?
    | apply stable_while_tex; intros ? ? ?
    | apply stable_emit | apply stable_update_priv | apply stable_store
    | match goal with
      | |- stable (match ?x with _ => _ end) => destruct x
      end ].

Ltac stable_tac := repeat stable_step.

Lemma stable_mark_touched np ni texs : stable (mark_touched np ni texs).
Proof. unfold mark_touched. stable_tac. Qed.

Lemma stable_reserve vkf ni wp :
  (forall a i v, vkf = Some a -> allowed (EvFrameStore a FSemValue i v)) ->
  stable (reserve vkf ni wp).
Proof. intros Ha. unfold reserve. stable_tac. eauto. Qed.

Lemma stable_hold_planes np ni texs rsv :
  (forall prm, allowed (EvHold prm)) -> (forall l, good (set_p_tex l)) ->
  stable (hold_planes pl_vulkan_hold_ex np ni texs rsv).
Proof. intros Ha Hg. unfold hold_planes. stable_tac; eauto. Qed.

Lemma stable_commit vkf ni wp st rsv :
  (forall a fld i v, vkf = Some a -> allowed (EvFrameStore a fld i v)) ->
  stable (commit vkf ni wp st rsv).
Proof. intros Ha. unfold commit. stable_tac; eauto. Qed.

Lemma stable_ra_tex_free i :
  (forall t, allowed (EvRaTexFree t)) -> stable (ra_tex_free i).
Proof. intros Ha. unfold ra_tex_free. stable_tac; eauto. Qed.

Lemma stable_unmap_end :
  (forall t, allowed (EvRaTexFree t)) -> good (set_p_vkf None) ->
  stable unmap_end.
Proof.
  intros Ha Hg. unfold unmap_end. stable_tac; eauto.
Qed.

Lemma stable_count_images vkf idxs n : stable (count_images vkf idxs n).
Proof.
  revert n. induction idxs as [|i rest IH]; intros n; simpl; stable_tac.
  apply IH.
Qed.

Lemma stable_snapshot vkf ni :
  (forall l, good (set_p_img l)) -> (forall l, good (set_p_img_layout l)) ->
  (forall l, good (set_p_sem l)) -> (forall l, good (set_p_sem_value l)) ->
  stable (snapshot vkf ni).
Proof. intros. unfold snapshot. stable_tac; eauto. Qed.

Lemma stable_map_planes hwfc tbl ni idxs :
  (forall e, is_store e = false -> is_hold e = false -> allowed e) ->
  (forall l, good (set_p_tex l)) ->
  stable (map_planes mp_image_plane_w mp_image_plane_h pl_vulkan_wrap
            mppl_wrap_tex hwfc tbl ni idxs).
Proof.
  intros Ha Hg. induction idxs as [|i rest IH]; simpl; stable_tac; eauto.
Qed.

Lemma stable_mapper_unmap :
  (forall e, is_wrap e = false -> allowed e) ->
  (forall l, good (set_p_tex l)) -> good (set_p_vkf None) ->
  stable (mapper_unmap pl_vulkan_hold_ex).
Proof.
  intros Ha Hg Hv. unfold mapper_unmap.
  apply stable_bind; [apply stable_get_mapper|]. intros m.
  destruct (m_src m); stable_tac; auto.
Qed.

End Invariants.

Ltac stable_using He Hp Hm Hs :=
  repeat first
    [ apply stable_ret | apply stable_raise | apply stable_lift
    | apply stable_get_mapper | apply stable_get_priv
    | apply stable_load | apply (stable_update_m_tex _ Hm)
    | apply stable_bind; [|intros ?]
    | apply stable_for_each; intros ? ?
    | apply stable_while_tex; intros ? ? ?
    | apply (stable_emit _ _ He) | apply (stable_update_priv _ _ Hp)
    | apply (stable_store _ _ Hs)
    | match goal with
      | |- stable _ (match ?x with _ => _ end) => destruct x
      end ].

(** ** Import leaves the native frames alone *)

Section Quiet.

Import Protocol.
Local Open Scope prog_scope.

Variable pl_vulkan_get : bool.
Variable av_vkfmt_from_pixfmt : Z -> option (list Z).
Variable mp_image_plane_w : Z -> Z -> nat -> Z.
Variable mp_image_plane_h : Z -> Z -> nat -> Z.
Variable pl_vulkan_wrap : pl_vulkan_wrap_params -> option pl_tex.
Variable mppl_wrap_tex : pl_tex -> bool.
Variable pl_vulkan_hold_ex : pl_vulkan_hold_params -> bool * Z.

Variable w0 : world.

(** Since [w0]: the native frames are as they were and no store into a
    native frame has been made. *)
Definition quiet (wd : world) : Prop :=
  frames wd = frames w0 /\
  exists evs, trace wd = trace w0 ++ evs /\ Forall (fun e => is_store e = false) evs.

(** ... and the session holds no native frame. *)
Definition quiet_unmapped (wd : world) : Prop :=
  quiet wd /\ p_vkf (m_priv (mapper wd)) = None.

Definition no_store (e : event) : Prop := is_store e = false.

Definition keeps_unmapped (g : vulkan_mapper_priv -> vulkan_mapper_priv) : Prop :=
  forall p, p_vkf p = None -> p_vkf (g p) = None.

Lemma quiet_emit e wd :
  no_store e -> quiet wd -> quiet (mkworld (frames wd) (mapper wd) (trace wd ++ [e])).
Proof.
  intros He [Hf (evs & Ht & Hs)]. split; [done|].
  exists (evs ++ [e]). simpl. rewrite Ht, <- app_assoc. split; [done|].
  apply Forall_app. split; [done|]. by constructor.
Qed.

Lemma quiet_unmapped_emit e wd :
  no_store e -> quiet_unmapped wd ->
  quiet_unmapped (mkworld (frames wd) (mapper wd) (trace wd ++ [e])).
Proof. intros He [Hq Hv]. split; [by apply quiet_emit|done]. Qed.

Lemma quiet_unmapped_priv g wd :
  keeps_unmapped g -> quiet_unmapped wd ->
  quiet_unmapped
    (mkworld (frames wd)
       (mkmapper (m_src (mapper wd)) (m_tex (mapper wd)) (g (m_priv (mapper wd))))
       (trace wd)).
Proof. intros Hg [Hq Hv]. split; [done|]. simpl. by apply Hg. Qed.

Lemma quiet_unmapped_m_tex l wd :
  quiet_unmapped wd ->
  quiet_unmapped
    (mkworld (frames wd) (mkmapper (m_src (mapper wd)) l (m_priv (mapper wd)))
       (trace wd)).
Proof. by intros [Hq Hv]. Qed.

Lemma quiet_unmapped_store a fld i v f l wd :
  no_store (EvFrameStore a fld i v) -> frames wd !! a = Some f ->
  quiet_unmapped wd ->
  quiet_unmapped
    (mkworld (<[a := field_set fld l f]> (frames wd)) (mapper wd)
       (trace wd ++ [EvFrameStore a fld i v])).
Proof. intros He. discriminate He. Qed.

Ltac quiet_tac :=
  stable_using quiet_unmapped_emit quiet_unmapped_priv quiet_unmapped_m_tex
               quiet_unmapped_store;
  try done.

(** Export on a session that holds no native frame stores nothing. *)
Lemma mapper_unmap_quiet :
  stable quiet_unmapped (mapper_unmap pl_vulkan_hold_ex).
Proof.
  intros wd [Hq Hv]. unfold mapper_unmap.
  change (bind get_mapper ?k wd) with (k (mapper wd) wd). cbv beta.
  rewrite Hv.
  revert wd Hq Hv.
  assert (forall m : ra_hwdec_mapper, stable quiet_unmapped
    match m_src m with
    | Some _ =>
        let! will_process := mark_touched (num_planes (p_layout (m_priv m)))
                               (p_num_images (m_priv m)) (p_tex (m_priv m)) in
        emit (EvLockFrame None) ;;;
        let! reserved_sem_value := reserve None (p_num_images (m_priv m)) will_process in
        emit (EvUnlockFrame None) ;;;
        let! st := hold_planes pl_vulkan_hold_ex (num_planes (p_layout (m_priv m)))
                     (p_num_images (m_priv m)) (p_tex (m_priv m)) reserved_sem_value in
        emit (EvLockFrame None) ;;;
        commit None (p_num_images (m_priv m)) will_process st reserved_sem_value ;;;
        emit (EvUnlockFrame None) ;;;
        unmap_end
    | None => unmap_end
    end) as H.
  { intros m. quiet_tac. }
  intros wd Hq Hv. apply (H (mapper wd) wd). by split.
Qed.

Lemma mapper_map_quiet :
  leads quiet_unmapped quiet
    (mapper_map pl_vulkan_get av_vkfmt_from_pixfmt mp_image_plane_w
       mp_image_plane_h pl_vulkan_wrap mppl_wrap_tex pl_vulkan_hold_ex).
Proof.
  unfold mapper_map. destruct pl_vulkan_get; simpl negb; cbv iota;
    [|by intros wd [? ?]].
  eapply leads_bind with (J := quiet_unmapped);
    [quiet_tac| |by intros wd [? ?]].
  intros m. destruct (m_src m) as [srcimg|]; [|by intros wd [? ?]].
  repeat (eapply leads_bind with (J := quiet_unmapped);
          [solve [quiet_tac]| intros ? |by intros wd [? ?]]).
  eapply leads_bind with (J := quiet_unmapped);
    [|intros finished|by intros wd [? ?]].
  - apply stable_map_planes with (allowed := no_store) (good := keeps_unmapped);
      auto using quiet_unmapped_emit, quiet_unmapped_priv, quiet_unmapped_m_tex,
                 quiet_unmapped_store.
    by intros l p Hp.
  - destruct finished.
    + intros wd [[Hf (evs & Ht & Hs)] Hv]. split; [done|]. by exists evs.
    + eapply leads_bind with (J := quiet_unmapped);
        [apply mapper_unmap_quiet|by intros ? wd [? ?]|by intros wd [? ?]].
Qed.

End Quiet.

(** ** The release calls of Export *)

Section Holds.

Import Protocol.
Local Open Scope prog_scope.

Variable pl_vulkan_hold_ex : pl_vulkan_hold_params -> bool * Z.

Variable w0 : world.
Variable orig : list (option pl_tex).
Variable np ni : nat.

(** A release call made for a plane of [orig] that has a texture, on the
    image the plane-to-image rule gives for that plane. *)
Definition hold_for_plane (prm : pl_vulkan_hold_params) : Prop :=
  exists i t, orig !! i = Some (Some t) /\ hold_tex prm = t /\
              hold_out_layout prm = plane_image_index np ni i.

(** Since [w0], no release call was made. *)
Definition no_hold_yet (wd : world) : Prop :=
  exists evs, trace wd = trace w0 ++ evs /\ hold_calls evs = [].

(** Since [w0], no image was released twice, and every release was made
    for a plane of [orig]. *)
Definition held_once (wd : world) : Prop :=
  exists evs, trace wd = trace w0 ++ evs /\ NoDup (hold_slots evs) /\
              Forall hold_for_plane (hold_calls evs).

(** The invariant of the release loop: moreover [processed] records the
    images released so far. *)
Definition held_once_upto (processed : list bool) (wd : world) : Prop :=
  exists evs, trace wd = trace w0 ++ evs /\ NoDup (hold_slots evs) /\
              Forall hold_for_plane (hold_calls evs) /\
              forall j, j ∈ hold_slots evs -> processed !! j = Some true.

Definition not_hold (e : event) : Prop := is_hold e = false.

Definition any_update (g : vulkan_mapper_priv -> vulkan_mapper_priv) : Prop := True.

Lemma hold_calls_app evs evs' :
  hold_calls (evs ++ evs') = hold_calls evs ++ hold_calls evs'.
Proof. unfold hold_calls. apply omap_app. Qed.

Lemma hold_calls_not_hold e : not_hold e -> hold_calls [e] = [].
Proof. by destruct e. Qed.

Lemma hold_slots_app evs evs' :
  hold_slots (evs ++ evs') = hold_slots evs ++ hold_slots evs'.
Proof. unfold hold_slots. by rewrite hold_calls_app, fmap_app. Qed.

Lemma hold_slots_not_hold e : not_hold e -> hold_slots [e] = [].
Proof. intros H. unfold hold_slots. by rewrite hold_calls_not_hold. Qed.

Lemma no_hold_yet_held_once wd : no_hold_yet wd -> held_once wd.
Proof.
  intros (evs & Ht & Hn). exists evs. unfold hold_slots. rewrite Hn.
  repeat split; [done|constructor|constructor].
Qed.

Lemma held_once_upto_held_once pr wd : held_once_upto pr wd -> held_once wd.
Proof. intros (evs & Ht & Hn & Hf & _). by exists evs. Qed.

Lemma no_hold_yet_emit e wd :
  not_hold e -> no_hold_yet wd ->
  no_hold_yet (mkworld (frames wd) (mapper wd) (trace wd ++ [e])).
Proof.
  intros He (evs & Ht & Hn). exists (evs ++ [e]). simpl.
  rewrite Ht, <- app_assoc, hold_calls_app, Hn, hold_calls_not_hold; done.
Qed.

Lemma held_once_emit e wd :
  not_hold e -> held_once wd ->
  held_once (mkworld (frames wd) (mapper wd) (trace wd ++ [e])).
Proof.
  intros He (evs & Ht & Hn & Hf). exists (evs ++ [e]). simpl.
  rewrite Ht, <- app_assoc, hold_slots_app, hold_calls_app,
    hold_slots_not_hold, hold_calls_not_hold, !app_nil_r; done.
Qed.

Lemma held_once_upto_emit pr e wd :
  not_hold e -> held_once_upto pr wd ->
  held_once_upto pr (mkworld (frames wd) (mapper wd) (trace wd ++ [e])).
Proof.
  intros He (evs & Ht & Hn & Hf & Hp). exists (evs ++ [e]). simpl.
  rewrite Ht, <- app_assoc, hold_slots_app, hold_calls_app,
    hold_slots_not_hold, hold_calls_not_hold, !app_nil_r; done.
Qed.

(** One iteration of the release loop, lines 360-381. *)
Definition hold_body (reserved_sem_value : list Z) (i : nat) (t : pl_tex)
    (st : hold_locals) : M hold_locals :=
  let index := plane_image_index np ni i in
  let! seen := lift (read_idx (processed st) index) in
  let! st' :=
    (if (seen : bool) then ret st
     else
       let! p := get_priv in
       let! s := lift (read_idx (p_sem p) index) in
       let! v := lift (read_idx reserved_sem_value index) in
       let prm := mkhold t index VK_QUEUE_FAMILY_IGNORED s v in
       emit (EvHold prm) ;;;
       let! nl := lift (write_idx (new_layout st) index (snd (pl_vulkan_hold_ex prm))) in
       let! ok' := lift (write_idx (ok st) index (fst (pl_vulkan_hold_ex prm))) in
       let! pr := lift (write_idx (processed st) index true) in
       ret (mklocals ok' nl pr)) in
  let! p := get_priv in
  let! l := lift (write_idx (p_tex p) i None) in
  update_priv (set_p_tex l) ;;;
  ret st'.

Lemma hold_planes_unfold texs rsv :
  hold_planes pl_vulkan_hold_ex np ni texs rsv =
  while_tex texs 0 (hold_body rsv)
    (mklocals (replicate 4 false) (replicate 4 0) (replicate 4 false)).
Proof. reflexivity. Qed.

Lemma write_idx_ok {A} (l l' : list A) i x :
  write_idx l i x = Ok l' -> (i < length l)%nat /\ l' = <[i := x]> l.
Proof.
  unfold write_idx. case_bool_decide; intros Heq; by simplify_eq.
Qed.

Lemma hold_body_step rsv i t st wd :
  orig !! i = Some (Some t) ->
  held_once_upto (processed st) wd ->
  match hold_body rsv i t st wd with
  | (Ok st', wd') => held_once_upto (processed st') wd'
  | (Fault _, wd') => held_once wd'
  end.
Proof.
  intros Hi HK. unfold hold_body, bind, lift, get_priv, update_priv, ret, emit.
  destruct (read_idx (processed st) (plane_image_index np ni i)) as [seen|] eqn:Hseen;
    [|by eapply held_once_upto_held_once].
  destruct seen.
  - destruct (write_idx (p_tex (m_priv (mapper wd))) i None);
      [|by eapply held_once_upto_held_once].
    destruct HK as (evs & Ht & Hn & Hf & Hp). by exists evs.
  - destruct (read_idx (p_sem (m_priv (mapper wd))) _) as [s|];
      [|by eapply held_once_upto_held_once].
    destruct (read_idx rsv _) as [v|]; [|by eapply held_once_upto_held_once].
    simpl.
    set (prm := mkhold t (plane_image_index np ni i) VK_QUEUE_FAMILY_IGNORED s v).
    assert (held_once_upto (<[plane_image_index np ni i := true]> (processed st))
              (mkworld (frames wd) (mapper wd) (trace wd ++ [EvHold prm]))) as HK'.
    { destruct HK as (evs & Ht & Hn & Hf & Hp).
      unfold read_idx in Hseen.
      destruct (processed st !! plane_image_index np ni i) as [b|] eqn:Hl;
        [|done]. simplify_eq.
      exists (evs ++ [EvHold prm]). simpl.
      rewrite Ht, <- app_assoc, hold_slots_app, hold_calls_app.
      split; [done|]. split; [|split].
      - apply NoDup_app. split; [done|]. split; [|apply NoDup_singleton].
        intros j Hj Hj'. apply list_elem_of_singleton in Hj'. subst j.
        apply Hp in Hj. subst prm. simpl in Hj. congruence.
      - apply Forall_app. split; [done|]. constructor; [|constructor].
        by exists i, t.
      - intros j [Hj|Hj]%elem_of_app.
        + destruct (decide (j = plane_image_index np ni i)) as [->|Hne].
          * apply list_lookup_insert_eq. by eapply lookup_lt_Some.
          * rewrite list_lookup_insert_ne by done. by apply Hp.
        + apply list_elem_of_singleton in Hj. subst j prm. simpl.
          apply list_lookup_insert_eq. by eapply lookup_lt_Some. }
    destruct (write_idx (new_layout st) _ _) as [nl|];
      [|by eapply held_once_upto_held_once].
    destruct (write_idx (ok st) _ _) as [ok'|];
      [|by eapply held_once_upto_held_once].
    destruct (write_idx (processed st) _ _) as [pr|] eqn:Hpr;
      [|by eapply held_once_upto_held_once].
    apply write_idx_ok in Hpr as [_ ->]. simpl.
    destruct (write_idx (p_tex (m_priv (mapper wd))) i None); simpl.
    + destruct HK' as (evs & Ht & Hn & Hf & Hp). by exists evs.
    + by eapply held_once_upto_held_once.
Qed.

Lemma hold_loop_held_once rsv texs i st wd :
  (forall j t, texs !! j = Some (Some t) -> orig !! (i + j)%nat = Some (Some t)) ->
  held_once_upto (processed st) wd ->
  held_once (while_tex texs i (hold_body rsv) st wd).2.
Proof.
  revert i st wd. induction texs as [|[t|] rest IH]; intros i st wd Hsub HK; simpl.
  - by eapply held_once_upto_held_once.
  - unfold bind.
    pose proof (hold_body_step rsv i t st wd) as Hstep.
    destruct (hold_body rsv i t st wd) as [[st'|f] wd'].
    + apply IH.
      * intros j t' Hj. replace (S i + j)%nat with (i + S j)%nat by lia.
        by apply Hsub.
      * apply Hstep; [|done]. specialize (Hsub 0%nat t eq_refl).
        by replace (i + 0)%nat with i in Hsub by lia.
    + apply Hstep; [|done]. specialize (Hsub 0%nat t eq_refl).
      by replace (i + 0)%nat with i in Hsub by lia.
  - by eapply held_once_upto_held_once.
Qed.

Lemma no_hold_yet_priv g wd :
  any_update g -> no_hold_yet wd ->
  no_hold_yet
    (mkworld (frames wd)
       (mkmapper (m_src (mapper wd)) (m_tex (mapper wd)) (g (m_priv (mapper wd))))
       (trace wd)).
Proof. by intros _ H. Qed.

Lemma no_hold_yet_m_tex l wd :
  no_hold_yet wd ->
  no_hold_yet
    (mkworld (frames wd) (mkmapper (m_src (mapper wd)) l (m_priv (mapper wd)))
       (trace wd)).
Proof. by intros H. Qed.

Lemma no_hold_yet_store a fld i v f l wd :
  not_hold (EvFrameStore a fld i v) -> frames wd !! a = Some f ->
  no_hold_yet wd ->
  no_hold_yet
    (mkworld (<[a := field_set fld l f]> (frames wd)) (mapper wd)
       (trace wd ++ [EvFrameStore a fld i v])).
Proof.
  intros He _ H.
  apply (no_hold_yet_emit (EvFrameStore a fld i v)
           (mkworld (<[a := field_set fld l f]> (frames wd)) (mapper wd) (trace wd)));
    done.
Qed.

Lemma held_once_priv g wd :
  any_update g -> held_once wd ->
  held_once
    (mkworld (frames wd)
       (mkmapper (m_src (mapper wd)) (m_tex (mapper wd)) (g (m_priv (mapper wd))))
       (trace wd)).
Proof. by intros _ H. Qed.

Lemma held_once_m_tex l wd :
  held_once wd ->
  held_once
    (mkworld (frames wd) (mkmapper (m_src (mapper wd)) l (m_priv (mapper wd)))
       (trace wd)).
Proof. by intros H. Qed.

Lemma held_once_store a fld i v f l wd :
  not_hold (EvFrameStore a fld i v) -> frames wd !! a = Some f ->
  held_once wd ->
  held_once
    (mkworld (<[a := field_set fld l f]> (frames wd)) (mapper wd)
       (trace wd ++ [EvFrameStore a fld i v])).
Proof.
  intros He _ H.
  apply (held_once_emit (EvFrameStore a fld i v)
           (mkworld (<[a := field_set fld l f]> (frames wd)) (mapper wd) (trace wd)));
    done.
Qed.

Ltac no_hold_tac :=
  stable_using no_hold_yet_emit no_hold_yet_priv no_hold_yet_m_tex
               no_hold_yet_store;
  try done.

Ltac held_once_tac :=
  stable_using held_once_emit held_once_priv held_once_m_tex held_once_store;
  try done.

Lemma hold_planes_held_once rsv :
  leads no_hold_yet held_once (hold_planes pl_vulkan_hold_ex np ni orig rsv).
Proof.
  intros wd (evs & Ht & Hn). rewrite hold_planes_unfold.
  apply hold_loop_held_once; [done|].
  exists evs. unfold hold_slots. rewrite Hn.
  repeat split; [done|constructor|constructor|].
  intros j Hj. by apply elem_of_nil in Hj.
Qed.

(** [mapper_unmap] after [mapper->src] was found set, for a session whose
    fields were read as [vkf], [ni], [np] and [orig]. *)
Lemma unmap_sync_held_once vkf :
  leads no_hold_yet held_once
    (let! will_process := mark_touched np ni orig in
     emit (EvLockFrame vkf) ;;;
     let! reserved_sem_value := reserve vkf ni will_process in
     emit (EvUnlockFrame vkf) ;;;
     let! st := hold_planes pl_vulkan_hold_ex np ni orig reserved_sem_value in
     emit (EvLockFrame vkf) ;;;
     commit vkf ni will_process st reserved_sem_value ;;;
     emit (EvUnlockFrame vkf) ;;;
     unmap_end).
Proof.
  repeat (eapply leads_bind with (J := no_hold_yet);
          [solve [no_hold_tac]| intros ? |apply no_hold_yet_held_once]).
  eapply leads_bind with (J := held_once);
    [apply hold_planes_held_once|intros st|done].
  held_once_tac.
Qed.

Lemma unmap_end_held_once : leads no_hold_yet held_once unmap_end.
Proof.
  eapply leads_weaken with (I := no_hold_yet) (J := no_hold_yet);
    [|done|apply no_hold_yet_held_once].
  no_hold_tac.
Qed.

End Holds.

Section HoldsOfUnmap.

Import Protocol.
Local Open Scope prog_scope.

Variable pl_vulkan_hold_ex : pl_vulkan_hold_params -> bool * Z.

(** What Export releases, whatever the session: no image twice, and
    only images that the plane-to-image rule gives for a plane of the
    session that has a texture. *)
Lemma mapper_unmap_held_once (wd : world) :
  let p := m_priv (mapper wd) in
  held_once wd (p_tex p) (num_planes (p_layout p)) (p_num_images p)
    (mapper_unmap pl_vulkan_hold_ex wd).2.
Proof.
  intros p. unfold mapper_unmap.
  change (bind get_mapper ?k wd) with (k (mapper wd) wd). cbv beta.
  assert (no_hold_yet wd wd) as H0.
  { exists []. by rewrite app_nil_r. }
  destruct (m_src (mapper wd)).
  - by apply unmap_sync_held_once.
  - by apply unmap_end_held_once.
Qed.

End HoldsOfUnmap.

(** ** Export on a mapped session *)

Section UnmapEnd.

Import Protocol.
Local Open Scope prog_scope.

Lemma read_idx_lookup {A} (l : list A) i x : l !! i = Some x -> read_idx l i = Ok x.
Proof. unfold read_idx. by intros ->. Qed.

Lemma write_idx_lt {A} (l : list A) i x :
  (i < length l)%nat -> write_idx l i x = Ok (<[i := x]> l).
Proof. unfold write_idx. intros H. by rewrite bool_decide_eq_true_2. Qed.

Lemma ra_tex_free_run i wd t :
  m_tex (mapper wd) !! i = Some t ->
  ra_tex_free i wd =
  (Ok tt, mkworld (frames wd)
            (mkmapper (m_src (mapper wd)) (<[i := None]> (m_tex (mapper wd)))
                      (m_priv (mapper wd)))
            (trace wd ++ match t with Some r => [EvRaTexFree r] | None => [] end)).
Proof.
  intros Ht. unfold ra_tex_free, bind, get_mapper, lift, update_m_tex.
  rewrite (read_idx_lookup _ _ _ Ht).
  rewrite write_idx_lt by (by eapply lookup_lt_Some).
  destruct t; simpl; [done|]. by rewrite app_nil_r.
Qed.

Lemma free_loop_run len : forall s wd,
  (s + len <= length (m_tex (mapper wd)))%nat ->
  exists mt frees,
    for_each (seq s len) (fun i _ => ra_tex_free i) tt wd =
    (Ok tt, mkworld (frames wd) (mkmapper (m_src (mapper wd)) mt (m_priv (mapper wd)))
              (trace wd ++ frees)) /\
    length mt = length (m_tex (mapper wd)) /\
    Forall (fun e => is_free e = true) frees.
Proof.
  induction len as [|len IH]; intros s wd Hlen; simpl.
  - exists (m_tex (mapper wd)), []. rewrite app_nil_r.
    by destruct wd as [fr [sr mt pr] tr].
  - destruct (lookup_lt_is_Some_2 (m_tex (mapper wd)) s ltac:(lia)) as [t Ht].
    unfold bind at 1. rewrite (ra_tex_free_run _ _ _ Ht).
    match goal with
    | |- context [for_each _ _ _ ?w1] =>
        destruct (IH (S s) w1) as (mt & frees & Hrun & Hlen' & Hfrees)
    end.
    { simpl. rewrite length_insert. lia. }
    rewrite Hrun. simpl.
    exists mt, (match t with Some r => [EvRaTexFree r] | None => [] end ++ frees).
    rewrite <- app_assoc. split; [done|]. split.
    + simpl in Hlen'. by rewrite length_insert in Hlen'.
    + apply Forall_app. split; [|done]. destruct t; by repeat constructor.
Qed.

Lemma unmap_end_run wd :
  (num_planes (p_layout (m_priv (mapper wd))) <= length (m_tex (mapper wd)))%nat ->
  exists mt frees,
    unmap_end wd =
    (Ok tt, mkworld (frames wd)
              (mkmapper (m_src (mapper wd)) mt (set_p_vkf None (m_priv (mapper wd))))
              (trace wd ++ frees)) /\
    Forall (fun e => is_free e = true) frees.
Proof.
  intros Hlen. unfold unmap_end.
  change (bind get_priv ?k wd) with (k (m_priv (mapper wd)) wd). cbv beta.
  destruct (free_loop_run _ 0 wd Hlen) as (mt & frees & Hrun & _ & Hfrees).
  unfold bind. rewrite Hrun. exists mt, frees. by split.
Qed.

End UnmapEnd.

Section ExportMapped.

Import Protocol.
Local Open Scope prog_scope.

Variable pl_vulkan_hold_ex : pl_vulkan_hold_params -> bool * Z.

Lemma wrap64_rollback v : 0 <= v < 2 ^ 64 -> wrap64 (wrap64 (v + 1) - 1) = v.
Proof.
  intros Hv. unfold wrap64.
  destruct (decide (v + 1 = 2 ^ 64)) as [He|Hne].
  - rewrite He, Z.mod_same by lia. simpl Z.sub.
    replace (0 - 1) with (-1) by lia.
    replace v with (2 ^ 64 - 1) by lia. reflexivity.
  - rewrite (Z.mod_small (v + 1)) by lia.
    replace (v + 1 - 1) with v by lia. apply Z.mod_small. lia.
Qed.

Lemma segment_end (e : event) (l r : list event) : l = r -> e :: l = [] ++ e :: r.
Proof. by intros ->. Qed.

Lemma segment_cons (e : event) (l x r : list event) : l = x ++ r -> e :: l = (e :: x) ++ r.
Proof. by intros ->. Qed.

Lemma multiplane_true np ni : multiplane np ni = true -> ni = 1%nat.
Proof.
  unfold multiplane. intros [_ H]%andb_prop. by apply bool_decide_eq_true in H.
Qed.

Ltac list4 l :=
  let x0 := fresh "x" in let x1 := fresh "x" in
  let x2 := fresh "x" in let x3 := fresh "x" in
  destruct l as [|x0 [|x1 [|x2 [|x3 l]]]]; simpl length in *; try lia.

Ltac run_step HR Hf Hmode :=
  first
    [ progress cbn in HR
    | progress unfold bind, lift, ret, raise, emit, load, store, get_priv,
        get_mapper, update_priv, update_m_tex, read_idx in HR
    | rewrite Hmode in HR
    | rewrite Hf in HR
    | rewrite lookup_insert_eq in HR
    | rewrite Nat.min_0_r in HR
    | rewrite write_idx_lt in HR by (simpl; lia)
    | match type of HR with
      | context [pl_vulkan_hold_ex ?prm] =>
          let Hh := fresh "Hh" in
          destruct (pl_vulkan_hold_ex prm) as [[] ?] eqn:Hh
      end ].

Ltac run_unmap Hf Hmode Hnp :=
  match goal with
  | |- context [mapper_unmap ?H ?W] =>
      let R := fresh "R" in
      let HR := fresh "HR" in
      remember (mapper_unmap H W) as R eqn:HR;
      unfold mapper_unmap, mark_touched, reserve, hold_planes, commit,
        plane_image_index in HR;
      repeat run_step HR Hf Hmode;
      match type of HR with
      | context [unmap_end ?W'] =>
          let Hrun := fresh "Hrun" in
          let Hfrees := fresh "Hfrees" in
          destruct (unmap_end_run W' Hnp) as (? & ? & Hrun & Hfrees);
          rewrite Hrun in HR; clear Hrun;
          cbn in HR; rewrite ?insert_insert_eq, <- ?app_assoc in HR;
          cbn in HR; subst R
      end
  end.

Ltac shape_tac :=
  repeat first [ reflexivity | apply segment_end | apply segment_cons ].

Ltac forall_tac :=
  repeat first
    [ assumption | apply Forall_nil_2 | apply Forall_cons_2; [reflexivity|] ].

Ltac member_tac := apply list_elem_of_In; cbn; tauto.

Ltac in_cases H :=
  apply list_elem_of_In in H; cbn in H;
  repeat (destruct H as [H|H]; [|]); try contradiction.

Ltac pick_tac :=
  apply list_elem_of_In; cbn; solve [repeat first [left; reflexivity | right]].

Ltac nodup_tac :=
  repeat (apply NoDup_cons_2;
          [let H := fresh in intros H; in_cases H; discriminate|]);
  apply NoDup_nil_2.

Ltac stores_tac :=
  let i := fresh "i" in
  let H := fresh "H" in
  intros i; split;
  [ intros (? & H); in_cases H; simplify_eq;
    (split; [lia|]);
    first [ by exists 0%nat; split; [lia|reflexivity]
          | eexists; split; [|reflexivity]; lia ]
  | intros (H & j & ? & <-);
    try (destruct j as [|[|[|[|j]]]]; try lia);
    eexists; pick_tac ].

Ltac slots_tac :=
  let j := fresh "j" in
  intros j ?; try lia;
  first [ pick_tac | destruct j as [|[|[|j]]]; try lia; pick_tac ].

Ltac calls_tac :=
  let prm := fresh "prm" in
  let H := fresh "H" in
  intros prm H;
  exists (hold_out_layout prm), (hold_tex prm), (hold_sem prm);
  in_cases H; subst prm; cbn;
  (split; [reflexivity|]);
  (split; [intros ? ?; lia|]);
  do 5 (split; [reflexivity|]);
  (split; [intros ?; first [lia | eexists; split; reflexivity]
          |intros ?; first [lia | reflexivity]]).

Ltac touched_tac :=
  split; [nodup_tac|split; [stores_tac|split; [slots_tac|calls_tac]]].

Ltac finish_tac Hmode :=
  let i := fresh "i" in
  intros i ? ? ? ? ? ? ? Hidx ? ? ? ?;
  unfold plane_image_index in Hidx; rewrite Hmode in Hidx;
  destruct i as [|[|[|[|i]]]]; cbn in *; try lia; simplify_eq;
  repeat match goal with
         | H : pl_vulkan_hold_ex _ = _ |- _ => rewrite H
         end;
  cbn; rewrite ?wrap64_rollback by done;
  (split; [member_tac|split; [member_tac|split; reflexivity]]).

Opaque unmap_end wrap64 write_idx multiplane.
Local Arguments mapper_unmap : simpl never.

(** C1.  Export on a session that holds the native frame at [a], with its
    textures [ts] in the leading slots.  The call returns; what it does is,
    in this order: take the frame lock, store the incremented counters
    ([incr]), drop the lock, issue the release calls ([holds]), take the
    lock again, store layouts, rolled-back counters and access flags
    ([commits]), drop the lock, free the renderer textures.  For every
    image [i] below the image count that some plane [j] with a texture is
    mapped to: its counter [v] is stored as [v + 1] (in [uint64_t]) under
    the first lock, the release of that image carries [v + 1] as its
    signal value, and afterwards the counter is [v + 1] and the layout the
    one the release reported if the release succeeded, while the counter
    is [v] again and the layout untouched if it failed. *)
Theorem export_commit_or_rollback (wd : world) (a : addr) (f : AVVkFrame)
    (srcimg : mp_image) (ts : list pl_tex) (rest : list (option pl_tex)) :
  let p := m_priv (mapper wd) in
  let np := num_planes (p_layout p) in
  let ni := p_num_images p in
  m_src (mapper wd) = Some srcimg ->
  p_vkf p = Some a ->
  frames wd !! a = Some f ->
  p_tex p = (Some <$> ts) ++ None :: rest ->
  (length ts <= 3)%nat ->
  (4 <= length (p_sem p))%nat ->
  (4 <= length (vkf_sem_value f))%nat ->
  (4 <= length (vkf_layout f))%nat ->
  (4 <= length (vkf_access f))%nat ->
  (np <= length (m_tex (mapper wd)))%nat ->
  counters_in_range f ->
  exists wd' f' incr holds commits frees,
    mapper_unmap pl_vulkan_hold_ex wd = (Ok tt, wd') /\
    frames wd' = <[a := f']> (frames wd) /\
    trace wd' =
      trace wd ++ [EvLockFrame (Some a)] ++ incr ++ [EvUnlockFrame (Some a)] ++
      holds ++ [EvLockFrame (Some a)] ++ commits ++ [EvUnlockFrame (Some a)] ++
      frees /\
    Forall (fun e => is_store e = true) incr /\
    Forall (fun e => is_hold e = true) holds /\
    Forall (fun e => is_store e = true) commits /\
    Forall (fun e => is_free e = true) frees /\
    forall i j t v lay s,
      (i < Nat.min ni 4)%nat ->
      (j < length ts)%nat -> plane_image_index np ni j = i ->
      ts !! i = Some t ->
      vkf_sem_value f !! i = Some v ->
      vkf_layout f !! i = Some lay ->
      p_sem p !! i = Some s ->
      let prm := mkhold t i VK_QUEUE_FAMILY_IGNORED s (wrap64 (v + 1)) in
      EvFrameStore a FSemValue i (wrap64 (v + 1)) ∈ incr /\
      EvHold prm ∈ holds /\
      vkf_sem_value f' !! i =
        Some (if (pl_vulkan_hold_ex prm).1 then wrap64 (v + 1) else v) /\
      vkf_layout f' !! i =
        Some (if (pl_vulkan_hold_ex prm).1 then (pl_vulkan_hold_ex prm).2 else lay).
Proof.
  destruct wd as [fr [src mt [lay vkf texs img il sm sv ni]] trc].
  destruct f as [fimg flay fsem fsv facc].
  unfold counters_in_range. cbn.
  intros -> -> Hf -> Hts Hsm Hsv Hlay Hacc Hnp Hrange.
  list4 sm. list4 fsv. list4 flay. list4 facc.
  apply Forall_cons in Hrange as [Hr0 Hrange].
  apply Forall_cons in Hrange as [Hr1 Hrange].
  apply Forall_cons in Hrange as [Hr2 Hrange].
  apply Forall_cons in Hrange as [Hr3 _].
  destruct (multiplane (num_planes lay) ni) eqn:Hmode.
  - apply multiplane_true in Hmode as Hni. subst ni.
    destruct ts as [|t0 [|t1 [|t2 [|t3 ts]]]]; simpl length in *; try lia.
    all: run_unmap Hf Hmode Hnp.
    all: do 6 eexists.
    all: split; [reflexivity|].
    all: split; [cbn; first [reflexivity | symmetry; apply insert_id; exact Hf]|].
    all: split; [cbn; apply (f_equal (app trc)); apply (f_equal (cons _)); shape_tac|].
    all: do 4 (split; [forall_tac|]).
    all: finish_tac Hmode.
  - destruct ni as [|[|[|[|ni]]]];
      (destruct ts as [|t0 [|t1 [|t2 [|t3 ts]]]]; simpl length in *; try lia).
    all: run_unmap Hf Hmode Hnp.
    all: do 6 eexists.
    all: split; [reflexivity|].
    all: split; [cbn; first [reflexivity | symmetry; apply insert_id; exact Hf]|].
    all: split; [cbn; apply (f_equal (app trc)); apply (f_equal (cons _)); shape_tac|].
    all: do 4 (split; [forall_tac|]).
    all: finish_tac Hmode.
Qed.

(** The first loop of Export, for a session whose leading slots hold the
    textures [ts]: it returns, and the image [i] is marked as touched
    exactly when the rule maps some plane with a texture to it. *)
Lemma mark_touched_run (np ni : nat) (ts : list pl_tex)
    (rest : list (option pl_tex)) (wd : world) :
  (length ts <= 4)%nat ->
  exists will_process,
    mark_touched np ni ((Some <$> ts) ++ None :: rest) wd = (Ok will_process, wd) /\
    length will_process = 4%nat /\
    forall i, will_process !! i = Some true <->
              exists j, (j < length ts)%nat /\ plane_image_index np ni j = i.
Proof.
  intros Hlen.
  destruct (multiplane np ni) eqn:Hmode;
    (destruct ts as [|t0 [|t1 [|t2 [|t3 [|t4 ts]]]]]; simpl length in *; try lia).
  all: unfold mark_touched, plane_image_index; rewrite Hmode; cbn.
  all: unfold bind, lift, ret.
  all: repeat (rewrite write_idx_lt by (simpl; lia); cbn).
  all: eexists; split; [reflexivity|]; split; [reflexivity|].
  all: intros i; split;
    [ intros H; destruct i as [|[|[|[|i]]]]; cbn in H; try discriminate;
      first [ by exists 0%nat; split; [lia|reflexivity]
            | eexists; split; [|reflexivity]; lia ]
    | intros (j & Hj & <-);
      try (destruct j as [|[|[|[|j]]]]; try lia); reflexivity ].
Qed.

(** Export on a mapped session: which counters it increments and which
    release calls it makes.  A counter is
    incremented exactly for the images below the image count that the rule
    gives for a plane with a texture; every such plane has its image
    released; a release is made for the first plane of its image, with the
    semaphore of that image and the reserved value, which is 0 for an image
    that is not below the image count. *)
Lemma export_touches (wd : world) (a : addr) (f : AVVkFrame)
    (srcimg : mp_image) (ts : list pl_tex) (rest : list (option pl_tex)) :
  let p := m_priv (mapper wd) in
  let np := num_planes (p_layout p) in
  let ni := p_num_images p in
  m_src (mapper wd) = Some srcimg ->
  p_vkf p = Some a ->
  frames wd !! a = Some f ->
  p_tex p = (Some <$> ts) ++ None :: rest ->
  (length ts <= 3)%nat ->
  (4 <= length (p_sem p))%nat ->
  (4 <= length (vkf_sem_value f))%nat ->
  (4 <= length (vkf_layout f))%nat ->
  (4 <= length (vkf_access f))%nat ->
  (np <= length (m_tex (mapper wd)))%nat ->
  exists wd' incr holds commits frees,
    mapper_unmap pl_vulkan_hold_ex wd = (Ok tt, wd') /\
    trace wd' =
      trace wd ++ [EvLockFrame (Some a)] ++ incr ++ [EvUnlockFrame (Some a)] ++
      holds ++ [EvLockFrame (Some a)] ++ commits ++ [EvUnlockFrame (Some a)] ++
      frees /\
    Forall (fun e => is_store e = true) incr /\
    Forall (fun e => is_hold e = true) holds /\
    Forall (fun e => is_store e = true) commits /\
    Forall (fun e => is_free e = true) frees /\
    NoDup (hold_slots holds) /\
    (forall i, (exists v, EvFrameStore a FSemValue i v ∈ incr) <->
               (i < Nat.min ni 4)%nat /\
               exists j, (j < length ts)%nat /\ plane_image_index np ni j = i) /\
    (forall j, (j < length ts)%nat -> plane_image_index np ni j ∈ hold_slots holds) /\
    (forall prm, prm ∈ hold_calls holds ->
       exists j t s,
         ts !! j = Some t /\
         (forall j', (j' < j)%nat ->
            plane_image_index np ni j' <> plane_image_index np ni j) /\
         p_sem p !! plane_image_index np ni j = Some s /\
         hold_tex prm = t /\
         hold_out_layout prm = plane_image_index np ni j /\
         hold_qf prm = VK_QUEUE_FAMILY_IGNORED /\
         hold_sem prm = s /\
         ((plane_image_index np ni j < Nat.min ni 4)%nat ->
          exists v, vkf_sem_value f !! plane_image_index np ni j = Some v /\
                    hold_value prm = wrap64 (v + 1)) /\
         ((Nat.min ni 4 <= plane_image_index np ni j)%nat -> hold_value prm = 0)).
Proof.
  destruct wd as [fr [src mt [lay vkf texs img il sm sv ni]] trc].
  destruct f as [fimg flay fsem fsv facc].
  cbn.
  intros -> -> Hf -> Hts Hsm Hsv Hlay Hacc Hnp.
  list4 sm. list4 fsv. list4 flay. list4 facc.
  destruct (multiplane (num_planes lay) ni) eqn:Hmode.
  - apply multiplane_true in Hmode as Hni. subst ni.
    destruct ts as [|t0 [|t1 [|t2 [|t3 ts]]]]; simpl length in *; try lia.
    all: run_unmap Hf Hmode Hnp.
    all: do 5 eexists.
    all: split; [reflexivity|].
    all: split; [cbn; apply (f_equal (app trc)); apply (f_equal (cons _)); shape_tac|].
    all: do 4 (split; [forall_tac|]).
    all: unfold plane_image_index; rewrite Hmode; cbn.
    all: touched_tac.
  - destruct ni as [|[|[|[|ni]]]];
      (destruct ts as [|t0 [|t1 [|t2 [|t3 ts]]]]; simpl length in *; try lia).
    all: run_unmap Hf Hmode Hnp.
    all: do 5 eexists.
    all: split; [reflexivity|].
    all: split; [cbn; apply (f_equal (app trc)); apply (f_equal (cons _)); shape_tac|].
    all: do 4 (split; [forall_tac|]).
    all: unfold plane_image_index; rewrite Hmode; cbn.
    all: touched_tac.
Qed.

Transparent unmap_end wrap64 write_idx multiplane.

End ExportMapped.

Section ExportMappedWitness.

Import Protocol.

Lemma export_commit_or_rollback_witness :
  exists wd' f',
    mapper_unmap ProtocolSamples.hold_fail1 ProtocolSamples.mapped2 = (Ok tt, wd') /\
    frames wd' = <[5%nat := f']> (frames ProtocolSamples.mapped2) /\
    vkf_sem_value f' !! 0%nat = Some 11 /\ vkf_layout f' !! 0%nat = Some 77 /\
    vkf_sem_value f' !! 1%nat = Some 20 /\ vkf_layout f' !! 1%nat = Some 2.
Proof.
  destruct (export_commit_or_rollback ProtocolSamples.hold_fail1
              ProtocolSamples.mapped2 5%nat ProtocolSamples.frame2
              ProtocolSamples.src0 [1011; 1021] [None])
    as (wd' & f' & incr & holds & commits & frees & Hrun & Hfr & _ & _ & _ & _ & _ & H).
  - reflexivity.
  - reflexivity.
  - vm_compute. reflexivity.
  - reflexivity.
  - simpl. lia.
  - vm_compute. lia.
  - vm_compute. lia.
  - vm_compute. lia.
  - vm_compute. lia.
  - vm_compute. lia.
  - unfold counters_in_range. simpl. repeat constructor; lia.
  - exists wd', f'. split; [exact Hrun|]. split; [exact Hfr|].
    destruct (H 0%nat 0%nat 1011 10 1 201) as (_ & _ & H0 & H0');
      [vm_compute; lia|vm_compute; lia|reflexivity|reflexivity|reflexivity
      |reflexivity|reflexivity|].
    destruct (H 1%nat 1%nat 1021 20 2 202) as (_ & _ & H1 & H1');
      [vm_compute; lia|vm_compute; lia|reflexivity|reflexivity|reflexivity
      |reflexivity|reflexivity|].
    exact (conj H0 (conj H0' (conj H1 H1'))).
Defined.

End ExportMappedWitness.

(** ** The wrap calls of Import *)

Section Wraps.

Import Protocol.
Local Open Scope prog_scope.

Variable pl_vulkan_get : bool.
Variable av_vkfmt_from_pixfmt : Z -> option (list Z).
Variable mp_image_plane_w : Z -> Z -> nat -> Z.
Variable mp_image_plane_h : Z -> Z -> nat -> Z.
Variable pl_vulkan_wrap : pl_vulkan_wrap_params -> option pl_tex.
Variable mppl_wrap_tex : pl_tex -> bool.
Variable pl_vulkan_hold_ex : pl_vulkan_hold_params -> bool * Z.

Variable w0 : world.
Variable img0 : list Z.
Variable lay0 : mp_image.
Variable ni0 : nat.

(** Since [w0] the wrap calls [calls] were made, and the session has the
    layout [lay0]. *)
Definition wraps_so_far (calls : list pl_vulkan_wrap_params) (wd : world) : Prop :=
  p_layout (m_priv (mapper wd)) = lay0 /\
  exists evs, trace wd = trace w0 ++ evs /\ wrap_calls evs = calls.

(** ... and the snapshot holds the image handles [img0] of [ni0] images. *)
Definition wraps_with_snapshot (calls : list pl_vulkan_wrap_params) (wd : world) : Prop :=
  wraps_so_far calls wd /\
  p_img (m_priv (mapper wd)) = img0 /\ p_num_images (m_priv (mapper wd)) = ni0.

Definition not_wrap (e : event) : Prop := is_wrap e = false.

Definition keeps_layout (g : vulkan_mapper_priv -> vulkan_mapper_priv) : Prop :=
  forall p, p_layout (g p) = p_layout p.

Definition keeps_snapshot (g : vulkan_mapper_priv -> vulkan_mapper_priv) : Prop :=
  forall p, p_layout (g p) = p_layout p /\ p_img (g p) = p_img p /\
            p_num_images (g p) = p_num_images p.

Lemma wrap_calls_app evs evs' :
  wrap_calls (evs ++ evs') = wrap_calls evs ++ wrap_calls evs'.
Proof. unfold wrap_calls. apply omap_app. Qed.

Lemma wraps_so_far_emit calls e wd :
  not_wrap e -> wraps_so_far calls wd ->
  wraps_so_far calls (mkworld (frames wd) (mapper wd) (trace wd ++ [e])).
Proof.
  intros He [Hl (evs & Ht & Hc)]. split; [done|]. exists (evs ++ [e]). simpl.
  rewrite Ht, <- app_assoc, wrap_calls_app, Hc. split; [done|].
  destruct e; try done; by rewrite app_nil_r.
Qed.

Lemma wraps_so_far_wrap calls prm wd :
  wraps_so_far calls wd ->
  wraps_so_far (calls ++ [prm])
    (mkworld (frames wd) (mapper wd) (trace wd ++ [EvWrap prm])).
Proof.
  intros [Hl (evs & Ht & Hc)]. split; [done|]. exists (evs ++ [EvWrap prm]).
  simpl. by rewrite Ht, <- app_assoc, wrap_calls_app, Hc.
Qed.

Lemma wraps_so_far_priv calls g wd :
  keeps_layout g -> wraps_so_far calls wd ->
  wraps_so_far calls
    (mkworld (frames wd)
       (mkmapper (m_src (mapper wd)) (m_tex (mapper wd)) (g (m_priv (mapper wd))))
       (trace wd)).
Proof. intros Hg [Hl He]. split; [|done]. simpl. by rewrite Hg. Qed.

Lemma wraps_so_far_m_tex calls l wd :
  wraps_so_far calls wd ->
  wraps_so_far calls
    (mkworld (frames wd) (mkmapper (m_src (mapper wd)) l (m_priv (mapper wd)))
       (trace wd)).
Proof. by intros [Hl He]. Qed.

Lemma wraps_so_far_store calls a fld i v f l wd :
  not_wrap (EvFrameStore a fld i v) -> frames wd !! a = Some f ->
  wraps_so_far calls wd ->
  wraps_so_far calls
    (mkworld (<[a := field_set fld l f]> (frames wd)) (mapper wd)
       (trace wd ++ [EvFrameStore a fld i v])).
Proof.
  intros He _ H.
  apply (wraps_so_far_emit calls (EvFrameStore a fld i v)
           (mkworld (<[a := field_set fld l f]> (frames wd)) (mapper wd) (trace wd)));
    done.
Qed.

Lemma wraps_with_snapshot_emit calls e wd :
  not_wrap e -> wraps_with_snapshot calls wd ->
  wraps_with_snapshot calls (mkworld (frames wd) (mapper wd) (trace wd ++ [e])).
Proof. intros He [H Hs]. split; [by apply wraps_so_far_emit|done]. Qed.

Lemma wraps_with_snapshot_priv calls g wd :
  keeps_snapshot g -> wraps_with_snapshot calls wd ->
  wraps_with_snapshot calls
    (mkworld (frames wd)
       (mkmapper (m_src (mapper wd)) (m_tex (mapper wd)) (g (m_priv (mapper wd))))
       (trace wd)).
Proof.
  intros Hg [H [Hi Hn]]. destruct (Hg (m_priv (mapper wd))) as (Hl & Hi' & Hn').
  split; [apply wraps_so_far_priv; [|done]; intros p; apply Hg|].
  simpl. by rewrite Hi', Hn'.
Qed.

Lemma wraps_with_snapshot_m_tex calls l wd :
  wraps_with_snapshot calls wd ->
  wraps_with_snapshot calls
    (mkworld (frames wd) (mkmapper (m_src (mapper wd)) l (m_priv (mapper wd)))
       (trace wd)).
Proof. by intros [[Hl He] Hs]. Qed.

Lemma wraps_with_snapshot_store calls a fld i v f l wd :
  not_wrap (EvFrameStore a fld i v) -> frames wd !! a = Some f ->
  wraps_with_snapshot calls wd ->
  wraps_with_snapshot calls
    (mkworld (<[a := field_set fld l f]> (frames wd)) (mapper wd)
       (trace wd ++ [EvFrameStore a fld i v])).
Proof. intros He Hf [H Hs]. split; [by eapply wraps_so_far_store|done]. Qed.

Ltac snapshot_tac calls :=
  stable_using (wraps_with_snapshot_emit calls) (wraps_with_snapshot_priv calls)
               (wraps_with_snapshot_m_tex calls) (wraps_with_snapshot_store calls);
  try done.

Lemma multiplane_decide np ni :
  multiplane np ni = bool_decide (1 < np /\ ni = 1)%nat.
Proof.
  unfold multiplane.
  destruct (bool_decide (1 < np)%nat) eqn:H1, (bool_decide (ni = 1%nat)) eqn:H2;
    simpl; symmetry.
  - apply bool_decide_eq_true in H1, H2. by apply bool_decide_eq_true_2.
  - apply bool_decide_eq_false in H2. apply bool_decide_eq_false_2. tauto.
  - apply bool_decide_eq_false in H1. apply bool_decide_eq_false_2. tauto.
  - apply bool_decide_eq_false in H1. apply bool_decide_eq_false_2. tauto.
Qed.

(** The call built for plane [i] follows the rule. *)
Lemma wrap_params_follow_rule p hwfc aspect image fmt i :
  p_layout p = lay0 -> p_img p = img0 ->
  (if multiplane (num_planes lay0) ni0 then plane_aspect i
   else Some VK_IMAGE_ASPECT_COLOR_BIT) = Some aspect ->
  img0 !! plane_image_index (num_planes lay0) ni0 i = Some image ->
  wrap_for_plane mp_image_plane_w mp_image_plane_h img0 lay0 hwfc ni0 i
    (wrap_params_of mp_image_plane_w mp_image_plane_h p hwfc image fmt aspect i).
Proof.
  intros Hl Hi Ha Him. unfold wrap_for_plane, wrap_params_of. simpl.
  rewrite Hl. split; [|done].
  unfold plane_image_index in Him. rewrite multiplane_decide in Ha, Him.
  destruct (decide (1 < num_planes lay0 /\ ni0 = 1)%nat) as [Hd|Hd].
  - rewrite bool_decide_eq_true_2 in Ha, Him by done.
    split; [done|]. destruct i as [|[|[|i]]]; simpl in Ha; simplify_eq;
      (split; [lia|done]).
  - rewrite bool_decide_eq_false_2 in Ha, Him by done. by simplify_eq.
Qed.

(** The outcome of the plane loop over [idxs], started after the calls
    [calls]: some planes [reached], a prefix of [idxs], were wrapped with
    the calls [calls'], each following the rule; if the loop ends normally
    all planes were reached. *)
Definition planes_wrapped (hwfc : AVHWFramesContext) (idxs : list nat)
    (calls : list pl_vulkan_wrap_params) (r : res bool) (wd : world) : Prop :=
  exists reached calls',
    reached `prefix_of` idxs /\
    Forall2 (wrap_for_plane mp_image_plane_w mp_image_plane_h img0 lay0 hwfc ni0)
            reached calls' /\
    wraps_with_snapshot (calls ++ calls') wd /\
    (r = Ok true -> reached = idxs).

Definition hoare {A} (I : world -> Prop) (m : M A) (Q : res A -> world -> Prop) : Prop :=
  forall wd, I wd -> Q (m wd).1 (m wd).2.

Lemma hoare_bind {A B} (I : world -> Prop) (m : M A) (k : A -> M B) Q :
  stable I m -> (forall a, hoare I (k a) Q) -> (forall f wd, I wd -> Q (Fault f) wd) ->
  hoare I (bind m k) Q.
Proof.
  intros Hm Hk Hf wd HI. unfold bind.
  specialize (Hm wd HI). destruct (m wd) as [[a|f] wd']; simpl in *.
  - by apply Hk.
  - by apply Hf.
Qed.

Lemma hoare_lift_bind {A B} (I : world -> Prop) (r : res A) (k : A -> M B) Q :
  (forall a, r = Ok a -> hoare I (k a) Q) -> (forall f wd, I wd -> Q (Fault f) wd) ->
  hoare I (bind (lift r) k) Q.
Proof.
  intros Hk Hf wd HI. unfold bind, lift. destruct r as [a|f]; simpl.
  - by apply Hk.
  - by apply Hf.
Qed.

Lemma hoare_get_priv_bind {B} (I : world -> Prop) (P : vulkan_mapper_priv -> Prop)
    (k : vulkan_mapper_priv -> M B) Q :
  (forall wd, I wd -> P (m_priv (mapper wd))) ->
  (forall p, P p -> hoare I (k p) Q) ->
  hoare I (bind get_priv k) Q.
Proof. intros HP Hk wd HI. apply (Hk (m_priv (mapper wd))); auto. Qed.

Lemma hoare_emit_bind {B} (I I' : world -> Prop) e (k : unit -> M B) Q :
  (forall wd, I wd -> I' (mkworld (frames wd) (mapper wd) (trace wd ++ [e]))) ->
  hoare I' (k tt) Q ->
  hoare I (bind (emit e) k) Q.
Proof. intros HI Hk wd H. apply (Hk _ (HI wd H)). Qed.

Lemma planes_wrapped_stop hwfc i rest calls prm r wd :
  r <> Ok true ->
  wrap_for_plane mp_image_plane_w mp_image_plane_h img0 lay0 hwfc ni0 i prm ->
  wraps_with_snapshot (calls ++ [prm]) wd ->
  planes_wrapped hwfc (i :: rest) calls r wd.
Proof.
  intros Hr Hp H. exists [i], [prm]. split; [by exists rest|].
  split; [constructor; [exact Hp|constructor]|].
  split; [done|]. by intros ->.
Qed.

Lemma planes_wrapped_none hwfc idxs calls r wd :
  r <> Ok true -> wraps_with_snapshot calls wd ->
  planes_wrapped hwfc idxs calls r wd.
Proof.
  intros Hr H. exists [], []. rewrite app_nil_r.
  split; [apply prefix_nil|]. split; [constructor|]. split; [done|]. by intros ->.
Qed.

Lemma planes_wrapped_cons hwfc i rest calls prm r wd :
  wrap_for_plane mp_image_plane_w mp_image_plane_h img0 lay0 hwfc ni0 i prm ->
  planes_wrapped hwfc rest (calls ++ [prm]) r wd ->
  planes_wrapped hwfc (i :: rest) calls r wd.
Proof.
  intros Hp (reached & calls' & Hpre & Hall & H & Hr).
  exists (i :: reached), (prm :: calls'). split; [by apply prefix_cons|].
  split; [by constructor|]. split.
  - by rewrite <- app_assoc in H.
  - intros ->. by rewrite Hr.
Qed.

Lemma map_planes_wraps hwfc tbl idxs : forall calls,
  hoare (wraps_with_snapshot calls)
    (map_planes mp_image_plane_w mp_image_plane_h pl_vulkan_wrap mppl_wrap_tex
       hwfc tbl ni0 idxs)
    (planes_wrapped hwfc idxs calls).
Proof.
  induction idxs as [|i rest IH]; intros calls; simpl.
  - intros wd H. exists [], []. rewrite app_nil_r.
    split; [done|]. split; [constructor|]. by split.
  - assert (forall f wd, wraps_with_snapshot calls wd ->
              planes_wrapped hwfc (i :: rest) calls (@Fault bool f) wd) as Hfault0.
    { intros f wd H. by apply planes_wrapped_none. }
    apply hoare_get_priv_bind
      with (P := fun p => p_layout p = lay0 /\ p_img p = img0).
    { by intros wd [[Hl _] [Hi _]]. }
    intros p [Hl Hi]. rewrite Hl.
    destruct (if multiplane (num_planes lay0) ni0 then plane_aspect i
              else Some VK_IMAGE_ASPECT_COLOR_BIT) as [aspect|] eqn:Ha.
    2: { intros wd H. by apply planes_wrapped_none. }
    apply hoare_lift_bind; [|done]. intros image Him.
    apply hoare_bind; [snapshot_tac calls| |done]. intros fmt.
    set (prm := wrap_params_of mp_image_plane_w mp_image_plane_h p hwfc image
                  fmt aspect i).
    assert (wrap_for_plane mp_image_plane_w mp_image_plane_h img0 lay0 hwfc ni0 i prm)
      as Hrule.
    { apply wrap_params_follow_rule; try done.
      unfold read_idx in Him. rewrite Hi in Him.
      by destruct (img0 !! plane_image_index (num_planes lay0) ni0 i); simplify_eq. }
    apply hoare_emit_bind with (I' := wraps_with_snapshot (calls ++ [prm])).
    { intros wd [H Hs]. split; [by apply wraps_so_far_wrap|done]. }
    assert (forall f wd', wraps_with_snapshot (calls ++ [prm]) wd' ->
              planes_wrapped hwfc (i :: rest) calls (@Fault bool f) wd') as Hfault.
    { intros f wd' H'.
      by apply (planes_wrapped_stop hwfc i rest calls prm). }
    assert (hoare (wraps_with_snapshot (calls ++ [prm])) (ret false)
              (planes_wrapped hwfc (i :: rest) calls)) as Hstop.
    { intros wd' H'.
      by apply (planes_wrapped_stop hwfc i rest calls prm). }
    repeat first
      [ exact Hstop
      | apply hoare_bind; [solve [snapshot_tac (calls ++ [prm])]|intros ?|exact Hfault]
      | match goal with
        | |- hoare _ (match ?x with _ => _ end) _ => destruct x
        end ].
    intros wd' H'. apply (planes_wrapped_cons hwfc i rest calls prm); [done|].
    by apply IH.
Qed.

Lemma hoare_bind_leads {A B} (I I' : world -> Prop) (m : M A) (k : A -> M B) Q :
  leads I I' m -> (forall a, hoare I' (k a) Q) ->
  (forall f wd, I' wd -> Q (Fault f) wd) ->
  hoare I (bind m k) Q.
Proof.
  intros Hm Hk Hf wd HI. unfold bind.
  specialize (Hm wd HI). destruct (m wd) as [[a|f] wd']; simpl in *.
  - by apply Hk.
  - by apply Hf.
Qed.

Lemma hoare_bind_res {A B} (I : world -> Prop) (m : M A) (k : A -> M B) Qm Q :
  hoare I m Qm -> (forall a, hoare (Qm (Ok a)) (k a) Q) ->
  (forall f wd, Qm (Fault f) wd -> Q (Fault f) wd) ->
  hoare I (bind m k) Q.
Proof.
  intros Hm Hk Hf wd HI. unfold bind.
  specialize (Hm wd HI). destruct (m wd) as [[a|f] wd']; simpl in *.
  - by apply Hk.
  - by apply Hf.
Qed.

End Wraps.

Ltac layout_tac w0 lay0 calls :=
  stable_using (wraps_so_far_emit w0 lay0 calls) (wraps_so_far_priv w0 lay0 calls)
               (wraps_so_far_m_tex w0 lay0 calls)
               (wraps_so_far_store w0 lay0 calls);
  try done.

Section WrapsOfMap.

Import Protocol.
Local Open Scope prog_scope.

Variable pl_vulkan_get : bool.
Variable av_vkfmt_from_pixfmt : Z -> option (list Z).
Variable mp_image_plane_w : Z -> Z -> nat -> Z.
Variable mp_image_plane_h : Z -> Z -> nat -> Z.
Variable pl_vulkan_wrap : pl_vulkan_wrap_params -> option pl_tex.
Variable mppl_wrap_tex : pl_tex -> bool.
Variable pl_vulkan_hold_ex : pl_vulkan_hold_params -> bool * Z.

(** What Import wraps, whatever the session and the frame: for the
    session data as Import leaves it, the wrap calls are those of the
    planes [0 .. k-1] in order, each following the plane-to-image rule,
    and a successful Import has wrapped every plane. *)
Definition import_wrapped (w0 : world) (hwfc : AVHWFramesContext) (r : res Z)
    (wd : world) : Prop :=
  let p := m_priv (mapper wd) in
  exists evs reached,
    trace wd = trace w0 ++ evs /\
    reached `prefix_of` seq 0 (num_planes (p_layout p)) /\
    Forall2 (wrap_for_plane mp_image_plane_w mp_image_plane_h (p_img p)
               (p_layout p) hwfc (p_num_images p))
            reached (wrap_calls evs) /\
    (r = Ok 0 -> reached = seq 0 (num_planes (p_layout p))).

Lemma import_wrapped_none w0 hwfc lay0 r wd :
  r <> Ok 0 -> wraps_so_far w0 lay0 [] wd -> import_wrapped w0 hwfc r wd.
Proof.
  intros Hr [Hl (evs & Ht & Hc)]. exists evs, []. rewrite Hc.
  split; [done|]. split; [apply prefix_nil|]. split; [constructor|done].
Qed.

Lemma import_wrapped_planes w0 hwfc img0 lay0 ni0 rb r wd calls reached :
  wraps_with_snapshot w0 img0 lay0 ni0 calls wd ->
  reached `prefix_of` seq 0 (num_planes lay0) ->
  Forall2 (wrap_for_plane mp_image_plane_w mp_image_plane_h img0 lay0 hwfc ni0)
          reached calls ->
  (rb = Ok true -> reached = seq 0 (num_planes lay0)) ->
  (r = Ok 0 -> rb = Ok true) ->
  import_wrapped w0 hwfc r wd.
Proof.
  intros [[Hl (evs & Ht & Hc)] [Hi Hn]] Hpre Hall Hrb Hr.
  exists evs, reached. rewrite Hl, Hi, Hn, Hc.
  split; [done|]. split; [done|]. split; [done|]. intros Hr0. by apply Hrb, Hr.
Qed.

Lemma unmap_result_not_success (wd : world) :
  ((mapper_unmap pl_vulkan_hold_ex ;;; ret (-1)) wd).1 <> Ok 0.
Proof.
  unfold bind. by destruct (mapper_unmap pl_vulkan_hold_ex wd) as [[[]|f] wd'].
Qed.

Lemma mapper_map_wraps (w0 : world) (srcimg : mp_image) :
  m_src (mapper w0) = Some srcimg ->
  let r := mapper_map pl_vulkan_get av_vkfmt_from_pixfmt mp_image_plane_w
             mp_image_plane_h pl_vulkan_wrap mppl_wrap_tex pl_vulkan_hold_ex w0 in
  import_wrapped w0 (hwctx srcimg) r.1 r.2.
Proof.
  intros Hsrc. set (lay0 := p_layout (m_priv (mapper w0))).
  set (hwfc := hwctx srcimg).
  assert (wraps_so_far w0 lay0 [] w0) as H0.
  { split; [done|]. exists []. by rewrite app_nil_r. }
  assert (forall (f : fault) wd, wraps_so_far w0 lay0 [] wd ->
            import_wrapped w0 hwfc (Fault f) wd) as Hfault.
  { intros f wd H. by apply (import_wrapped_none w0 _ lay0). }
  cbv zeta. unfold mapper_map.
  destruct pl_vulkan_get; [change (negb true) with false|change (negb false) with true];
    cbv iota.
  2: { by apply (import_wrapped_none w0 _ lay0). }
  change (bind get_mapper ?k w0) with (k (mapper w0) w0). cbv beta.
  rewrite Hsrc. fold hwfc.
  match goal with
  | |- import_wrapped _ _ (?m w0).1 _ =>
      assert (hoare (wraps_so_far w0 lay0 []) m (import_wrapped w0 hwfc)) as Hh;
        [|exact (Hh w0 H0)]
  end.
  apply hoare_bind; [layout_tac w0 lay0 (@nil pl_vulkan_wrap_params)| |done]. intros _.
  apply hoare_bind; [apply stable_count_images| |done]. intros n.
  apply hoare_bind; [layout_tac w0 lay0 (@nil pl_vulkan_wrap_params)| |done]. intros _.
  apply hoare_bind_leads
    with (I' := fun wd => wraps_so_far w0 lay0 [] wd /\
                          p_num_images (m_priv (mapper wd)) = n).
  { intros wd [Hl He]. by split. }
  2: { intros f wd [H _]. by apply Hfault. }
  intros _.
  apply hoare_emit_bind
    with (I' := fun wd => wraps_so_far w0 lay0 [] wd /\
                          p_num_images (m_priv (mapper wd)) = n).
  { intros wd [H Hn]. split; [by apply wraps_so_far_emit|done]. }
  intros wd [H Hn].
  change (bind get_priv ?k wd) with (k (m_priv (mapper wd)) wd). cbv beta.
  pose proof H as [Hl _]. rewrite Hl.
  set (img0 := p_img (m_priv (mapper wd))).
  assert (wraps_with_snapshot w0 img0 lay0 n [] wd) as Hs by done.
  clearbody img0.
  match goal with
  | |- import_wrapped _ _ (?m wd).1 _ =>
      assert (hoare (wraps_with_snapshot w0 img0 lay0 n []) m
                (import_wrapped w0 hwfc)) as Hh; [|exact (Hh wd Hs)]
  end.
  clear wd H Hn Hl Hs.
  eapply hoare_bind_res;
    [apply (map_planes_wraps mp_image_plane_w mp_image_plane_h pl_vulkan_wrap
              mppl_wrap_tex w0 img0 lay0 n hwfc)| |].
  - intros finished wd (reached & calls & Hpre & Hall & Hs & Hr). simpl in Hs.
    destruct finished.
    + apply (import_wrapped_planes w0 hwfc img0 lay0 n (Ok true) _ _ calls reached);
        try done;
        try (simpl;
             apply (wraps_with_snapshot_priv w0 img0 lay0 n calls
                      (set_p_vkf (planes0 srcimg))); done).
    + apply (import_wrapped_planes w0 hwfc img0 lay0 n (Ok false) _ _ calls reached);
        try done.
      * revert Hs. generalize wd.
        change (stable (wraps_with_snapshot w0 img0 lay0 n calls)
                  (mapper_unmap pl_vulkan_hold_ex ;;; ret (-1))).
        apply stable_bind; [|intros; apply stable_ret].
        apply stable_mapper_unmap with (allowed := not_wrap) (good := keeps_snapshot);
          auto using wraps_with_snapshot_emit, wraps_with_snapshot_priv,
                     wraps_with_snapshot_m_tex, wraps_with_snapshot_store; done.
      * intros Hr0. by apply unmap_result_not_success in Hr0.
  - intros f wd (reached & calls & Hpre & Hall & Hs & Hr). simpl in Hs.
    by apply (import_wrapped_planes w0 hwfc img0 lay0 n (Fault f) _ _ calls reached).
Qed.

End WrapsOfMap.

(** ** The texture slots after Export *)

Section Clearing.

Import Protocol.
Local Open Scope prog_scope.

Variable pl_vulkan_hold_ex : pl_vulkan_hold_params -> bool * Z.

Lemma bind_ok_inv {A B} (m : M A) (k : A -> M B) wd b wd' :
  bind m k wd = (Ok b, wd') ->
  exists a wd1, m wd = (Ok a, wd1) /\ k a wd1 = (Ok b, wd').
Proof.
  unfold bind. destruct (m wd) as [[a|f] wd1]; [|done]. intros H. by exists a, wd1.
Qed.

Lemma hold_body_clears np ni rsv i t st wd st' wd' pre rest :
  hold_body pl_vulkan_hold_ex np ni rsv i t st wd = (Ok st', wd') ->
  p_tex (m_priv (mapper wd)) = pre ++ Some t :: rest ->
  length pre = i ->
  p_tex (m_priv (mapper wd')) = pre ++ None :: rest.
Proof.
  intros Hrun Htex Hlen. unfold hold_body in Hrun.
  apply bind_ok_inv in Hrun as (seen & wd1 & H1 & Hrun).
  unfold lift in H1. simplify_eq.
  apply bind_ok_inv in Hrun as (st1 & wd2 & H2 & Hrun).
  assert (p_tex (m_priv (mapper wd2)) = p_tex (m_priv (mapper wd1))) as Hsame.
  { destruct seen; cbv iota in H2.
    - unfold ret in H2. by inversion H2.
    - unfold bind, get_priv, lift, emit, ret in H2.
      repeat case_match; by inversion H2. }
  unfold bind, get_priv, lift, update_priv, ret in Hrun.
  match type of Hrun with
  | context [write_idx ?l0 ?i0 ?x0] =>
      destruct (write_idx l0 i0 x0) as [l|] eqn:Hw; [|done]
  end.
  apply write_idx_ok in Hw as [_ ->]. inversion Hrun; subst. simpl.
  rewrite Hsame, Htex.
  rewrite insert_app_r_alt by lia.
  by replace (length pre - length pre)%nat with 0%nat by lia.
Qed.

Lemma hold_loop_clears np ni rsv texs : forall i st wd st' wd' pre,
  while_tex texs i (hold_body pl_vulkan_hold_ex np ni rsv) st wd = (Ok st', wd') ->
  p_tex (m_priv (mapper wd)) = pre ++ texs ->
  length pre = i ->
  exists ts rest,
    texs = (Some <$> ts) ++ None :: rest /\
    p_tex (m_priv (mapper wd')) = pre ++ replicate (length ts) None ++ None :: rest.
Proof.
  induction texs as [|[t|] texs IH]; intros i st wd st' wd' pre Hrun Htex Hlen;
    simpl in Hrun.
  - done.
  - apply bind_ok_inv in Hrun as (st1 & wd1 & Hbody & Hrun).
    pose proof (hold_body_clears _ _ _ _ _ _ _ _ _ _ _ Hbody Htex Hlen) as Htex1.
    destruct (IH (S i) st1 wd1 st' wd' (pre ++ [None]) Hrun) as (ts & rest & -> & Hfin).
    + by rewrite <- app_assoc.
    + rewrite length_app. simpl. lia.
    + exists (t :: ts), rest. split; [done|].
      rewrite Hfin, <- app_assoc. done.
  - unfold ret in Hrun. inversion Hrun; subst.
    exists [], texs. by split.
Qed.

Lemma leading_textures_unique (ts ts' : list pl_tex) (rest rest' : list (option pl_tex)) :
  (Some <$> ts) ++ None :: rest = (Some <$> ts') ++ None :: rest' ->
  ts = ts' /\ rest = rest'.
Proof.
  revert ts'. induction ts as [|t ts IH]; intros [|t' ts'] H; simpl in H.
  - by simplify_eq.
  - done.
  - done.
  - injection H as -> H. by destruct (IH ts' H) as [-> ->].
Qed.

Variable tex0 : list (option pl_tex).

Definition textures_are (wd : world) : Prop := p_tex (m_priv (mapper wd)) = tex0.

Definition keeps_textures (g : vulkan_mapper_priv -> vulkan_mapper_priv) : Prop :=
  forall p, p_tex (g p) = p_tex p.

Definition any_event (e : event) : Prop := True.

Lemma textures_are_emit e wd :
  any_event e -> textures_are wd ->
  textures_are (mkworld (frames wd) (mapper wd) (trace wd ++ [e])).
Proof. by intros _ H. Qed.

Lemma textures_are_priv g wd :
  keeps_textures g -> textures_are wd ->
  textures_are
    (mkworld (frames wd)
       (mkmapper (m_src (mapper wd)) (m_tex (mapper wd)) (g (m_priv (mapper wd))))
       (trace wd)).
Proof. intros Hg H. unfold textures_are. simpl. by rewrite Hg. Qed.

Lemma textures_are_m_tex l wd :
  textures_are wd ->
  textures_are
    (mkworld (frames wd) (mkmapper (m_src (mapper wd)) l (m_priv (mapper wd)))
       (trace wd)).
Proof. by intros H. Qed.

Lemma textures_are_store a fld i v f l wd :
  any_event (EvFrameStore a fld i v) -> frames wd !! a = Some f ->
  textures_are wd ->
  textures_are
    (mkworld (<[a := field_set fld l f]> (frames wd)) (mapper wd)
       (trace wd ++ [EvFrameStore a fld i v])).
Proof. by intros _ _ H. Qed.

End Clearing.

Ltac textures_tac tex0 :=
  stable_using (textures_are_emit tex0) (textures_are_priv tex0)
               (textures_are_m_tex tex0) (textures_are_store tex0);
  try done.

Section ClearingOfUnmap.

Import Protocol.
Local Open Scope prog_scope.

Variable pl_vulkan_hold_ex : pl_vulkan_hold_params -> bool * Z.

Lemma stable_run {A} (I : world -> Prop) (m : M A) wd r wd' :
  stable I m -> I wd -> m wd = (r, wd') -> I wd'.
Proof. intros Hm HI Hrun. specialize (Hm wd HI). by rewrite Hrun in Hm. Qed.

(** When Export returns on a session whose source image is set, it has
    cleared the texture slot of every plane up to the first empty slot. *)
Lemma mapper_unmap_clears (wd wd' : world) (srcimg : mp_image)
    (ts : list pl_tex) (rest : list (option pl_tex)) :
  m_src (mapper wd) = Some srcimg ->
  p_tex (m_priv (mapper wd)) = (Some <$> ts) ++ None :: rest ->
  mapper_unmap pl_vulkan_hold_ex wd = (Ok tt, wd') ->
  p_tex (m_priv (mapper wd')) = replicate (length ts) None ++ None :: rest.
Proof.
  intros Hsrc Htex Hrun. unfold mapper_unmap in Hrun.
  change (bind get_mapper ?k wd) with (k (mapper wd) wd) in Hrun. cbv beta in Hrun.
  rewrite Hsrc in Hrun.
  remember (p_tex (m_priv (mapper wd))) as tex0 eqn:Htex0.
  assert (textures_are tex0 wd) as H0 by done.
  apply bind_ok_inv in Hrun as (wp & wd1 & Hm & Hrun).
  eapply stable_run in Hm; [|textures_tac tex0|exact H0].
  apply bind_ok_inv in Hrun as ([] & wd2 & He & Hrun).
  eapply stable_run in He; [|textures_tac tex0|exact Hm].
  apply bind_ok_inv in Hrun as (rsv & wd3 & Hr & Hrun).
  eapply stable_run in Hr; [|unfold reserve; textures_tac tex0|exact He].
  apply bind_ok_inv in Hrun as ([] & wd4 & He' & Hrun).
  eapply stable_run in He'; [|textures_tac tex0|exact Hr].
  apply bind_ok_inv in Hrun as (st & wd5 & Hh & Hrun).
  rewrite hold_planes_unfold in Hh.
  destruct (hold_loop_clears _ _ _ _ _ _ _ _ _ _ [] Hh He' eq_refl)
    as (ts' & rest' & Heq & Hfin).
  rewrite Htex in Heq.
  apply leading_textures_unique in Heq as [<- <-].
  simpl in Hfin.
  set (tex1 := replicate (length ts) None ++ None :: rest) in *.
  change (textures_are tex1 wd5) in Hfin.
  change (textures_are tex1 wd').
  eapply stable_run; [|exact Hfin|exact Hrun].
  unfold commit. textures_tac tex1.
Qed.

End ClearingOfUnmap.

(** ** The snapshot taken by Import *)

Section Snapshot.

Import Protocol.
Local Open Scope prog_scope.

Variable a : addr.
Variable f : AVVkFrame.

Lemma load_ok_inv fld i wd x wd1 :
  load (Some a) fld i wd = (Ok x, wd1) ->
  wd1 = wd /\ exists f', frames wd !! a = Some f' /\ field_get fld f' !! i = Some x.
Proof.
  unfold load, read_idx. destruct (frames wd !! a) as [f'|]; [|done].
  destruct (field_get fld f' !! i) as [y|] eqn:Hy; [|done].
  intros H. inversion H; subst. split; [done|]. by exists f'.
Qed.

Lemma copy_entry_run fld i get set wd wd' :
  frames wd !! a = Some f ->
  copy_entry (Some a) fld i get set wd = (Ok tt, wd') ->
  exists x,
    field_get fld f !! i = Some x /\
    (i < length (get (m_priv (mapper wd))))%nat /\
    wd' = mkworld (frames wd)
            (mkmapper (m_src (mapper wd)) (m_tex (mapper wd))
               (set (<[i := x]> (get (m_priv (mapper wd)))) (m_priv (mapper wd))))
            (trace wd).
Proof.
  intros Hf Hrun. unfold copy_entry in Hrun.
  apply bind_ok_inv in Hrun as (x & wd1 & Hl & Hrun).
  apply load_ok_inv in Hl as (-> & f' & Hf' & Hx). simplify_eq.
  unfold bind, get_priv, lift, update_priv in Hrun.
  destruct (write_idx (get (m_priv (mapper wd))) i x) as [l|] eqn:Hw; [|done].
  apply write_idx_ok in Hw as [Hlt ->]. inversion Hrun; subst. by exists x.
Qed.

Lemma snapshot_body_run i wd wd' :
  frames wd !! a = Some f ->
  (copy_entry (Some a) FImg i p_img set_p_img ;;;
   copy_entry (Some a) FLayout i p_img_layout set_p_img_layout ;;;
   copy_entry (Some a) FSem i p_sem set_p_sem ;;;
   copy_entry (Some a) FSemValue i p_sem_value set_p_sem_value) wd = (Ok tt, wd') ->
  only_snapshot_changed wd wd' /\
  session_entry (m_priv (mapper wd')) i = frame_entry f i /\
  is_Some (frame_entry f i) /\
  forall j, j <> i ->
    session_entry (m_priv (mapper wd')) j = session_entry (m_priv (mapper wd)) j.
Proof.
  intros Hf Hrun.
  apply bind_ok_inv in Hrun as ([] & wd1 & H1 & Hrun).
  apply copy_entry_run in H1 as (x1 & Hx1 & Hl1 & ->); [|done].
  apply bind_ok_inv in Hrun as ([] & wd2 & H2 & Hrun).
  apply copy_entry_run in H2 as (x2 & Hx2 & Hl2 & ->); [|done].
  apply bind_ok_inv in Hrun as ([] & wd3 & H3 & Hrun).
  apply copy_entry_run in H3 as (x3 & Hx3 & Hl3 & ->); [|done].
  apply copy_entry_run in Hrun as (x4 & Hx4 & Hl4 & ->); [|done].
  simpl in *. split; [done|].
  unfold session_entry, frame_entry. simpl.
  rewrite Hx1, Hx2, Hx3, Hx4.
  rewrite !list_lookup_insert_eq by done.
  split; [done|]. split; [by eexists|].
  intros j Hj. by rewrite !list_lookup_insert_ne by done.
Qed.

(** The copy loop over the images [s .. s+len-1]. *)
Lemma snapshot_loop_run len : forall s wd wd',
  frames wd !! a = Some f ->
  for_each (seq s len)
    (fun i (_ : unit) =>
       copy_entry (Some a) FImg i p_img set_p_img ;;;
       copy_entry (Some a) FLayout i p_img_layout set_p_img_layout ;;;
       copy_entry (Some a) FSem i p_sem set_p_sem ;;;
       copy_entry (Some a) FSemValue i p_sem_value set_p_sem_value)
    tt wd = (Ok tt, wd') ->
  only_snapshot_changed wd wd' /\
  (forall j, (s <= j < s + len)%nat ->
     session_entry (m_priv (mapper wd')) j = frame_entry f j /\
     is_Some (frame_entry f j)) /\
  (forall j, (j < s)%nat ->
     session_entry (m_priv (mapper wd')) j = session_entry (m_priv (mapper wd)) j).
Proof.
  induction len as [|len IH]; intros s wd wd' Hf Hrun.
  - simpl in Hrun. inversion Hrun; subst. split; [done|]. split; [lia|done].
  - simpl in Hrun. apply bind_ok_inv in Hrun as ([] & wd1 & Hb & Hrun).
    apply snapshot_body_run in Hb as (Hsame & Hi & Hsome & Hother); [|done].
    destruct Hsame as (Hfr & Htr & Hsrc & Htex & Hl & Hv & Ht).
    apply IH in Hrun as (Hsame' & Hin & Hlow); [|by rewrite Hfr].
    destruct Hsame' as (Hfr' & Htr' & Hsrc' & Htex' & Hl' & Hv' & Ht').
    split; [unfold only_snapshot_changed; repeat split; congruence|].
    split.
    + intros j Hj. destruct (decide (j = s)) as [->|Hne].
      * rewrite Hlow by lia. done.
      * apply Hin. lia.
    + intros j Hj. rewrite Hlow by lia. apply Hother. lia.
Qed.

Lemma snapshot_run n wd wd' :
  frames wd !! a = Some f ->
  snapshot (Some a) n wd = (Ok tt, wd') ->
  only_snapshot_changed wd wd' /\
  forall j, (j < Nat.min n 4)%nat ->
    session_entry (m_priv (mapper wd')) j = frame_entry f j /\
    is_Some (frame_entry f j).
Proof.
  intros Hf Hrun. unfold snapshot in Hrun.
  apply snapshot_loop_run in Hrun as (Hsame & Hin & _); [|done].
  split; [done|]. intros j Hj. apply Hin. lia.
Qed.

End Snapshot.

Section SnapshotKept.

Import Protocol.
Local Open Scope prog_scope.

Variable T : list event.
Variable X : list Z * list Z * list Z * list Z * nat.

(** The snapshot arrays and the image count of a session. *)
Definition snap_of (p : vulkan_mapper_priv) : list Z * list Z * list Z * list Z * nat :=
  (p_img p, p_img_layout p, p_sem p, p_sem_value p, p_num_images p).

Definition snapshot_kept (wd : world) : Prop :=
  snap_of (m_priv (mapper wd)) = X /\ exists evs, trace wd = T ++ evs.

Definition keeps_snap (g : vulkan_mapper_priv -> vulkan_mapper_priv) : Prop :=
  forall p, snap_of (g p) = snap_of p.

Definition every_event (e : event) : Prop := True.

Lemma snapshot_kept_emit e wd :
  every_event e -> snapshot_kept wd ->
  snapshot_kept (mkworld (frames wd) (mapper wd) (trace wd ++ [e])).
Proof.
  intros _ [H (evs & Ht)]. split; [done|]. exists (evs ++ [e]). simpl.
  by rewrite Ht, app_assoc.
Qed.

Lemma snapshot_kept_priv g wd :
  keeps_snap g -> snapshot_kept wd ->
  snapshot_kept
    (mkworld (frames wd)
       (mkmapper (m_src (mapper wd)) (m_tex (mapper wd)) (g (m_priv (mapper wd))))
       (trace wd)).
Proof. intros Hg [H Ht]. split; [|done]. simpl. by rewrite Hg. Qed.

Lemma snapshot_kept_m_tex l wd :
  snapshot_kept wd ->
  snapshot_kept
    (mkworld (frames wd) (mkmapper (m_src (mapper wd)) l (m_priv (mapper wd)))
       (trace wd)).
Proof. by intros H. Qed.

Lemma snapshot_kept_store a fld i v f l wd :
  every_event (EvFrameStore a fld i v) -> frames wd !! a = Some f ->
  snapshot_kept wd ->
  snapshot_kept
    (mkworld (<[a := field_set fld l f]> (frames wd)) (mapper wd)
       (trace wd ++ [EvFrameStore a fld i v])).
Proof.
  intros _ _ [H (evs & Ht)]. split; [done|].
  exists (evs ++ [EvFrameStore a fld i v]). simpl. by rewrite Ht, app_assoc.
Qed.

Lemma session_entry_snap p p' j :
  snap_of p = snap_of p' -> session_entry p j = session_entry p' j.
Proof.
  unfold snap_of, session_entry. intros [= H1 H2 H3 H4 _].
  by rewrite H1, H2, H3, H4.
Qed.

End SnapshotKept.

Section SnapshotOfMap.

Import Protocol.
Local Open Scope prog_scope.

Variable pl_vulkan_get : bool.
Variable av_vkfmt_from_pixfmt : Z -> option (list Z).
Variable mp_image_plane_w : Z -> Z -> nat -> Z.
Variable mp_image_plane_h : Z -> Z -> nat -> Z.
Variable pl_vulkan_wrap : pl_vulkan_wrap_params -> option pl_tex.
Variable mppl_wrap_tex : pl_tex -> bool.
Variable pl_vulkan_hold_ex : pl_vulkan_hold_params -> bool * Z.

Lemma count_images_run vkf idxs : forall n wd m wd',
  count_images vkf idxs n wd = (Ok m, wd') ->
  wd' = wd /\ (n <= m <= n + length idxs)%nat.
Proof.
  induction idxs as [|i rest IH]; intros n wd m wd' Hrun; simpl in Hrun.
  - inversion Hrun; subst. split; [done|]. simpl. lia.
  - apply bind_ok_inv in Hrun as (x & wd1 & Hl & Hrun).
    destruct vkf as [a|]; [|done].
    apply load_ok_inv in Hl as (-> & _).
    destruct (x =? VK_NULL_HANDLE).
    + inversion Hrun; subst. split; [done|]. simpl. lia.
    + apply IH in Hrun as [-> Hn]. split; [done|]. simpl. lia.
Qed.

Lemma count_images_frame vkf i rest n wd m wd' :
  count_images vkf (i :: rest) n wd = (Ok m, wd') ->
  exists a f, vkf = Some a /\ frames wd !! a = Some f.
Proof.
  simpl. intros Hrun. apply bind_ok_inv in Hrun as (x & wd1 & Hl & _).
  destruct vkf as [a|]; [|done].
  apply load_ok_inv in Hl as (_ & f & Hf & _). by exists a, f.
Qed.

(** A successful import took the frame lock, copied the entries of the
    frame's leading images into the session, and released the lock before
    doing anything else. *)
Lemma mapper_map_snapshot (wd wd' : world) :
  mapper_map pl_vulkan_get av_vkfmt_from_pixfmt mp_image_plane_w
    mp_image_plane_h pl_vulkan_wrap mppl_wrap_tex pl_vulkan_hold_ex wd = (Ok 0, wd') ->
  exists srcimg a f evs,
    m_src (mapper wd) = Some srcimg /\ planes0 srcimg = Some a /\
    frames wd !! a = Some f /\
    trace wd' = trace wd ++ EvLockFrame (Some a) :: EvUnlockFrame (Some a) :: evs /\
    (p_num_images (m_priv (mapper wd')) <= 4)%nat /\
    forall j, (j < p_num_images (m_priv (mapper wd')))%nat ->
      session_entry (m_priv (mapper wd')) j = frame_entry f j /\
      is_Some (frame_entry f j).
Proof.
  intros Hrun. unfold mapper_map in Hrun.
  destruct pl_vulkan_get;
    [change (negb true) with false in Hrun|change (negb false) with true in Hrun];
    cbv iota in Hrun; [|by unfold ret in Hrun].
  change (bind get_mapper ?k wd) with (k (mapper wd) wd) in Hrun. cbv beta in Hrun.
  destruct (m_src (mapper wd)) as [srcimg|] eqn:Hsrc; [|by unfold raise in Hrun].
  apply bind_ok_inv in Hrun as ([] & w1 & He & Hrun).
  unfold emit in He. inversion He; subst w1; clear He.
  apply bind_ok_inv in Hrun as (n & w2 & Hc & Hrun).
  simpl seq in Hc.
  destruct (count_images_frame _ _ _ _ _ _ _ Hc) as (a & f & Hva & Hf).
  apply count_images_run in Hc as [-> Hn]. simpl in Hn, Hf.
  rewrite Hva in *.
  apply bind_ok_inv in Hrun as ([] & w3 & Hs & Hrun).
  apply (snapshot_run a f) in Hs as [Hsame Hent]; [|done].
  destruct Hsame as (Hfr & Htr & _).
  apply bind_ok_inv in Hrun as ([] & w4 & Hu & Hrun).
  unfold update_priv in Hu. inversion Hu; subst w4; clear Hu.
  apply bind_ok_inv in Hrun as ([] & w5 & He & Hrun).
  unfold emit in He. inversion He; subst w5; clear He.
  simpl in Hrun.
  match type of Hrun with
  | bind get_priv ?k ?w = _ =>
      change (k (m_priv (mapper w)) w = (Ok 0, wd')) in Hrun
  end.
  cbv beta in Hrun.
  apply bind_ok_inv in Hrun as (fin & w6 & Hm & Hrun).
  destruct fin.
  2: { exfalso. apply (unmap_result_not_success pl_vulkan_hold_ex w6).
       by rewrite Hrun. }
  apply bind_ok_inv in Hrun as ([] & w7 & Hu & Hrun).
  unfold update_priv in Hu. inversion Hu; subst w7; clear Hu.
  unfold ret in Hrun. inversion Hrun; subst wd'; clear Hrun.
  eapply (stable_run
            (snapshot_kept
               (trace wd ++ [EvLockFrame (Some a); EvUnlockFrame (Some a)])
               (snap_of (set_p_num_images n (m_priv (mapper w3)))))) in Hm.
  2: { apply stable_map_planes with (allowed := every_event) (good := keeps_snap);
         auto using snapshot_kept_emit, snapshot_kept_priv, snapshot_kept_m_tex,
                    snapshot_kept_store; done. }
  2: { split; [done|]. exists []. simpl. rewrite Htr. simpl.
       by rewrite app_nil_r, <- app_assoc. }
  destruct Hm as [Hsnap (evs & Ht)].
  exists srcimg, a, f, evs. simpl.
  split; [done|]. split; [done|]. split; [done|].
  split; [by rewrite Ht, <- app_assoc|].
  assert (p_num_images (m_priv (mapper w6)) = n) as Hni.
  { unfold snap_of in Hsnap. by simplify_eq. }
  change (p_num_images (set_p_vkf (Some a) (m_priv (mapper w6))))
    with (p_num_images (m_priv (mapper w6))).
  rewrite Hni. split; [lia|].
  intros j Hj.
  destruct (Hent j ltac:(lia)) as [Heq Hsome].
  split; [|done]. rewrite <- Heq.
  transitivity (session_entry (m_priv (mapper w6)) j); [done|].
  transitivity (session_entry (set_p_num_images n (m_priv (mapper w3))) j); [|done].
  by apply session_entry_snap.
Qed.

End SnapshotOfMap.

Section SnapshotSlots.

Import Protocol.
Local Open Scope prog_scope.

Variable pl_vulkan_get : bool.
Variable av_vkfmt_from_pixfmt : Z -> option (list Z).
Variable mp_image_plane_w : Z -> Z -> nat -> Z.
Variable mp_image_plane_h : Z -> Z -> nat -> Z.
Variable pl_vulkan_wrap : pl_vulkan_wrap_params -> option pl_tex.
Variable mppl_wrap_tex : pl_tex -> bool.
Variable pl_vulkan_hold_ex : pl_vulkan_hold_params -> bool * Z.

Lemma snapshot_body_img a f i wd wd' :
  frames wd !! a = Some f ->
  (copy_entry (Some a) FImg i p_img set_p_img ;;;
   copy_entry (Some a) FLayout i p_img_layout set_p_img_layout ;;;
   copy_entry (Some a) FSem i p_sem set_p_sem ;;;
   copy_entry (Some a) FSemValue i p_sem_value set_p_sem_value) wd = (Ok tt, wd') ->
  frames wd' = frames wd /\
  forall j, j <> i ->
    p_img (m_priv (mapper wd')) !! j = p_img (m_priv (mapper wd)) !! j.
Proof.
  intros Hf Hrun.
  apply bind_ok_inv in Hrun as ([] & wd1 & H1 & Hrun).
  apply (copy_entry_run a f) in H1 as (x1 & Hx1 & Hl1 & ->); [|done].
  apply bind_ok_inv in Hrun as ([] & wd2 & H2 & Hrun).
  apply (copy_entry_run a f) in H2 as (x2 & Hx2 & Hl2 & ->); [|done].
  apply bind_ok_inv in Hrun as ([] & wd3 & H3 & Hrun).
  apply (copy_entry_run a f) in H3 as (x3 & Hx3 & Hl3 & ->); [|done].
  apply (copy_entry_run a f) in Hrun as (x4 & Hx4 & Hl4 & ->); [|done].
  simpl. split; [done|].
  intros j Hj. by rewrite list_lookup_insert_ne.
Qed.

(** The copy loop over the images [s .. s+len-1] leaves the other slots of
    [p->img] as they were. *)
Lemma snapshot_loop_img a f len : forall s wd wd',
  frames wd !! a = Some f ->
  for_each (seq s len)
    (fun i (_ : unit) =>
       copy_entry (Some a) FImg i p_img set_p_img ;;;
       copy_entry (Some a) FLayout i p_img_layout set_p_img_layout ;;;
       copy_entry (Some a) FSem i p_sem set_p_sem ;;;
       copy_entry (Some a) FSemValue i p_sem_value set_p_sem_value)
    tt wd = (Ok tt, wd') ->
  forall j, (j < s \/ s + len <= j)%nat ->
    p_img (m_priv (mapper wd')) !! j = p_img (m_priv (mapper wd)) !! j.
Proof.
  induction len as [|len IH]; intros s wd wd' Hf Hrun j Hj.
  - simpl in Hrun. inversion Hrun. by subst.
  - simpl in Hrun. apply bind_ok_inv in Hrun as ([] & wd1 & Hb & Hrun).
    apply (snapshot_body_img a f) in Hb as [Hfr Hother]; [|done].
    rewrite (IH (S s) wd1 wd') by (rewrite ?Hfr; done || lia).
    apply Hother. lia.
Qed.

(** A successful import leaves the slots of [p->img] from the image count
    on as the session had them before. *)
Lemma mapper_map_stale_slots (wd wd' : world) :
  mapper_map pl_vulkan_get av_vkfmt_from_pixfmt mp_image_plane_w
    mp_image_plane_h pl_vulkan_wrap mppl_wrap_tex pl_vulkan_hold_ex wd = (Ok 0, wd') ->
  forall j, (p_num_images (m_priv (mapper wd')) <= j)%nat ->
    p_img (m_priv (mapper wd')) !! j = p_img (m_priv (mapper wd)) !! j.
Proof.
  intros Hrun. unfold mapper_map in Hrun.
  destruct pl_vulkan_get;
    [change (negb true) with false in Hrun|change (negb false) with true in Hrun];
    cbv iota in Hrun; [|by unfold ret in Hrun].
  change (bind get_mapper ?k wd) with (k (mapper wd) wd) in Hrun. cbv beta in Hrun.
  destruct (m_src (mapper wd)) as [srcimg|] eqn:Hsrc; [|by unfold raise in Hrun].
  apply bind_ok_inv in Hrun as ([] & w1 & He & Hrun).
  unfold emit in He. inversion He; subst w1; clear He.
  apply bind_ok_inv in Hrun as (n & w2 & Hc & Hrun).
  simpl seq in Hc.
  destruct (count_images_frame _ _ _ _ _ _ _ Hc) as (a & f & Hva & Hf).
  apply count_images_run in Hc as [-> Hn]. simpl in Hn, Hf.
  rewrite Hva in *.
  apply bind_ok_inv in Hrun as ([] & w3 & Hs & Hrun).
  unfold snapshot in Hs.
  pose proof (fun H => snapshot_loop_img a f _ _ _ _ H Hs) as Hstale.
  specialize (Hstale Hf). simpl in Hstale.
  apply bind_ok_inv in Hrun as ([] & w4 & Hu & Hrun).
  unfold update_priv in Hu. inversion Hu; subst w4; clear Hu.
  apply bind_ok_inv in Hrun as ([] & w5 & He & Hrun).
  unfold emit in He. inversion He; subst w5; clear He.
  simpl in Hrun.
  match type of Hrun with
  | bind get_priv ?k ?w = _ =>
      change (k (m_priv (mapper w)) w = (Ok 0, wd')) in Hrun
  end.
  cbv beta in Hrun.
  apply bind_ok_inv in Hrun as (fin & w6 & Hm & Hrun).
  destruct fin.
  2: { exfalso. apply (unmap_result_not_success pl_vulkan_hold_ex w6).
       by rewrite Hrun. }
  apply bind_ok_inv in Hrun as ([] & w7 & Hu & Hrun).
  unfold update_priv in Hu. inversion Hu; subst w7; clear Hu.
  unfold ret in Hrun. inversion Hrun; subst wd'; clear Hrun.
  eapply (stable_run
            (snapshot_kept (trace w3)
               (snap_of (set_p_num_images n (m_priv (mapper w3)))))) in Hm.
  2: { apply stable_map_planes with (allowed := every_event) (good := keeps_snap);
         auto using snapshot_kept_emit, snapshot_kept_priv, snapshot_kept_m_tex,
                    snapshot_kept_store; done. }
  2: { split; [done|]. exists [ EvUnlockFrame (Some a) ]. done. }
  destruct Hm as [Hsnap _].
  unfold snap_of in Hsnap. simpl in Hsnap.
  injection Hsnap as Himg _ _ _ Hni.
  simpl. rewrite Himg, Hni.
  intros j Hj. apply Hstale. lia.
Qed.

End SnapshotSlots.

(** ** The plane-to-image rule *)

Section PlaneRule.

Import Protocol.
Local Open Scope prog_scope.

Variable pl_vulkan_get : bool.
Variable av_vkfmt_from_pixfmt : Z -> option (list Z).
Variable mp_image_plane_w : Z -> Z -> nat -> Z.
Variable mp_image_plane_h : Z -> Z -> nat -> Z.
Variable pl_vulkan_wrap : pl_vulkan_wrap_params -> option pl_tex.
Variable mppl_wrap_tex : pl_tex -> bool.
Variable pl_vulkan_hold_ex : pl_vulkan_hold_params -> bool * Z.

(** C2, as stated, fails: with three planes over two images the planes
    outnumber the images, and yet plane [i] is wrapped from image [i] with
    the colour aspect (the third from the stale slot 2 of the snapshot). *)
Lemma more_planes_than_images_not_shared :
  let r := ProtocolSamples.import ProtocolSamples.wrap_ok ProtocolSamples.hold_ok
             (ProtocolSamples.world0 ProtocolSamples.frame2 3) in
  let calls := wrap_calls (trace r.2) in
  r.1 = Ok 0 /\
  num_planes (p_layout (m_priv (mapper r.2))) = 3%nat /\
  p_num_images (m_priv (mapper r.2)) = 2%nat /\
  wrap_image <$> calls = [101; 102; 0] /\
  wrap_aspect <$> calls =
    [VK_IMAGE_ASPECT_COLOR_BIT; VK_IMAGE_ASPECT_COLOR_BIT; VK_IMAGE_ASPECT_COLOR_BIT].
Proof. vm_compute. auto. Qed.

(** C2, amended.  For every import, with the session data as the import
    leaves it: the wrap calls are those of planes [0 .. k-1], in order;
    when the session has more than one plane and exactly one image, plane
    [i] is wrapped from image 0 with the aspect of plane [i] (0, 1 or 2)
    and the import of a format with a fourth plane does not succeed; in
    every other case, also with more planes than images, plane [i] is
    wrapped from slot [i] of the image snapshot with the colour aspect; a
    successful import has wrapped every plane, and its snapshot holds the
    frame's image [j] in every slot [j] below the image count and what the
    session held before in the other slots.

    Export applies the same rule to the planes that hold a texture.
    Whatever the session, every release is made for such a plane, on its
    texture and for the image the rule gives.  The first loop marks as
    touched exactly the images the rule gives for those planes.  On a
    mapped session the call returns, a counter is incremented under the
    first lock exactly for the touched images below the image count, every
    touched image is released, no image twice, and each release is made
    for the first plane of its image, with the semaphore of that image and
    the value reserved for it (0 when the image is not below the image
    count). *)
Theorem plane_to_image_rule (wd : world) (srcimg : mp_image) :
  m_src (mapper wd) = Some srcimg ->
  let r := mapper_map pl_vulkan_get av_vkfmt_from_pixfmt mp_image_plane_w
             mp_image_plane_h pl_vulkan_wrap mppl_wrap_tex pl_vulkan_hold_ex wd in
  let p := m_priv (mapper r.2) in
  let np := num_planes (p_layout p) in
  let ni := p_num_images p in
  (exists evs reached,
     trace r.2 = trace wd ++ evs /\
     reached `prefix_of` seq 0 np /\
     Forall2 (wrap_for_plane mp_image_plane_w mp_image_plane_h (p_img p)
                (p_layout p) (hwctx srcimg) ni)
             reached (wrap_calls evs) /\
     (r.1 = Ok 0 -> reached = seq 0 np)) /\
  ((1 < np)%nat -> ni = 1%nat -> (3 < np)%nat -> r.1 <> Ok 0) /\
  (r.1 = Ok 0 ->
   exists a f,
     planes0 srcimg = Some a /\ frames wd !! a = Some f /\ (ni <= 4)%nat /\
     (forall j, (j < ni)%nat ->
        exists x, vkf_img f !! j = Some x /\ p_img p !! j = Some x) /\
     (forall j, (ni <= j)%nat ->
        p_img p !! j = p_img (m_priv (mapper wd)) !! j)) /\
  (forall wd2 : world,
     let p2 := m_priv (mapper wd2) in
     exists evs,
       trace (mapper_unmap pl_vulkan_hold_ex wd2).2 = trace wd2 ++ evs /\
       Forall (fun prm => exists i t,
                 p_tex p2 !! i = Some (Some t) /\
                 hold_tex prm = t /\
                 hold_out_layout prm =
                   if decide (1 < num_planes (p_layout p2) /\
                              p_num_images p2 = 1)%nat
                   then 0%nat else i)
              (hold_calls evs)) /\
  (forall (np2 ni2 : nat) (ts : list pl_tex) (rest : list (option pl_tex))
          (wd2 : world),
     (length ts <= 4)%nat ->
     exists will_process,
       mark_touched np2 ni2 ((Some <$> ts) ++ None :: rest) wd2 =
         (Ok will_process, wd2) /\
       forall i, will_process !! i = Some true <->
                 exists j, (j < length ts)%nat /\ image_of_plane np2 ni2 j = i) /\
  (forall (wd2 : world) (a : addr) (f : AVVkFrame) (src2 : mp_image)
          (ts : list pl_tex) (rest : list (option pl_tex)),
     let p2 := m_priv (mapper wd2) in
     let np2 := num_planes (p_layout p2) in
     let ni2 := p_num_images p2 in
     m_src (mapper wd2) = Some src2 ->
     p_vkf p2 = Some a ->
     frames wd2 !! a = Some f ->
     p_tex p2 = (Some <$> ts) ++ None :: rest ->
     (length ts <= 3)%nat ->
     (4 <= length (p_sem p2))%nat ->
     (4 <= length (vkf_sem_value f))%nat ->
     (4 <= length (vkf_layout f))%nat ->
     (4 <= length (vkf_access f))%nat ->
     (np2 <= length (m_tex (mapper wd2)))%nat ->
     exists wd' incr holds commits frees,
       mapper_unmap pl_vulkan_hold_ex wd2 = (Ok tt, wd') /\
       trace wd' =
         trace wd2 ++ [EvLockFrame (Some a)] ++ incr ++ [EvUnlockFrame (Some a)] ++
         holds ++ [EvLockFrame (Some a)] ++ commits ++ [EvUnlockFrame (Some a)] ++
         frees /\
       Forall (fun e => is_store e = true) incr /\
       Forall (fun e => is_hold e = true) holds /\
       Forall (fun e => is_store e = true) commits /\
       Forall (fun e => is_free e = true) frees /\
       NoDup (hold_slots holds) /\
       (forall i, (exists v, EvFrameStore a FSemValue i v ∈ incr) <->
                  (i < Nat.min ni2 4)%nat /\
                  exists j, (j < length ts)%nat /\ image_of_plane np2 ni2 j = i) /\
       (forall j, (j < length ts)%nat ->
                  image_of_plane np2 ni2 j ∈ hold_slots holds) /\
       (forall prm, prm ∈ hold_calls holds ->
          exists j t s,
            ts !! j = Some t /\
            (forall j', (j' < j)%nat ->
               image_of_plane np2 ni2 j' <> image_of_plane np2 ni2 j) /\
            p_sem p2 !! image_of_plane np2 ni2 j = Some s /\
            hold_tex prm = t /\
            hold_out_layout prm = image_of_plane np2 ni2 j /\
            hold_qf prm = VK_QUEUE_FAMILY_IGNORED /\
            hold_sem prm = s /\
            ((image_of_plane np2 ni2 j < Nat.min ni2 4)%nat ->
             exists v, vkf_sem_value f !! image_of_plane np2 ni2 j = Some v /\
                       hold_value prm = wrap64 (v + 1)) /\
            ((Nat.min ni2 4 <= image_of_plane np2 ni2 j)%nat ->
             hold_value prm = 0))).
Proof.
  intros Hsrc r p np ni.
  pose proof (mapper_map_wraps pl_vulkan_get av_vkfmt_from_pixfmt mp_image_plane_w
                mp_image_plane_h pl_vulkan_wrap mppl_wrap_tex pl_vulkan_hold_ex
                wd srcimg Hsrc) as (evs & reached & Ht & Hpre & Hall & Hok).
  assert (forall n m i, image_of_plane n m i = plane_image_index n m i) as Hrule.
  { intros n m i. unfold image_of_plane, plane_image_index.
    rewrite multiplane_decide.
    destruct (decide (1 < n /\ m = 1)%nat);
      [by rewrite bool_decide_eq_true_2|by rewrite bool_decide_eq_false_2]. }
  split;
    [exists evs, reached;
     split; [exact Ht|split; [exact Hpre|split; [exact Hall|exact Hok]]]|].
  split; [|split; [|split; [|split]]].
  - intros Hnp Hni H3 Hr. specialize (Hok Hr). subst reached.
    assert (seq 0 np !! 3%nat = Some 3%nat) as H3'.
    { apply lookup_seq. lia. }
    destruct (Forall2_lookup_l _ _ _ _ _ Hall H3') as (prm & _ & Hrule').
    destruct Hrule' as [Hrule' _].
    rewrite decide_True in Hrule' by done. lia.
  - intros Hr.
    assert (mapper_map pl_vulkan_get av_vkfmt_from_pixfmt mp_image_plane_w
              mp_image_plane_h pl_vulkan_wrap mppl_wrap_tex pl_vulkan_hold_ex wd
            = (Ok 0, r.2)) as Hrun.
    { subst r. destruct (mapper_map _ _ _ _ _ _ _ wd) as [res w']. simpl in *.
      by rewrite Hr. }
    destruct (mapper_map_snapshot _ _ _ _ _ _ _ _ _ Hrun)
      as (srcimg' & a & f & _ & Hsrc' & Hpl & Hf & _ & Hni & Hent).
    rewrite Hsrc in Hsrc'. injection Hsrc' as <-.
    exists a, f. split; [done|]. split; [done|]. split; [exact Hni|]. split.
    + intros j Hj. destruct (Hent j Hj) as [Heq [e He]].
      rewrite He in Heq. unfold session_entry in Heq. unfold frame_entry in He.
      fold p in Heq.
      destruct (vkf_img f !! j) as [x1|]; [|done].
      destruct (vkf_layout f !! j) as [x2|]; [|done].
      destruct (vkf_sem f !! j) as [x3|]; [|done].
      destruct (vkf_sem_value f !! j) as [x4|]; [|done].
      destruct (p_img p !! j) as [y1|]; [|done].
      destruct (p_img_layout p !! j) as [y2|]; [|done].
      destruct (p_sem p !! j) as [y3|]; [|done].
      destruct (p_sem_value p !! j) as [y4|]; [|done].
      exists x1. split; [done|]. by simplify_eq.
    + exact (mapper_map_stale_slots _ _ _ _ _ _ _ _ _ Hrun).
  - intros wd2 p2.
    destruct (mapper_unmap_held_once pl_vulkan_hold_ex wd2) as (evs2 & Ht2 & _ & Hf).
    exists evs2. split; [done|].
    eapply Forall_impl; [exact Hf|].
    intros prm (i & t & Hi & Htex & Hslot). exists i, t.
    split; [done|]. split; [done|].
    rewrite Hslot. symmetry. apply Hrule.
  - intros np2 ni2 ts rest wd2 Hlen.
    destruct (mark_touched_run np2 ni2 ts rest wd2 Hlen) as (wp & Hrun & _ & Hwp).
    exists wp. split; [done|].
    intros i. rewrite Hwp. by setoid_rewrite Hrule.
  - intros wd2 a f src2 ts rest p2 np2 ni2 H1 H2 H3 H4 H5 H6 H7 H8 H9 H10.
    destruct (export_touches pl_vulkan_hold_ex wd2 a f src2 ts rest
                H1 H2 H3 H4 H5 H6 H7 H8 H9 H10)
      as (wd' & incr & holds & commits & frees & Hrun & Htr & Hi & Hh & Hc & Hfr &
          Hnd & Hst & Hsl & Hcl).
    exists wd', incr, holds, commits, frees.
    do 7 (split; [done|]).
    setoid_rewrite Hrule. done.
Qed.

End PlaneRule.

Section PlaneRuleWitness.

Import Protocol.

(** The import of a one-image frame by a three-plane session, and the
    Export of the session it leaves. *)
Lemma plane_to_image_rule_witness :
  let r := ProtocolSamples.import ProtocolSamples.wrap_ok ProtocolSamples.hold_ok
             (ProtocolSamples.world0 ProtocolSamples.frame1 3) in
  r.1 = Ok 0 /\
  (exists evs,
     trace r.2 = trace (ProtocolSamples.world0 ProtocolSamples.frame1 3) ++ evs /\
     Forall2 (wrap_for_plane ProtocolSamples.plane_size ProtocolSamples.plane_size
                [101; 0; 0; 0] (ProtocolSamples.layout0 3) ProtocolSamples.hwfc0 1)
             [0; 1; 2]%nat (wrap_calls evs)) /\
  (exists wd' holds,
     mapper_unmap ProtocolSamples.hold_ok r.2 = (Ok tt, wd') /\
     hold_calls holds <> [] /\
     forall prm, prm ∈ hold_calls holds ->
       hold_tex prm = 1010 + VK_IMAGE_ASPECT_PLANE_0_BIT_KHR /\
       hold_out_layout prm = 0%nat /\ hold_sem prm = 201 /\ hold_value prm = 11).
Proof.
  split; [vm_compute; reflexivity|].
  destruct (plane_to_image_rule true ProtocolSamples.fmt_table
              ProtocolSamples.plane_size ProtocolSamples.plane_size
              ProtocolSamples.wrap_ok ProtocolSamples.wrap_tex_ok
              ProtocolSamples.hold_ok
              (ProtocolSamples.world0 ProtocolSamples.frame1 3)
              ProtocolSamples.src0 eq_refl)
    as ((evs & reached & Ht & _ & Hall & Hok) & _ & _ & _ & _ & Hexp).
  split.
  - exists evs. split; [exact Ht|].
    rewrite Hok in Hall by (vm_compute; reflexivity).
    exact Hall.
  - destruct (Hexp (ProtocolSamples.import ProtocolSamples.wrap_ok
                      ProtocolSamples.hold_ok
                      (ProtocolSamples.world0 ProtocolSamples.frame1 3)).2
                5%nat ProtocolSamples.frame1 ProtocolSamples.src0
                [1010 + VK_IMAGE_ASPECT_PLANE_0_BIT_KHR;
                 1010 + VK_IMAGE_ASPECT_PLANE_1_BIT_KHR;
                 1010 + VK_IMAGE_ASPECT_PLANE_2_BIT_KHR] [])
      as (wd' & incr & holds & commits & frees & Hrun & _ & _ & _ & _ & _ &
          _ & _ & Hsl & Hcl).
    + reflexivity.
    + reflexivity.
    + vm_compute. reflexivity.
    + vm_compute. reflexivity.
    + simpl. lia.
    + vm_compute. lia.
    + vm_compute. lia.
    + vm_compute. lia.
    + vm_compute. lia.
    + vm_compute. lia.
    + exists wd', holds. split; [exact Hrun|]. split.
      * intros Hnil. specialize (Hsl 0%nat ltac:(simpl; lia)).
        unfold hold_slots in Hsl. rewrite Hnil in Hsl.
        by apply elem_of_nil in Hsl.
      * intros prm Hin.
        destruct (Hcl prm Hin) as (j & t & s & Hj & Hfirst & Hs & Ht' & Hl & _ & Hs' & Hv & _).
        assert (j = 0%nat) as ->.
        { destruct j as [|j]; [done|]. exfalso.
          apply (Hfirst 0%nat); [lia|reflexivity]. }
        simpl in Hj. injection Hj as <-.
        vm_compute in Hs. injection Hs as <-.
        destruct (Hv ltac:(vm_compute; lia)) as (v & Hv1 & Hv2).
        vm_compute in Hv1. injection Hv1 as <-.
        split; [exact Ht'|]. split; [exact Hl|]. split; [exact Hs'|exact Hv2].
Defined.

End PlaneRuleWitness.

(** ** The size of the wrapped textures *)

Section TextureSize.

Import Protocol.

(** C3, as stated, fails: for a frame of logical size 1920x1080 in a
    frames context of 1920x1088, the texture of plane 0 is wrapped at
    1920x1088. *)
Lemma luma_texture_has_padded_size :
  let wd := ProtocolSamples.world0 ProtocolSamples.frame2 2 in
  let r := ProtocolSamples.import ProtocolSamples.wrap_ok ProtocolSamples.hold_ok wd in
  Protocol.w (p_layout (m_priv (mapper wd))) = 1920 /\
  Protocol.h (p_layout (m_priv (mapper wd))) = 1080 /\
  r.1 = Ok 0 /\
  wrap_width <$> head (wrap_calls (trace r.2)) = Some 1920 /\
  wrap_height <$> head (wrap_calls (trace r.2)) = Some 1088.
Proof. vm_compute. auto. Qed.

Variable pl_vulkan_get : bool.
Variable av_vkfmt_from_pixfmt : Z -> option (list Z).
Variable mp_image_plane_w : Z -> Z -> nat -> Z.
Variable mp_image_plane_h : Z -> Z -> nat -> Z.
Variable pl_vulkan_wrap : pl_vulkan_wrap_params -> option pl_tex.
Variable mppl_wrap_tex : pl_tex -> bool.
Variable pl_vulkan_hold_ex : pl_vulkan_hold_params -> bool * Z.

(** C3, amended.  For a frame whose logical size is 1920x1080 and whose
    frames context is 1920x1088, and a format whose plane 0 has the size of
    the image, the first texture that Import wraps, the one of the luma
    plane, has width 1920 and height 1088: the size of the frames context,
    not the logical size. *)
Theorem luma_plane_wrapped_at_context_size (wd : world) (srcimg : mp_image)
    (evs : list event) (prm : pl_vulkan_wrap_params) :
  m_src (mapper wd) = Some srcimg ->
  Protocol.w (p_layout (m_priv (mapper wd))) = 1920 ->
  Protocol.h (p_layout (m_priv (mapper wd))) = 1080 ->
  hwfc_width (hwctx srcimg) = 1920 ->
  hwfc_height (hwctx srcimg) = 1088 ->
  (forall fmt size, mp_image_plane_w fmt size 0%nat = size) ->
  (forall fmt size, mp_image_plane_h fmt size 0%nat = size) ->
  trace (mapper_map pl_vulkan_get av_vkfmt_from_pixfmt mp_image_plane_w
           mp_image_plane_h pl_vulkan_wrap mppl_wrap_tex pl_vulkan_hold_ex wd).2 =
    trace wd ++ evs ->
  head (wrap_calls evs) = Some prm ->
  wrap_width prm = 1920 /\ wrap_height prm = 1088.
Proof.
  intros Hsrc _ _ Hw Hh Hpw Hph Ht Hhead.
  pose proof (mapper_map_wraps pl_vulkan_get av_vkfmt_from_pixfmt mp_image_plane_w
                mp_image_plane_h pl_vulkan_wrap mppl_wrap_tex pl_vulkan_hold_ex
                wd srcimg Hsrc) as (evs' & reached & Ht' & Hpre & Hall & _).
  cbv zeta in Ht'. rewrite Ht in Ht'. apply app_inv_head in Ht'. subst evs'.
  destruct (wrap_calls evs) as [|prm' calls]; [done|].
  simpl in Hhead. simplify_eq.
  destruct reached as [|i reached]; [by apply Forall2_nil_cons_inv in Hall|].
  apply Forall2_cons in Hall as [Hrule _].
  assert (i = 0%nat) as ->.
  { destruct Hpre as [k Hk].
    destruct (num_planes _) as [|n]; simpl in Hk; [done|]. by simplify_eq. }
  destruct Hrule as (_ & Hwd & Hht & _).
  by rewrite Hwd, Hht, Hpw, Hph, Hw, Hh.
Qed.

End TextureSize.

Section TextureSizeWitness.

Import Protocol.

Lemma luma_plane_wrapped_at_context_size_witness :
  let r := ProtocolSamples.import ProtocolSamples.wrap_ok ProtocolSamples.hold_ok
             (ProtocolSamples.world0 ProtocolSamples.frame2 2) in
  exists prm, head (wrap_calls (trace r.2)) = Some prm /\
              wrap_width prm = 1920 /\ wrap_height prm = 1088.
Proof.
  exists (mkwrap 101 1920 1088 9 7 1). split; [vm_compute; reflexivity|].
  apply (luma_plane_wrapped_at_context_size true ProtocolSamples.fmt_table
           ProtocolSamples.plane_size ProtocolSamples.plane_size
           ProtocolSamples.wrap_ok ProtocolSamples.wrap_tex_ok
           ProtocolSamples.hold_ok
           (ProtocolSamples.world0 ProtocolSamples.frame2 2)
           ProtocolSamples.src0
           (trace (ProtocolSamples.import ProtocolSamples.wrap_ok
                     ProtocolSamples.hold_ok
                     (ProtocolSamples.world0 ProtocolSamples.frame2 2)).2));
    reflexivity.
Defined.

End TextureSizeWitness.

(** ** Export without a recorded native frame *)

Section ExportUnmapped.

Import Protocol.
Local Open Scope prog_scope.

(** A session that never mapped anything ([mapper->src] is NULL): Export
    goes to its [end:] label at once. *)
Lemma export_never_mapped hold (wd : world) :
  m_src (mapper wd) = None ->
  mapper_unmap hold wd = unmap_end wd.
Proof.
  intros Hsrc. unfold mapper_unmap.
  change (bind get_mapper ?k wd) with (k (mapper wd) wd). cbv beta.
  by rewrite Hsrc.
Qed.

(** An import whose second plane cannot be wrapped ends in its own
    unwinding, on the NULL frame pointer. *)
Lemma failed_import_faults :
  let r := ProtocolSamples.import ProtocolSamples.wrap_luma_only
             ProtocolSamples.hold_ok
             (ProtocolSamples.world0 ProtocolSamples.frame2 2) in
  r.1 = Fault NullDeref /\
  p_vkf (m_priv (mapper r.2)) = None /\
  last (trace r.2) = Some (EvLockFrame None).
Proof. vm_compute. auto. Qed.

(** C6 at its failing input.  On a session whose import failed before the
    native frame reference was recorded, Export does not skip the
    bookkeeping: it takes the frame lock on the NULL frame and then
    dereferences that pointer to increment the counter of image 0. *)
Theorem export_without_frame_reference_faults :
  let wd := ProtocolFailures.half_mapped in
  let r := mapper_unmap ProtocolSamples.hold_ok wd in
  p_vkf (m_priv (mapper wd)) = None /\
  r.1 = Fault NullDeref /\
  trace r.2 = [EvLockFrame None] /\
  m_tex (mapper r.2) = [Some 1011; None; None; None].
Proof. vm_compute. auto. Qed.

(** C7 at its failing input.  After a successful import, the first Export
    returns and leaves no native frame reference; the second Export in a
    row is not a no-op: it takes the frame lock on the NULL frame, drops
    it, takes it again and dereferences the NULL pointer to clear the
    access flag of image 0. *)
Theorem second_export_faults :
  let r1 := mapper_unmap ProtocolSamples.hold_ok ProtocolSamples.mapped2 in
  let r2 := mapper_unmap ProtocolSamples.hold_ok r1.2 in
  r1.1 = Ok tt /\
  p_vkf (m_priv (mapper r1.2)) = None /\
  r2.1 = Fault NullDeref /\
  trace r2.2 = trace r1.2 ++
               [EvLockFrame None; EvUnlockFrame None; EvLockFrame None].
Proof. vm_compute. auto. Qed.

End ExportUnmapped.

(** ** A session with four textures *)

Section FourTextures.

Import Protocol.

(** With a texture in each of the four slots, the first texture loop of
    Export reads [p->tex[4]]: nothing is locked, stored or released. *)
Lemma export_four_textures_out_of_bounds hold (wd : world) (srcimg : mp_image)
    (t0 t1 t2 t3 : pl_tex) :
  m_src (mapper wd) = Some srcimg ->
  p_tex (m_priv (mapper wd)) = [Some t0; Some t1; Some t2; Some t3] ->
  mapper_unmap hold wd = (Fault OutOfBounds, wd).
Proof.
  intros Hsrc Htex. unfold mapper_unmap.
  change (bind get_mapper ?k wd) with (k (mapper wd) wd). cbv beta.
  rewrite Hsrc, Htex. unfold mark_touched, plane_image_index.
  by destruct (multiplane _ _).
Qed.

End FourTextures.

(** ** One release per image *)

Section ReleaseOnce.

Import Protocol.

Variable pl_vulkan_hold_ex : pl_vulkan_hold_params -> bool * Z.

Lemma NoDup_constant {A} (x : A) (l : list A) :
  NoDup l -> Forall (fun y => y = x) l -> (length l <= 1)%nat.
Proof.
  intros Hnd Hall. destruct l as [|a [|b l]]; simpl; [lia..|].
  apply Forall_cons in Hall as [-> Hall].
  apply Forall_cons in Hall as [-> _].
  apply NoDup_cons in Hnd as [Hnd _]. exfalso. apply Hnd. by left.
Qed.

(** C9.  Whatever the session, Export issues at most one release call per
    image: the images of its release calls are pairwise distinct.  Every
    release is made on the texture of a plane of the session, for the
    image that plane is mapped to; when several planes share the one
    image, at most one release is issued in all.  When Export returns on a
    session whose source image is set, the texture slot of every plane up
    to the first empty slot is cleared, released or not. *)
Theorem release_once_per_image (wd : world) :
  let p := m_priv (mapper wd) in
  let np := num_planes (p_layout p) in
  let ni := p_num_images p in
  exists evs,
    trace (mapper_unmap pl_vulkan_hold_ex wd).2 = trace wd ++ evs /\
    NoDup (hold_slots evs) /\
    Forall (fun prm => exists i t,
              p_tex p !! i = Some (Some t) /\ hold_tex prm = t /\
              hold_out_layout prm =
                if decide (1 < np /\ ni = 1)%nat then 0%nat else i)
           (hold_calls evs) /\
    ((1 < np)%nat -> ni = 1%nat -> (length (hold_calls evs) <= 1)%nat) /\
    (forall srcimg ts rest,
       m_src (mapper wd) = Some srcimg ->
       p_tex p = (Some <$> ts) ++ None :: rest ->
       (mapper_unmap pl_vulkan_hold_ex wd).1 = Ok tt ->
       p_tex (m_priv (mapper (mapper_unmap pl_vulkan_hold_ex wd).2)) =
         replicate (length ts) None ++ None :: rest).
Proof.
  intros p np ni.
  destruct (mapper_unmap_held_once pl_vulkan_hold_ex wd) as (evs & Ht & Hnd & Hf).
  fold p np ni in Hf.
  assert (Forall (fun prm => exists i t,
              p_tex p !! i = Some (Some t) /\ hold_tex prm = t /\
              hold_out_layout prm =
                if decide (1 < np /\ ni = 1)%nat then 0%nat else i)
            (hold_calls evs)) as Hf'.
  { eapply Forall_impl; [exact Hf|].
    intros prm (i & t & Hi & Htex & Hslot). exists i, t.
    split; [done|]. split; [done|].
    rewrite Hslot. unfold plane_image_index. rewrite multiplane_decide.
    destruct (decide (1 < np /\ ni = 1)%nat);
      [by rewrite bool_decide_eq_true_2|by rewrite bool_decide_eq_false_2]. }
  exists evs. split; [done|]. split; [done|]. split; [done|]. split.
  - intros Hnp Hni.
    rewrite <- (length_fmap hold_out_layout).
    apply (NoDup_constant 0%nat); [exact Hnd|].
    apply Forall_fmap. eapply Forall_impl; [exact Hf'|].
    intros prm (i & t & _ & _ & Hslot). simpl.
    by rewrite decide_True in Hslot.
  - intros srcimg ts rest Hsrc Htex Hok.
    destruct (mapper_unmap pl_vulkan_hold_ex wd) as [[[]|f] wd'] eqn:Hrun; [|done].
    simpl. by eapply mapper_unmap_clears.
Qed.

End ReleaseOnce.

Section ReleaseOnceWitness.

Import Protocol.

Lemma release_once_per_image_witness :
  let wd := (ProtocolSamples.import ProtocolSamples.wrap_ok ProtocolSamples.hold_ok
               (ProtocolSamples.world0 ProtocolSamples.frame1 3)).2 in
  let r := mapper_unmap ProtocolSamples.hold_ok wd in
  p_tex (m_priv (mapper wd)) = [Some 1026; Some 1042; Some 1074; None] /\
  p_num_images (m_priv (mapper wd)) = 1%nat /\
  p_tex (m_priv (mapper r.2)) = [None; None; None; None] /\
  exists evs, trace r.2 = trace wd ++ evs /\ (length (hold_calls evs) <= 1)%nat.
Proof.
  intros wd r.
  destruct (release_once_per_image ProtocolSamples.hold_ok wd)
    as (evs & Ht & _ & _ & Hshared & Hclear).
  split; [vm_compute; reflexivity|]. split; [vm_compute; reflexivity|].
  split.
  - apply (Hclear ProtocolSamples.src0 [1026; 1042; 1074] []);
      vm_compute; reflexivity.
  - exists evs. split; [exact Ht|]. apply Hshared; vm_compute; [lia|reflexivity].
Defined.

End ReleaseOnceWitness.

(** ** Import does not write to the native frame *)

Section ImportReadsOnly.

Import Protocol.

Variable pl_vulkan_get : bool.
Variable av_vkfmt_from_pixfmt : Z -> option (list Z).
Variable mp_image_plane_w : Z -> Z -> nat -> Z.
Variable mp_image_plane_h : Z -> Z -> nat -> Z.
Variable pl_vulkan_wrap : pl_vulkan_wrap_params -> option pl_tex.
Variable mppl_wrap_tex : pl_tex -> bool.
Variable pl_vulkan_hold_ex : pl_vulkan_hold_params -> bool * Z.

(** C10.  An import by a session that holds no native frame (the state in
    which every session starts and to which Export returns it) leaves all
    native frames as they were, whether it succeeds, fails or faults, and
    makes no store into a native frame.  When it succeeds it has taken the
    lock of the source image's native frame and released it again before any
    other call, and the session snapshot holds, for every image counted, the
    image handle, layout, semaphore handle and counter value of that
    frame. *)
Theorem import_never_stores (wd : world) :
  p_vkf (m_priv (mapper wd)) = None ->
  let r := mapper_map pl_vulkan_get av_vkfmt_from_pixfmt mp_image_plane_w
             mp_image_plane_h pl_vulkan_wrap mppl_wrap_tex pl_vulkan_hold_ex
             wd in
  frames r.2 = frames wd /\
  (exists evs, trace r.2 = trace wd ++ evs /\
               Forall (fun e => is_store e = false) evs) /\
  (r.1 = Ok 0 ->
   exists srcimg a f evs,
     m_src (mapper wd) = Some srcimg /\ planes0 srcimg = Some a /\
     frames wd !! a = Some f /\
     trace r.2 = trace wd ++ EvLockFrame (Some a) :: EvUnlockFrame (Some a) :: evs /\
     (p_num_images (m_priv (mapper r.2)) <= 4)%nat /\
     forall j, (j < p_num_images (m_priv (mapper r.2)))%nat ->
       session_entry (m_priv (mapper r.2)) j = frame_entry f j /\
       is_Some (frame_entry f j)).
Proof.
  intros Hv r.
  destruct (mapper_map_quiet pl_vulkan_get av_vkfmt_from_pixfmt mp_image_plane_w
              mp_image_plane_h pl_vulkan_wrap mppl_wrap_tex pl_vulkan_hold_ex wd wd)
    as [Hf Ht].
  { split; [|done]. split; [done|]. exists []. by rewrite app_nil_r. }
  split; [exact Hf|]. split; [exact Ht|].
  intros Hok.
  apply (mapper_map_snapshot pl_vulkan_get av_vkfmt_from_pixfmt mp_image_plane_w
           mp_image_plane_h pl_vulkan_wrap mppl_wrap_tex pl_vulkan_hold_ex).
  fold r. destruct r as [x wd']. simpl in Hok. by rewrite Hok.
Qed.

End ImportReadsOnly.

Section ImportReadsOnlyWitness.

Import Protocol.

Lemma import_never_stores_witness :
  let wd := ProtocolSamples.world0 ProtocolSamples.frame2 2 in
  let r := ProtocolSamples.import ProtocolSamples.wrap_ok ProtocolSamples.hold_ok wd in
  p_vkf (m_priv (mapper wd)) = None /\ r.1 = Ok 0 /\ frames r.2 = frames wd /\
  session_entry (m_priv (mapper r.2)) 1 =
    frame_entry ProtocolSamples.frame2 1.
Proof.
  split; [reflexivity|]. split; [vm_compute; reflexivity|].
  split.
  - exact (proj1 (import_never_stores true ProtocolSamples.fmt_table
                    ProtocolSamples.plane_size ProtocolSamples.plane_size
                    ProtocolSamples.wrap_ok ProtocolSamples.wrap_tex_ok
                    ProtocolSamples.hold_ok
                    (ProtocolSamples.world0 ProtocolSamples.frame2 2) eq_refl)).
  - vm_compute. reflexivity.
Defined.

End ImportReadsOnlyWitness.

(** * Further properties of the device context builder *)

Section BuilderOutcomes.

Import Builder.

Variable api : queue_api.
Variable IMGFMT_VULKAN : Z.
Variable av_hwdevice_ctx_alloc : bool.
Variable talloc_zero : bool.
Variable av_hwdevice_ctx_init : AVVulkanDeviceContext -> Z.

(** X1.  [vulkan_init] reports success without building anything when the
    renderer is not a libplacebo Vulkan context, when no [pl_gpu] can be
    had, or when the device lacks the decode extension: it returns 0, the
    registry, the allocations and the guard pointer are as before. *)
Theorem vulkan_init_probe_failure (hw : ra_hwdec) (st : hw_state) :
  (ra_vk_ctx hw = None \/ ra_pl hw = None \/
   exists vk, ra_vk_ctx hw = Some vk /\
              has_video_decode_queue (extensions vk) = false) ->
  let r := vulkan_init api IMGFMT_VULKAN av_hwdevice_ctx_alloc talloc_zero
             av_hwdevice_ctx_init hw st in
  r.1 = 0 /\ devs r.2 = devs st /\ live r.2 = live st /\
  p_lock_ctx r.2 = p_lock_ctx st /\ p_hwctx r.2 = p_hwctx st.
Proof.
  intros H r. subst r. unfold vulkan_init.
  destruct (ra_vk_ctx hw) as [vk|] eqn:Hvk; [|done].
  destruct (ra_pl hw) as [g|] eqn:Hpl; [|done].
  destruct H as [H|[H|(vk' & Hvk' & Hext)]]; try done.
  simplify_eq. by rewrite Hext.
Qed.

(** X2.  A device is registered exactly when every step of [vulkan_init]
    succeeds: then the return value is 0, the registry gains one entry
    (the driver's name, the device context with this file's queue lock
    hooks, the Vulkan format tag) and [p->hwctx] is that entry.  In every
    other case the registry is as before and the return value is 0 or -1. *)
Theorem vulkan_init_registration (hw : ra_hwdec) (st : hw_state) :
  let r := vulkan_init api IMGFMT_VULKAN av_hwdevice_ctx_alloc talloc_zero
             av_hwdevice_ctx_init hw st in
  (exists vk,
     init_goes_through api av_hwdevice_ctx_alloc talloc_zero av_hwdevice_ctx_init
       hw vk /\ r.1 = 0 /\
     let c := mkhwctx (hw_driver_name hw) (Some (build_device_hwctx api vk))
                IMGFMT_VULKAN in
     devs r.2 = devs st ++ [c] /\ p_hwctx r.2 = c /\
     lock_hooks (build_device_hwctx api vk) = true /\
     p_lock_ctx r.2 = Some vk) \/
  ((forall vk, ~ init_goes_through api av_hwdevice_ctx_alloc talloc_zero
                  av_hwdevice_ctx_init hw vk) /\
   devs r.2 = devs st /\ p_hwctx r.2 = p_hwctx st /\ (r.1 = 0 \/ r.1 = -1)).
Proof.
  intros r. subst r. unfold vulkan_init, init_goes_through.
  destruct (ra_vk_ctx hw) as [vk|] eqn:Hvk.
  2: { right. split; [intros vk (? & _); done|]. auto. }
  destruct (ra_pl hw) as [g|] eqn:Hpl.
  2: { right. split; [intros vk' (_ & ? & _); done|]. auto. }
  destruct (has_video_decode_queue (extensions vk)) eqn:Hext.
  2: { right. split; [intros vk' (? & _ & ? & _); simplify_eq; congruence|].
       simpl. auto. }
  simpl negb. cbv iota.
  destruct (length (phys_device vk) =? 0)%nat eqn:Hlen.
  { right. apply length_zero_iff_nil in Hlen.
    split; [intros vk' (? & _ & _ & ? & _); simplify_eq; congruence|].
    simpl. auto. }
  destruct av_hwdevice_ctx_alloc.
  2: { right. split; [intros vk' (_ & _ & _ & _ & ? & _); done|]. simpl. auto. }
  destruct talloc_zero.
  2: { right. split; [intros vk' (_ & _ & _ & _ & _ & ? & _); done|]. simpl. auto. }
  simpl negb. cbv iota.
  destruct (av_hwdevice_ctx_init (build_device_hwctx api vk) <? 0) eqn:Hinit.
  { right. apply Z.ltb_lt in Hinit.
    split; [intros vk' (? & _ & _ & _ & _ & _ & ?); simplify_eq; lia|].
    simpl. auto. }
  left. exists vk. apply Z.ltb_ge in Hinit.
  split.
  { split; [done|]. split; [done|]. split; [done|].
    split; [|done]. intros Hnil. rewrite Hnil in Hlen. done. }
  simpl. done.
Qed.

(** X3.  Whatever [vulkan_init] returned, [vulkan_uninit] after it leaves
    nothing allocated: the decoder's device context, the queue lock
    context and its mutex are released, the guard pointer and the device
    reference of [p->hwctx] are NULL, and the entry [p->hwctx] is no longer
    in the registry. *)
Theorem vulkan_uninit_releases_all (hw : ra_hwdec) (st : hw_state) :
  live st = [] ->
  p_lock_ctx st = None ->
  let r := vulkan_init api IMGFMT_VULKAN av_hwdevice_ctx_alloc talloc_zero
             av_hwdevice_ctx_init hw st in
  let st' := vulkan_uninit r.2 in
  live st' = [] /\ p_lock_ctx st' = None /\
  av_device_ref (p_hwctx st') = None /\
  (p_hwctx r.2 ∉ devs st') /\
  (forall c, c ∈ devs st' -> c ∈ devs st).
Proof.
  intros Hlive Hlock r st'. subst st' r. unfold vulkan_init.
  destruct st as [dv hc gp lc lv]. simpl in Hlive, Hlock. subst lv lc.
  assert (forall (l : list mp_hwdec_ctx) c, c ∉ filter (fun x => x <> c) l) as Hnot.
  { intros l c. rewrite list_elem_of_filter. tauto. }
  assert (forall (l : list mp_hwdec_ctx) c c',
            c' ∈ filter (fun x => x <> c) l -> c' ∈ l) as Hsub.
  { intros l c c'. rewrite list_elem_of_filter. tauto. }
  assert (forall (l : list mp_hwdec_ctx) c c',
            c' ∈ filter (fun x => x <> c) (l ++ [c]) -> c' ∈ l) as Hsub'.
  { intros l c c'. rewrite list_elem_of_filter, elem_of_app, list_elem_of_singleton.
    tauto. }
  destruct (ra_vk_ctx hw) as [vk|]; [|by cbn; repeat split; eauto].
  destruct (ra_pl hw) as [g|]; [|by cbn; repeat split; eauto].
  destruct (has_video_decode_queue (extensions vk)); [|by cbn; repeat split; eauto].
  simpl negb. cbv iota.
  destruct (length (phys_device vk) =? 0)%nat; [by cbn; repeat split; eauto|].
  destruct av_hwdevice_ctx_alloc; [|by cbn; repeat split; eauto].
  destruct talloc_zero; [|by cbn; repeat split; eauto].
  simpl negb. cbv iota.
  destruct (av_hwdevice_ctx_init (build_device_hwctx api vk) <? 0);
    by cbn; repeat split; eauto.
Qed.

End BuilderOutcomes.

Section BuilderOutcomesWitnesses.

Import Builder.

Lemma vulkan_init_probe_failure_witness :
  let hw := mkhw true "vulkan"%string
              (Some (mkvk BuilderSamples.families3 ["VK_KHR_swapchain"%string] []
                          (mkqueue 0 1) (mkqueue 1 2) (mkqueue 0 1)))
              (Some 1) in
  let r := vulkan_init NewQueueAPI 99 true true BuilderSamples.init_accepts hw
             BuilderSamples.st0 in
  r.1 = 0 /\ devs r.2 = [].
Proof.
  intros hw r.
  destruct (vulkan_init_probe_failure NewQueueAPI 99 true true
              BuilderSamples.init_accepts hw BuilderSamples.st0)
    as (H1 & H2 & _).
  - right. right. eexists. split; reflexivity.
  - exact (conj H1 H2).
Defined.

Lemma vulkan_uninit_releases_all_witness :
  let r := vulkan_init LegacyQueueAPI 99 true true BuilderSamples.init_accepts
             (BuilderSamples.hw_of BuilderSamples.families3) BuilderSamples.st0 in
  r.1 = 0 /\ live r.2 = [ResMutex; ResLockCtx; ResDeviceCtx] /\
  live (vulkan_uninit r.2) = [] /\ devs (vulkan_uninit r.2) = [].
Proof.
  intros r.
  split; [reflexivity|]. split; [reflexivity|].
  split.
  - exact (proj1 (vulkan_uninit_releases_all LegacyQueueAPI 99 true true
                    BuilderSamples.init_accepts
                    (BuilderSamples.hw_of BuilderSamples.families3)
                    BuilderSamples.st0 eq_refl eq_refl)).
  - reflexivity.
Defined.

End BuilderOutcomesWitnesses.

(** ** The queue families handed to the decoder *)

Section QueueAssignment.

Import Builder.

Lemma decode_members_elem families i j q :
  (j, q) ∈ decode_members families i <->
  (i <= j)%nat /\ families !! (j - i)%nat = Some q /\ decode_capable q = true.
Proof.
  split; [apply decode_members_lookup|].
  revert i. induction families as [|a rest IH]; intros i (Hle & Hl & Hc).
  - done.
  - simpl. destruct (decide (j = i)) as [->|Hne].
    + replace (i - i)%nat with 0%nat in Hl by lia. simpl in Hl.
      injection Hl as ->. rewrite Hc. by left.
    + assert ((j, q) ∈ decode_members rest (S i)) as Hin.
      { apply IH. split; [lia|]. split; [|done].
        replace (j - i)%nat with (S (j - S i)) in Hl by lia. done. }
      destruct (decode_capable a); [by right|done].
Qed.

Lemma decode_members_ascending families : forall i k1 k2 m1 m2,
  (k1 < k2)%nat ->
  decode_members families i !! k1 = Some m1 ->
  decode_members families i !! k2 = Some m2 ->
  (m1.1 < m2.1)%nat.
Proof.
  induction families as [|a rest IH]; intros i k1 k2 m1 m2 Hlt H1 H2; [done|].
  simpl in H1, H2. destruct (decode_capable a); [|by eapply IH].
  destruct k2 as [|k2]; [lia|]. simpl in H2.
  destruct k1 as [|k1].
  - simpl in H1. injection H1 as <-. simpl.
    apply list_elem_of_lookup_2 in H2. destruct m2 as [j q].
    apply decode_members_lookup in H2. simpl. lia.
  - simpl in H1. eapply IH; [|exact H1|exact H2]. lia.
Qed.

Lemma scan_decode_index_app l x i d :
  scan_decode_index (l ++ [x]) i d =
  if decode_capable x then i + Z.of_nat (length l) else scan_decode_index l i d.
Proof.
  revert i d. induction l as [|a l IH]; intros i d; simpl.
  - destruct (decode_capable x); [lia|done].
  - rewrite IH. destruct (decode_capable x); [lia|done].
Qed.

Lemma scan_decode_index_none families i d :
  Forall (fun q => decode_capable q = false) families ->
  scan_decode_index families i d = d.
Proof.
  revert i d. induction families as [|a rest IH]; intros i d Hall; [done|].
  apply Forall_cons in Hall as [Ha Hall]. simpl. rewrite Ha. by apply IH.
Qed.

Lemma scan_decode_index_last families d i q :
  families !! i = Some q -> decode_capable q = true ->
  (forall j q', (i < j)%nat -> families !! j = Some q' -> decode_capable q' = false) ->
  scan_decode_index families 0 d = Z.of_nat i.
Proof.
  revert i q. induction families as [|x l IH] using rev_ind; intros i q Hl Hc Hlast.
  - done.
  - rewrite scan_decode_index_app.
    destruct (decide (i = length l)) as [->|Hne].
    + rewrite list_lookup_middle in Hl by done. injection Hl as ->.
      rewrite Hc. lia.
    + assert (i < length l)%nat as Hlt.
      { apply lookup_lt_Some in Hl. rewrite length_app in Hl. simpl in Hl. lia. }
      rewrite (Hlast (length l) x Hlt) by (by rewrite list_lookup_middle).
      rewrite lookup_app_l in Hl by done.
      apply (IH i q Hl Hc). intros j q' Hj Hq'.
      apply (Hlast j q' Hj). rewrite lookup_app_l; [done|].
      by apply lookup_lt_Some in Hq'.
Qed.

(** X4.  In the build for the newer decoder library the decoder is given the
    renderer's graphics, transfer and compute queues, in this order, then
    one entry for each decode-capable family of the device and for no
    other family, with that family's index, queue count and
    codec-operations mask, in ascending order of the index. *)
Theorem multi_queue_assignment (vk : dmpvk_ctx) :
  exists dec,
    assign_queue_families NewQueueAPI vk =
      MultiQueue
        ([ mkdevqf (q_index (queue_graphics vk)) (q_count (queue_graphics vk))
                   VK_QUEUE_GRAPHICS_BIT 0;
           mkdevqf (q_index (queue_transfer vk)) (q_count (queue_transfer vk))
                   VK_QUEUE_TRANSFER_BIT 0;
           mkdevqf (q_index (queue_compute vk)) (q_count (queue_compute vk))
                   VK_QUEUE_COMPUTE_BIT 0 ] ++ dec) /\
    (forall e, e ∈ dec <->
       exists i q, phys_device vk !! i = Some q /\ decode_capable q = true /\
                   e = mkdevqf (Z.of_nat i) (queueCount q)
                         VK_QUEUE_VIDEO_DECODE_BIT_KHR (videoCodecOperations q)) /\
    (forall k1 k2 e1 e2, (k1 < k2)%nat ->
       dec !! k1 = Some e1 -> dec !! k2 = Some e2 -> idx e1 < idx e2).
Proof.
  exists (decode_entries (phys_device vk) 0). split; [done|].
  change 0 with (Z.of_nat 0). rewrite decode_entries_members. split.
  - intros e. rewrite list_elem_of_fmap. split.
    + intros ([i q] & -> & Hin). apply decode_members_elem in Hin as (_ & Hl & Hc).
      replace (i - 0)%nat with i in Hl by lia. by exists i, q.
    + intros (i & q & Hl & Hc & ->). exists (i, q). split; [done|].
      apply decode_members_elem. replace (i - 0)%nat with i by lia.
      auto with lia.
  - intros k1 k2 e1 e2 Hlt H1 H2.
    rewrite list_lookup_fmap in H1, H2.
    destruct (decode_members (phys_device vk) 0 !! k1) as [m1|] eqn:Hm1; [|done].
    destruct (decode_members (phys_device vk) 0 !! k2) as [m2|] eqn:Hm2; [|done].
    simpl in H1, H2. injection H1 as <-. injection H2 as <-. simpl.
    pose proof (decode_members_ascending _ _ _ _ _ _ Hlt Hm1 Hm2). lia.
Qed.

(** X5.  In the build for the older decoder library the decode family is the
    decode-capable family of the highest index, with that family's queue
    count; a device without a decode-capable family gets decode index -1
    and no decode queue.  The graphics, transfer and compute slots are the
    renderer's. *)
Theorem legacy_queue_assignment (vk : dmpvk_ctx) :
  exists q,
    assign_queue_families LegacyQueueAPI vk = LegacyQueues q /\
    queue_family_index q = q_index (queue_graphics vk) /\
    nb_graphics_queues q = q_count (queue_graphics vk) /\
    queue_family_tx_index q = q_index (queue_transfer vk) /\
    nb_tx_queues q = q_count (queue_transfer vk) /\
    queue_family_comp_index q = q_index (queue_compute vk) /\
    nb_comp_queues q = q_count (queue_compute vk) /\
    (Forall (fun fam => decode_capable fam = false) (phys_device vk) ->
     queue_family_decode_index q = -1 /\ nb_decode_queues q = 0) /\
    (forall i fam,
       phys_device vk !! i = Some fam -> decode_capable fam = true ->
       (forall j fam', (i < j)%nat -> phys_device vk !! j = Some fam' ->
                       decode_capable fam' = false) ->
       queue_family_decode_index q = Z.of_nat i /\
       nb_decode_queues q = queueCount fam).
Proof.
  eexists. split; [reflexivity|]. simpl.
  do 6 (split; [reflexivity|]). split.
  - intros Hall. by rewrite scan_decode_index_none.
  - intros i fam Hl Hc Hlast.
    rewrite (scan_decode_index_last _ _ i fam Hl Hc Hlast).
    split; [done|].
    destruct (0 <=? Z.of_nat i) eqn:Hle; [|apply Z.leb_gt in Hle; lia].
    by rewrite Nat2Z.id, Hl.
Qed.

End QueueAssignment.

Section QueueAssignmentWitness.

Import Builder.

Lemma legacy_queue_assignment_witness :
  exists q,
    assign_queue_families LegacyQueueAPI
      (BuilderSamples.vk_of BuilderSamples.families5) = LegacyQueues q /\
    queue_family_decode_index q = 4 /\ nb_decode_queues q = 2.
Proof.
  destruct (legacy_queue_assignment (BuilderSamples.vk_of BuilderSamples.families5))
    as (q & Hq & _ & _ & _ & _ & _ & _ & _ & Hlast).
  exists q. split; [exact Hq|].
  apply (Hlast 4%nat (mkfamily 32 2 9)); [reflexivity|reflexivity|].
  intros j fam' Hj Hl. apply lookup_lt_Some in Hl. simpl in Hl. lia.
Defined.

End QueueAssignmentWitness.

(** * Further properties of the import/export protocol *)

(** ** What Export leaves alone *)

Section ExportFrameCondition.

Import Protocol.
Local Open Scope prog_scope.

Variable pl_vulkan_hold_ex : pl_vulkan_hold_params -> bool * Z.
Variable w0 : world.

Lemma session_kept_trans p1 p2 p3 :
  session_kept p1 p2 -> session_kept p2 p3 -> session_kept p1 p3.
Proof. unfold session_kept. intuition congruence. Qed.

Lemma export_inv_emit e wd :
  export_event w0 e -> export_inv w0 wd ->
  export_inv w0 (mkworld (frames wd) (mapper wd) (trace wd ++ [e])).
Proof.
  intros He (Hf & Hs & Hsrc & evs & Ht & Hall).
  split; [done|]. split; [done|]. split; [done|].
  exists (evs ++ [e]). simpl. rewrite Ht, <- app_assoc. split; [done|].
  apply Forall_app. split; [done|]. by constructor.
Qed.

Lemma export_inv_priv g wd :
  export_update g -> export_inv w0 wd ->
  export_inv w0
    (mkworld (frames wd)
       (mkmapper (m_src (mapper wd)) (m_tex (mapper wd)) (g (m_priv (mapper wd))))
       (trace wd)).
Proof.
  intros Hg (Hf & Hs & Hsrc & Ht).
  split; [done|]. split; [|done]. simpl.
  eapply session_kept_trans; [exact Hs|apply Hg].
Qed.

Lemma export_inv_m_tex l wd :
  export_inv w0 wd ->
  export_inv w0
    (mkworld (frames wd) (mkmapper (m_src (mapper wd)) l (m_priv (mapper wd)))
       (trace wd)).
Proof. by intros H. Qed.

Lemma export_inv_store a fld i v f l wd :
  export_event w0 (EvFrameStore a fld i v) -> frames wd !! a = Some f ->
  export_inv w0 wd ->
  export_inv w0
    (mkworld (<[a := field_set fld l f]> (frames wd)) (mapper wd)
       (trace wd ++ [EvFrameStore a fld i v])).
Proof.
  intros [Ha Hfld] Hl (Hf & Hs & Hsrc & evs & Ht & Hall).
  split; [|split; [done|split; [done|]]].
  - intros b. simpl. specialize (Hf b).
    destruct (decide (b = a)) as [->|Hne].
    + rewrite lookup_insert_eq. rewrite Hl in Hf.
      inversion Hf as [f0 ? (Hi & Hsm & Hother) Heq|]; subst.
      constructor. split; [|split].
      * rewrite <- Hi. by destruct Hfld as [->|[->| ->]].
      * rewrite <- Hsm. by destruct Hfld as [->|[->| ->]].
      * intros Hne. by destruct Hne.
    + by rewrite lookup_insert_ne.
  - exists (evs ++ [EvFrameStore a fld i v]). simpl. rewrite Ht, <- app_assoc.
    split; [done|]. apply Forall_app. split; [done|]. by constructor.
Qed.

End ExportFrameCondition.

Ltac export_inv_tac w0 :=
  stable_using (export_inv_emit w0) (export_inv_priv w0) (export_inv_m_tex w0)
               (export_inv_store w0).

Section ExportFrameConditionTheorem.

Import Protocol.
Local Open Scope prog_scope.

Variable pl_vulkan_hold_ex : pl_vulkan_hold_params -> bool * Z.

Lemma export_inv_init (w0 : world) : export_inv w0 w0.
Proof.
  split; [|split; [done|split; [done|]]].
  - intros b. destruct (frames w0 !! b); by constructor.
  - exists []. by rewrite app_nil_r.
Qed.

Lemma mapper_unmap_keeps (wd : world) :
  let r := mapper_unmap pl_vulkan_hold_ex wd in
  let v0 := p_vkf (m_priv (mapper wd)) in
  frames_kept v0 (frames wd) (frames r.2) /\
  session_kept (m_priv (mapper wd)) (m_priv (mapper r.2)) /\
  m_src (mapper r.2) = m_src (mapper wd) /\
  exists evs, trace r.2 = trace wd ++ evs /\ Forall (export_store v0) evs.
Proof.
  intros r v0. subst r v0.
  change (export_inv wd (mapper_unmap pl_vulkan_hold_ex wd).2).
  unfold mapper_unmap.
  change (bind get_mapper ?k wd) with (k (mapper wd) wd). cbv beta.
  refine ((_ : stable (export_inv wd) _) wd (export_inv_init wd)).
  unfold unmap_end, ra_tex_free, mark_touched, reserve, hold_planes, commit.
  destruct (m_src (mapper wd)); export_inv_tac wd.
  all: try done.
  all: intros ? Heq; unfold export_event; simpl; split; [by rewrite Heq|tauto].
Qed.

(** X8.  Whatever the session, and whether it returns or faults, Export stores
    only into the native frame the session holds, and there only into the
    counters, the layouts and the access flags: the image and semaphore
    handles of that frame and every other native frame are as before, and
    no frame appears or disappears.  It wraps and destroys no texture, and
    it leaves the session's snapshot arrays, image count, layout and source
    image alone. *)
Theorem export_frame_condition (wd : world) :
  let r := mapper_unmap pl_vulkan_hold_ex wd in
  let v0 := p_vkf (m_priv (mapper wd)) in
  (forall b, Some b <> v0 -> frames r.2 !! b = frames wd !! b) /\
  (forall b f, frames wd !! b = Some f ->
     exists f', frames r.2 !! b = Some f' /\
                vkf_img f' = vkf_img f /\ vkf_sem f' = vkf_sem f) /\
  (forall b, frames wd !! b = None -> frames r.2 !! b = None) /\
  session_kept (m_priv (mapper wd)) (m_priv (mapper r.2)) /\
  m_src (mapper r.2) = m_src (mapper wd) /\
  exists evs, trace r.2 = trace wd ++ evs /\ Forall (export_store v0) evs.
Proof.
  intros r v0.
  destruct (mapper_unmap_keeps wd) as (Hf & Hs & Hsrc & Hev).
  fold r v0 in Hf, Hs, Hsrc, Hev.
  split; [|split; [|split; [|exact (conj Hs (conj Hsrc Hev))]]].
  - intros b Hne. specialize (Hf b).
    inversion Hf as [f f' (_ & _ & Heq) H1 H2|]; [|done].
    by rewrite (Heq Hne).
  - intros b f Hb. specialize (Hf b). rewrite Hb in Hf.
    inversion Hf as [f0 f' (Hi & Hsm & _) H1 H2|]; subst.
    by exists f'.
  - intros b Hb. specialize (Hf b). rewrite Hb in Hf. by inversion Hf.
Qed.

End ExportFrameConditionTheorem.

(** ** Export on a session without source image *)

Section ExportWithoutSource.

Import Protocol.
Local Open Scope prog_scope.

Lemma free_loop_exact len : forall s wd,
  (s + len <= length (m_tex (mapper wd)))%nat ->
  for_each (seq s len) (fun i _ => ra_tex_free i) tt wd =
  (Ok tt,
   mkworld (frames wd)
     (mkmapper (m_src (mapper wd))
        (take s (m_tex (mapper wd)) ++ replicate len None ++
         drop (s + len) (m_tex (mapper wd)))
        (m_priv (mapper wd)))
     (trace wd ++ (EvRaTexFree <$> omap id (take len (drop s (m_tex (mapper wd))))))).
Proof.
  induction len as [|len IH]; intros s wd Hlen.
  - simpl. rewrite Nat.add_0_r, take_drop, app_nil_r.
    by destruct wd as [fr [sr mt pr] tr].
  - destruct (lookup_lt_is_Some_2 (m_tex (mapper wd)) s ltac:(lia)) as [t Ht].
    simpl. unfold bind at 1. rewrite (ra_tex_free_run _ _ _ Ht).
    rewrite IH by (simpl; rewrite length_insert; lia).
    simpl. f_equal. f_equal.
    + f_equal.
      rewrite (take_S_r _ _ None)
        by (apply list_lookup_insert_eq; by eapply lookup_lt_Some).
      rewrite take_insert_ge by lia.
      rewrite drop_insert_lt by lia.
      rewrite <- app_assoc. simpl.
      by replace (s + S len)%nat with (S (s + len)) by lia.
    + rewrite <- app_assoc. f_equal.
      rewrite drop_insert_lt by lia.
      rewrite (drop_S _ _ _ Ht). simpl.
      by destruct t.
Qed.

Lemma unmap_end_exact wd :
  (num_planes (p_layout (m_priv (mapper wd))) <= length (m_tex (mapper wd)))%nat ->
  unmap_end wd =
  (Ok tt,
   mkworld (frames wd)
     (mkmapper (m_src (mapper wd))
        (replicate (num_planes (p_layout (m_priv (mapper wd)))) None ++
         drop (num_planes (p_layout (m_priv (mapper wd)))) (m_tex (mapper wd)))
        (set_p_vkf None (m_priv (mapper wd))))
     (trace wd ++
      (EvRaTexFree <$>
         omap id (take (num_planes (p_layout (m_priv (mapper wd))))
                       (m_tex (mapper wd)))))).
Proof.
  intros Hlen. unfold unmap_end.
  change (bind get_priv ?k wd) with (k (m_priv (mapper wd)) wd). cbv beta.
  unfold bind. rewrite (free_loop_exact _ 0 wd Hlen). by rewrite drop_0.
Qed.

(** X9.  Export on a session whose source image is not set (nothing was ever
    imported, or the caller has dropped the image) does not look at the
    native frame reference at all: it frees the renderer textures of the
    first [num_planes] slots, in order, clears those slots and the frame
    reference, and returns.  No lock is taken, no release is issued, the
    session's [pl_tex] slots and every native frame are as before. *)
Theorem export_without_source (hold : pl_vulkan_hold_params -> bool * Z) (wd : world) :
  let p := m_priv (mapper wd) in
  let np := num_planes (p_layout p) in
  m_src (mapper wd) = None ->
  (np <= length (m_tex (mapper wd)))%nat ->
  mapper_unmap hold wd =
  (Ok tt,
   mkworld (frames wd)
     (mkmapper None (replicate np None ++ drop np (m_tex (mapper wd)))
               (set_p_vkf None p))
     (trace wd ++ (EvRaTexFree <$> omap id (take np (m_tex (mapper wd)))))).
Proof.
  intros p np Hsrc Hlen. unfold mapper_unmap.
  change (bind get_mapper ?k wd) with (k (mapper wd) wd). cbv beta.
  rewrite Hsrc, unmap_end_exact by done. by rewrite Hsrc.
Qed.

End ExportWithoutSource.

Section ExportWithoutSourceWitness.

Import Protocol.

Lemma export_without_source_witness :
  let wd := mkworld {[ 5%nat := ProtocolSamples.frame2 ]}
              (mkmapper None [Some 7; None; Some 9; None]
                 (mkpriv (ProtocolSamples.layout0 3) (Some 5%nat)
                    [Some 1011; None; None; None]
                    [101; 102; 0; 0] [1; 2; 0; 0] [201; 202; 0; 0] [10; 20; 0; 0] 2))
              [] in
  let r := mapper_unmap ProtocolSamples.hold_ok wd in
  r.1 = Ok tt /\ frames r.2 = frames wd /\
  m_tex (mapper r.2) = [None; None; None; None] /\
  trace r.2 = [EvRaTexFree 7; EvRaTexFree 9] /\
  p_tex (m_priv (mapper r.2)) = [Some 1011; None; None; None].
Proof.
  intros wd r. subst r.
  rewrite (export_without_source ProtocolSamples.hold_ok wd eq_refl);
    [|simpl; lia].
  repeat split.
Defined.

End ExportWithoutSourceWitness.

(** ** Export on a session that holds no native frame *)

Section ExportNullFrame.

Import Protocol.
Local Open Scope prog_scope.

Variable pl_vulkan_hold_ex : pl_vulkan_hold_params -> bool * Z.

Lemma commit_null_frame ni wp st rsv wd :
  (1 <= ni)%nat -> (commit None ni wp st rsv wd).1 <> Ok tt.
Proof.
  intros Hni Hok.
  destruct (commit None ni wp st rsv wd) as [[[]|flt] wd'] eqn:Hrun; [|done].
  clear Hok. unfold commit in Hrun.
  destruct (Nat.min ni 4) as [|k] eqn:Hk; [lia|].
  simpl in Hrun.
  apply bind_ok_inv in Hrun as ([] & wd1 & Hbody & _).
  apply bind_ok_inv in Hbody as (b & wd2 & _ & Hbody).
  assert (forall (m : M unit) w, (m ;;; store None FAccess 0 0) w <> (Ok tt, wd1)) as H.
  { intros m w Hm. apply bind_ok_inv in Hm as ([] & w' & _ & Hst).
    unfold store in Hst. discriminate Hst. }
  destruct b; by apply H in Hbody.
Qed.

(** Export on a session whose source image is set but which holds no
    native frame, with at least one image counted: the call does not
    return, it dereferences the NULL frame pointer (or faults before). *)
Lemma mapper_unmap_null_frame (wd : world) (srcimg : mp_image) :
  m_src (mapper wd) = Some srcimg ->
  p_vkf (m_priv (mapper wd)) = None ->
  (1 <= p_num_images (m_priv (mapper wd)))%nat ->
  exists flt, (mapper_unmap pl_vulkan_hold_ex wd).1 = Fault flt.
Proof.
  intros Hsrc Hv Hni.
  destruct (mapper_unmap pl_vulkan_hold_ex wd) as [[[]|flt] wd'] eqn:Hrun;
    [|by exists flt].
  exfalso. unfold mapper_unmap in Hrun.
  change (bind get_mapper ?k wd) with (k (mapper wd) wd) in Hrun. cbv beta in Hrun.
  rewrite Hsrc, Hv in Hrun.
  apply bind_ok_inv in Hrun as (wp & wd1 & _ & Hrun).
  apply bind_ok_inv in Hrun as ([] & wd2 & _ & Hrun).
  apply bind_ok_inv in Hrun as (rsv & wd3 & _ & Hrun).
  apply bind_ok_inv in Hrun as ([] & wd4 & _ & Hrun).
  apply bind_ok_inv in Hrun as (st & wd5 & _ & Hrun).
  apply bind_ok_inv in Hrun as ([] & wd6 & _ & Hrun).
  apply bind_ok_inv in Hrun as ([] & wd7 & Hc & _).
  apply (commit_null_frame _ wp st rsv wd6 Hni). by rewrite Hc.
Qed.

End ExportNullFrame.

(** ** An import that fails *)

Section FailedImport.

Import Protocol.
Local Open Scope prog_scope.

Variable pl_vulkan_get : bool.
Variable av_vkfmt_from_pixfmt : Z -> option (list Z).
Variable mp_image_plane_w : Z -> Z -> nat -> Z.
Variable mp_image_plane_h : Z -> Z -> nat -> Z.
Variable pl_vulkan_wrap : pl_vulkan_wrap_params -> option pl_tex.
Variable mppl_wrap_tex : pl_tex -> bool.
Variable pl_vulkan_hold_ex : pl_vulkan_hold_params -> bool * Z.

Variable srcimg : mp_image.
Variable n : nat.

Lemma unwinding_emit e wd :
  all_events e -> unwinding srcimg n wd ->
  unwinding srcimg n (mkworld (frames wd) (mapper wd) (trace wd ++ [e])).
Proof. by intros _ H. Qed.

Lemma unwinding_priv g wd :
  keeps_unwinding g -> unwinding srcimg n wd ->
  unwinding srcimg n
    (mkworld (frames wd)
       (mkmapper (m_src (mapper wd)) (m_tex (mapper wd)) (g (m_priv (mapper wd))))
       (trace wd)).
Proof.
  intros Hg (Hs & Hv & Hn). destruct (Hg (m_priv (mapper wd))) as [Hv' Hn'].
  split; [done|]. simpl. split; congruence.
Qed.

Lemma unwinding_m_tex l wd :
  unwinding srcimg n wd ->
  unwinding srcimg n
    (mkworld (frames wd) (mkmapper (m_src (mapper wd)) l (m_priv (mapper wd)))
       (trace wd)).
Proof. by intros H. Qed.

Lemma unwinding_store a fld i v f l wd :
  all_events (EvFrameStore a fld i v) -> frames wd !! a = Some f ->
  unwinding srcimg n wd ->
  unwinding srcimg n
    (mkworld (<[a := field_set fld l f]> (frames wd)) (mapper wd)
       (trace wd ++ [EvFrameStore a fld i v])).
Proof. by intros _ _ H. Qed.

End FailedImport.

Section FailedImportTheorem.

Import Protocol.
Local Open Scope prog_scope.

Variable pl_vulkan_get : bool.
Variable av_vkfmt_from_pixfmt : Z -> option (list Z).
Variable mp_image_plane_w : Z -> Z -> nat -> Z.
Variable mp_image_plane_h : Z -> Z -> nat -> Z.
Variable pl_vulkan_wrap : pl_vulkan_wrap_params -> option pl_tex.
Variable mppl_wrap_tex : pl_tex -> bool.
Variable pl_vulkan_hold_ex : pl_vulkan_hold_params -> bool * Z.

Lemma count_images_first a f x rest wd m wd' :
  frames wd !! a = Some f -> vkf_img f !! 0%nat = Some x -> x <> VK_NULL_HANDLE ->
  count_images (Some a) (0%nat :: rest) 0 wd = (Ok m, wd') -> (1 <= m)%nat.
Proof.
  intros Hf Hx Hne Hrun. simpl in Hrun.
  apply bind_ok_inv in Hrun as (x' & wd1 & Hl & Hrun).
  apply load_ok_inv in Hl as (-> & f' & Hf' & Hx'). simplify_eq. simpl in Hx'.
  rewrite Hx in Hx'. injection Hx' as <-.
  destruct (x =? VK_NULL_HANDLE) eqn:Hz; [apply Z.eqb_eq in Hz; done|].
  apply count_images_run in Hrun. lia.
Qed.

(** X10.  [mapper_map] returns its error code only when the renderer has no
    Vulkan handle: then it returns -1 at once, with nothing done.  Past
    that check, for a session that holds no native frame and a source
    frame whose first image handle is set, the call either succeeds or
    does not return: every [goto error] ends in [mapper_unmap], which
    dereferences the frame reference that was not recorded yet. *)
Theorem import_error_is_never_returned (wd : world) (srcimg : mp_image)
    (a : addr) (f : AVVkFrame) (x : Z) :
  p_vkf (m_priv (mapper wd)) = None ->
  m_src (mapper wd) = Some srcimg ->
  planes0 srcimg = Some a ->
  frames wd !! a = Some f ->
  vkf_img f !! 0%nat = Some x ->
  x <> VK_NULL_HANDLE ->
  let r := mapper_map pl_vulkan_get av_vkfmt_from_pixfmt mp_image_plane_w
             mp_image_plane_h pl_vulkan_wrap mppl_wrap_tex pl_vulkan_hold_ex wd in
  (pl_vulkan_get = false -> r = (Ok (-1), wd)) /\
  (pl_vulkan_get = true -> r.1 = Ok 0 \/ exists flt, r.1 = Fault flt).
Proof.
  intros Hv Hsrc Hpl Hf Hx Hne r. subst r. split.
  - intros ->. done.
  - intros Hget.
    destruct (mapper_map _ _ _ _ _ _ _ wd) as [[z|flt] wd'] eqn:Hrun;
      [|right; by exists flt].
    left. simpl. f_equal.
    unfold mapper_map in Hrun. rewrite Hget in Hrun.
    change (negb true) with false in Hrun. cbv iota in Hrun.
    change (bind get_mapper ?k wd) with (k (mapper wd) wd) in Hrun.
    cbv beta in Hrun. rewrite Hsrc, Hpl in Hrun.
    apply bind_ok_inv in Hrun as ([] & w1 & He & Hrun).
    unfold emit in He. inversion He; subst w1; clear He.
    apply bind_ok_inv in Hrun as (n & w2 & Hc & Hrun).
    simpl seq in Hc.
    pose proof (fun H => count_images_first a f x _ _ _ _ H Hx Hne Hc) as Hn.
    specialize (Hn Hf).
    apply count_images_run in Hc as [-> _].
    apply bind_ok_inv in Hrun as ([] & w3 & Hs & Hrun).
    apply (snapshot_run a f) in Hs as [Hsame _]; [|done].
    destruct Hsame as (_ & _ & Hsrc3 & _ & _ & Hv3 & _). simpl in Hsrc3, Hv3.
    apply bind_ok_inv in Hrun as ([] & w4 & Hu & Hrun).
    unfold update_priv in Hu. inversion Hu; subst w4; clear Hu.
    apply bind_ok_inv in Hrun as ([] & w5 & He & Hrun).
    unfold emit in He. inversion He; subst w5; clear He.
    simpl in Hrun.
    match type of Hrun with
    | bind get_priv ?k ?w = _ =>
        change (k (m_priv (mapper w)) w = (Ok z, wd')) in Hrun
    end.
    cbv beta in Hrun.
    apply bind_ok_inv in Hrun as (fin & w6 & Hm & Hrun).
    destruct fin.
    { apply bind_ok_inv in Hrun as ([] & w7 & _ & Hrun). by inversion Hrun. }
    exfalso.
    eapply (stable_run (unwinding srcimg n)) in Hm.
    2: { apply stable_map_planes with (allowed := all_events)
                                      (good := keeps_unwinding);
           auto using unwinding_emit, unwinding_priv, unwinding_m_tex,
                      unwinding_store; done. }
    2: { split; [by rewrite <- Hsrc|]. simpl. split; [congruence|done]. }
    destruct Hm as (Hs6 & Hv6 & Hn6).
    apply bind_ok_inv in Hrun as ([] & w7 & Hun & _).
    destruct (mapper_unmap_null_frame pl_vulkan_hold_ex w6 srcimg Hs6 Hv6 ltac:(lia))
      as (flt & Hflt).
    by rewrite Hun in Hflt.
Qed.

End FailedImportTheorem.

Section FailedImportWitness.

Import Protocol.

Lemma import_error_is_never_returned_witness :
  let wd := ProtocolSamples.world0 ProtocolSamples.frame2 2 in
  let r := ProtocolSamples.import ProtocolSamples.wrap_luma_only
             ProtocolSamples.hold_ok wd in
  r.1 = Fault NullDeref /\ (r.1 = Ok 0 \/ exists flt, r.1 = Fault flt).
Proof.
  intros wd r. split; [vm_compute; reflexivity|].
  exact (proj2 (import_error_is_never_returned true ProtocolSamples.fmt_table
                  ProtocolSamples.plane_size ProtocolSamples.plane_size
                  ProtocolSamples.wrap_luma_only ProtocolSamples.wrap_tex_ok
                  ProtocolSamples.hold_ok wd ProtocolSamples.src0 5%nat
                  ProtocolSamples.frame2 101 eq_refl eq_refl eq_refl eq_refl
                  eq_refl ltac:(discriminate)) eq_refl).
Defined.

End FailedImportWitness.

(** ** The state a successful import leaves *)

Section ImportSuccess.

Import Protocol.
Local Open Scope prog_scope.

Variable pl_vulkan_get : bool.
Variable av_vkfmt_from_pixfmt : Z -> option (list Z).
Variable mp_image_plane_w : Z -> Z -> nat -> Z.
Variable mp_image_plane_h : Z -> Z -> nat -> Z.
Variable pl_vulkan_wrap : pl_vulkan_wrap_params -> option pl_tex.
Variable mppl_wrap_tex : pl_tex -> bool.
Variable pl_vulkan_hold_ex : pl_vulkan_hold_params -> bool * Z.

Variable hwfc : AVHWFramesContext.
Variable tbl : option (list Z).
Variable ni : nat.

Lemma lift_ok_inv {A} (r : res A) (x : A) wd wd' :
  lift r wd = (Ok x, wd') -> r = Ok x /\ wd' = wd.
Proof. unfold lift. intros H. by inversion H. Qed.

Lemma read_idx_ok {A} (l : list A) i x : read_idx l i = Ok x -> l !! i = Some x.
Proof. unfold read_idx. destruct (l !! i); intros H; by inversion H. Qed.

Lemma map_planes_cons_ok i rest wd wd' :
  map_planes mp_image_plane_w mp_image_plane_h pl_vulkan_wrap mppl_wrap_tex
    hwfc tbl ni (i :: rest) wd = (Ok true, wd') ->
  exists c,
    plane_mapped pl_vulkan_wrap mppl_wrap_tex ni (m_priv (mapper wd)) i c /\
    (i < length (p_tex (m_priv (mapper wd))))%nat /\
    (i < length (m_tex (mapper wd)))%nat /\
    map_planes mp_image_plane_w mp_image_plane_h pl_vulkan_wrap mppl_wrap_tex
      hwfc tbl ni rest
      (mkworld (frames wd)
         (mkmapper (m_src (mapper wd)) (<[i := Some c.2]> (m_tex (mapper wd)))
            (set_p_tex (<[i := Some c.2]> (p_tex (m_priv (mapper wd))))
               (m_priv (mapper wd))))
         (trace wd ++ plane_calls c)) = (Ok true, wd').
Proof.
  intros Hrun. cbn [map_planes] in Hrun.
  change (bind get_priv ?k wd) with (k (m_priv (mapper wd)) wd) in Hrun.
  cbv beta in Hrun.
  set (p := m_priv (mapper wd)) in *.
  destruct (if multiplane (num_planes (p_layout p)) ni then plane_aspect i
            else Some VK_IMAGE_ASPECT_COLOR_BIT) as [aspect|]; [|done].
  apply bind_ok_inv in Hrun as (image & w1 & Hi & Hrun).
  apply lift_ok_inv in Hi as [Hi%read_idx_ok ->].
  apply bind_ok_inv in Hrun as (fmt & w1 & Hfmt & Hrun).
  assert (w1 = wd) as ->.
  { destruct tbl; [by apply lift_ok_inv in Hfmt as [_ ->]|done]. }
  clear Hfmt.
  set (prm := wrap_params_of mp_image_plane_w mp_image_plane_h p hwfc image fmt
                aspect i) in *.
  apply bind_ok_inv in Hrun as ([] & w1 & He & Hrun).
  unfold emit in He. inversion He; subst w1; clear He.
  apply bind_ok_inv in Hrun as (l & w1 & Hw & Hrun).
  apply lift_ok_inv in Hw as [[Hlt ->]%write_idx_ok ->].
  apply bind_ok_inv in Hrun as ([] & w1 & Hu & Hrun).
  unfold update_priv in Hu. inversion Hu; subst w1; clear Hu.
  destruct (pl_vulkan_wrap prm) as [t|] eqn:Hwrap; [|by inversion Hrun].
  match type of Hrun with
  | bind get_priv ?k ?w = _ =>
      change (k (m_priv (mapper w)) w = (Ok true, wd')) in Hrun
  end.
  cbv beta in Hrun.
  apply bind_ok_inv in Hrun as (lay & w1 & Hlay & Hrun).
  apply lift_ok_inv in Hlay as [Hlay%read_idx_ok ->].
  apply bind_ok_inv in Hrun as (sm & w1 & Hsm & Hrun).
  apply lift_ok_inv in Hsm as [Hsm%read_idx_ok ->].
  apply bind_ok_inv in Hrun as (v & w1 & Hval & Hrun).
  apply lift_ok_inv in Hval as [Hval%read_idx_ok ->].
  apply bind_ok_inv in Hrun as ([] & w1 & He & Hrun).
  unfold emit in He. inversion He; subst w1; clear He.
  apply bind_ok_inv in Hrun as ([] & w1 & He & Hrun).
  unfold emit in He. inversion He; subst w1; clear He.
  destruct (mppl_wrap_tex t) eqn:Hwt.
  2: { apply bind_ok_inv in Hrun as ([] & w1 & _ & Hrun).
       apply bind_ok_inv in Hrun as (p1 & w2 & _ & Hrun).
       apply bind_ok_inv in Hrun as (l1 & w3 & _ & Hrun).
       apply bind_ok_inv in Hrun as ([] & w4 & _ & Hrun).
       by inversion Hrun. }
  match type of Hrun with
  | bind get_mapper ?k ?w = _ =>
      change (k (mapper w) w = (Ok true, wd')) in Hrun
  end.
  cbv beta in Hrun.
  apply bind_ok_inv in Hrun as (l & w1 & Hw & Hrun).
  apply lift_ok_inv in Hw as [[Hlt' ->]%write_idx_ok ->].
  apply bind_ok_inv in Hrun as ([] & w1 & Hu & Hrun).
  unfold update_m_tex in Hu. inversion Hu; subst w1; clear Hu.
  exists (prm, mkrelease t lay VK_QUEUE_FAMILY_IGNORED sm v, t).
  split; [|split; [done|split; [done|]]].
  - split; [done|]. split; [done|]. split; [|done].
    unfold release_of. simpl. done.
  - simpl in Hrun. rewrite <- !app_assoc in Hrun. simpl in Hrun.
    exact Hrun.
Qed.


Lemma map_planes_seq_ok len : forall s wd wd',
  map_planes mp_image_plane_w mp_image_plane_h pl_vulkan_wrap mppl_wrap_tex
    hwfc tbl ni (seq s len) wd = (Ok true, wd') ->
  exists calls,
    length calls = len /\
    (forall k c, calls !! k = Some c ->
       plane_mapped pl_vulkan_wrap mppl_wrap_tex ni (m_priv (mapper wd))
                    (s + k) c) /\
    wd' =
      mkworld (frames wd)
        (mkmapper (m_src (mapper wd))
           (take s (m_tex (mapper wd)) ++ (Some <$> calls.*2) ++
            drop (s + len) (m_tex (mapper wd)))
           (set_p_tex
              (take s (p_tex (m_priv (mapper wd))) ++ (Some <$> calls.*2) ++
               drop (s + len) (p_tex (m_priv (mapper wd))))
              (m_priv (mapper wd))))
        (trace wd ++ concat (plane_calls <$> calls)).
Proof.
  induction len as [|len IH]; intros s wd wd' Hrun.
  - simpl in Hrun. inversion Hrun; subst wd'. exists [].
    split; [done|]. split; [done|]. simpl.
    rewrite Nat.add_0_r, !take_drop, app_nil_r.
    by destruct wd as [fr [sr mt [? ? ? ? ? ? ? ?]] tr].
  - simpl seq in Hrun.
    apply map_planes_cons_ok in Hrun as (c & Hc & Hlt & Hlt' & Hrun).
    apply IH in Hrun as (calls & Hlen & Hcalls & ->).
    exists (c :: calls). split; [by rewrite <- Hlen|]. split.
    + intros [|k] c' Hk.
      * simpl in Hk. injection Hk as <-. by rewrite Nat.add_0_r.
      * simpl in Hk. replace (s + S k)%nat with (S s + k)%nat by lia.
        by apply (Hcalls k c').
    + simpl. unfold set_p_tex. simpl.
      rewrite !(take_S_r _ _ (Some c.2))
        by (apply list_lookup_insert_eq; done).
      rewrite !take_insert_ge by lia.
      rewrite !drop_insert_lt by lia.
      rewrite <- !app_assoc. simpl.
      by replace (s + S len)%nat with (S (s + len)) by lia.
Qed.

End ImportSuccess.

Section ImportSuccessTheorem.

Import Protocol.
Local Open Scope prog_scope.

Variable pl_vulkan_get : bool.
Variable av_vkfmt_from_pixfmt : Z -> option (list Z).
Variable mp_image_plane_w : Z -> Z -> nat -> Z.
Variable mp_image_plane_h : Z -> Z -> nat -> Z.
Variable pl_vulkan_wrap : pl_vulkan_wrap_params -> option pl_tex.
Variable mppl_wrap_tex : pl_tex -> bool.
Variable pl_vulkan_hold_ex : pl_vulkan_hold_params -> bool * Z.

Lemma mapper_map_ok_state (wd wd' : world) :
  mapper_map pl_vulkan_get av_vkfmt_from_pixfmt mp_image_plane_w
    mp_image_plane_h pl_vulkan_wrap mppl_wrap_tex pl_vulkan_hold_ex wd = (Ok 0, wd') ->
  exists srcimg a calls,
    let p := m_priv (mapper wd) in
    let p' := m_priv (mapper wd') in
    let np := num_planes (p_layout p) in
    m_src (mapper wd) = Some srcimg /\ planes0 srcimg = Some a /\
    frames wd' = frames wd /\ m_src (mapper wd') = Some srcimg /\
    p_layout p' = p_layout p /\ p_vkf p' = Some a /\
    length calls = np /\
    p_tex p' = (Some <$> calls.*2) ++ drop np (p_tex p) /\
    m_tex (mapper wd') = (Some <$> calls.*2) ++ drop np (m_tex (mapper wd)) /\
    trace wd' = trace wd ++ [EvLockFrame (Some a); EvUnlockFrame (Some a)] ++
                concat (plane_calls <$> calls) /\
    forall k c, calls !! k = Some c ->
      plane_mapped pl_vulkan_wrap mppl_wrap_tex (p_num_images p') p' k c.
Proof.
  intros Hrun. unfold mapper_map in Hrun.
  destruct pl_vulkan_get;
    [change (negb true) with false in Hrun|change (negb false) with true in Hrun];
    cbv iota in Hrun; [|by unfold ret in Hrun].
  change (bind get_mapper ?k wd) with (k (mapper wd) wd) in Hrun. cbv beta in Hrun.
  destruct (m_src (mapper wd)) as [srcimg|] eqn:Hsrc; [|by unfold raise in Hrun].
  apply bind_ok_inv in Hrun as ([] & w1 & He & Hrun).
  unfold emit in He. inversion He; subst w1; clear He.
  apply bind_ok_inv in Hrun as (n & w2 & Hc & Hrun).
  simpl seq in Hc.
  destruct (count_images_frame _ _ _ _ _ _ _ Hc) as (a & f & Hva & Hf).
  apply count_images_run in Hc as [-> Hn]. simpl in Hn, Hf.
  rewrite Hva in *.
  apply bind_ok_inv in Hrun as ([] & w3 & Hs & Hrun).
  apply (snapshot_run a f) in Hs as [Hsame _]; [|done].
  destruct Hsame as (Hfr & Htr & Hsrc3 & Hmt3 & Hlay3 & Hv3 & Htex3).
  simpl in Hfr, Htr, Hsrc3, Hmt3, Hlay3, Hv3, Htex3.
  apply bind_ok_inv in Hrun as ([] & w4 & Hu & Hrun).
  unfold update_priv in Hu. inversion Hu; subst w4; clear Hu.
  apply bind_ok_inv in Hrun as ([] & w5 & He & Hrun).
  unfold emit in He. inversion He; subst w5; clear He.
  simpl in Hrun.
  match type of Hrun with
  | bind get_priv ?k ?w = _ =>
      change (k (m_priv (mapper w)) w = (Ok 0, wd')) in Hrun
  end.
  cbv beta in Hrun.
  apply bind_ok_inv in Hrun as (fin & w6 & Hm & Hrun).
  destruct fin.
  2: { exfalso. apply (unmap_result_not_success pl_vulkan_hold_ex w6).
       by rewrite Hrun. }
  apply bind_ok_inv in Hrun as ([] & w7 & Hu & Hrun).
  unfold update_priv in Hu. inversion Hu; subst w7; clear Hu.
  unfold ret in Hrun. inversion Hrun; subst wd'; clear Hrun.
  apply map_planes_seq_ok in Hm as (calls & Hlen & Hcalls & ->).
  simpl in Hlen, Hcalls. simpl.
  exists srcimg, a, calls.
  rewrite Hlay3, Hmt3, Htex3, Hsrc3, Htr, Hfr in *.
  do 9 (split; [done|]).
  split; [by rewrite <- !app_assoc|].
  intros k c Hk. exact (Hcalls k c Hk).
Qed.

(** X11.  When [mapper_map] returns 0, every plane of the session's layout has
    been mapped and nothing else was done: the trace is the frame lock and
    unlock followed, plane by plane, by the wrap call, the hand-over of the
    texture to the renderer with the snapshot's layout, semaphore and
    counter value of the plane's image, and the renderer's wrapping of the
    texture.  The first [num_planes] slots of [p->tex] and of
    [mapper->tex] hold the textures, the other slots are as before, the
    frame of the source image is recorded in [p->vkf], at most four images
    were counted, and the native frames are untouched. *)
Theorem import_success_state (wd wd' : world) :
  mapper_map pl_vulkan_get av_vkfmt_from_pixfmt mp_image_plane_w
    mp_image_plane_h pl_vulkan_wrap mppl_wrap_tex pl_vulkan_hold_ex wd = (Ok 0, wd') ->
  exists srcimg a calls,
    let p := m_priv (mapper wd) in
    let p' := m_priv (mapper wd') in
    let np := num_planes (p_layout p) in
    m_src (mapper wd) = Some srcimg /\ planes0 srcimg = Some a /\
    frames wd' = frames wd /\ m_src (mapper wd') = Some srcimg /\
    p_layout p' = p_layout p /\ p_vkf p' = Some a /\
    (p_num_images p' <= 4)%nat /\
    length calls = np /\
    p_tex p' = (Some <$> calls.*2) ++ drop np (p_tex p) /\
    m_tex (mapper wd') = (Some <$> calls.*2) ++ drop np (m_tex (mapper wd)) /\
    trace wd' = trace wd ++ [EvLockFrame (Some a); EvUnlockFrame (Some a)] ++
                concat (plane_calls <$> calls) /\
    forall k c, calls !! k = Some c ->
      plane_mapped pl_vulkan_wrap mppl_wrap_tex (p_num_images p') p' k c.
Proof.
  intros Hrun.
  pose proof (mapper_map_snapshot _ _ _ _ _ _ _ _ _ Hrun)
    as (_ & _ & _ & _ & _ & _ & _ & _ & Hni & _).
  apply mapper_map_ok_state in Hrun
    as (srcimg & a & calls & Hsrc & Hpl & Hfr & Hsrc' & Hlay & Hv & Hlen &
        Htex & Hmt & Htr & Hcalls).
  exists srcimg, a, calls. simpl.
  do 6 (split; [done|]). split; [exact Hni|].
  do 4 (split; [done|]). exact Hcalls.
Qed.

End ImportSuccessTheorem.

Section ImportSuccessWitness.

Import Protocol.

Lemma import_success_state_witness :
  let wd := ProtocolSamples.world0 ProtocolSamples.frame2 2 in
  exists calls,
    p_tex (m_priv (mapper ProtocolSamples.mapped2)) =
      (Some <$> calls.*2) ++ [None; None] /\
    trace ProtocolSamples.mapped2 =
      [EvLockFrame (Some 5%nat); EvUnlockFrame (Some 5%nat)] ++
      concat (plane_calls <$> calls) /\
    length calls = 2%nat.
Proof.
  intros wd.
  destruct (import_success_state true ProtocolSamples.fmt_table
              ProtocolSamples.plane_size ProtocolSamples.plane_size
              ProtocolSamples.wrap_ok ProtocolSamples.wrap_tex_ok
              ProtocolSamples.hold_ok wd ProtocolSamples.mapped2)
    as (srcimg & a & calls & Hsrc & Ha & _ & _ & _ & _ & _ & Hlen & Htex & _ & Htr & _).
  - vm_compute. reflexivity.
  - exists calls. injection Hsrc as <-. injection Ha as <-.
    split; [exact Htex|]. split; [exact Htr|]. exact Hlen.
Defined.

End ImportSuccessWitness.

(** ** The images an import counts *)

Section ImportCount.

Import Protocol.
Local Open Scope prog_scope.

Variable pl_vulkan_get : bool.
Variable av_vkfmt_from_pixfmt : Z -> option (list Z).
Variable mp_image_plane_w : Z -> Z -> nat -> Z.
Variable mp_image_plane_h : Z -> Z -> nat -> Z.
Variable pl_vulkan_wrap : pl_vulkan_wrap_params -> option pl_tex.
Variable mppl_wrap_tex : pl_tex -> bool.
Variable pl_vulkan_hold_ex : pl_vulkan_hold_params -> bool * Z.

Lemma count_images_seq a f len : forall s wd m wd',
  frames wd !! a = Some f ->
  count_images (Some a) (seq s len) s wd = (Ok m, wd') ->
  (s <= m <= s + len)%nat /\
  (forall i, (s <= i < m)%nat ->
     exists x, vkf_img f !! i = Some x /\ x <> VK_NULL_HANDLE) /\
  ((m < s + len)%nat -> vkf_img f !! m = Some VK_NULL_HANDLE).
Proof.
  induction len as [|len IH]; intros s wd m wd' Hf Hrun; simpl in Hrun.
  - inversion Hrun; subst. split; [lia|]. split; intros; lia.
  - apply bind_ok_inv in Hrun as (x & wd1 & Hl & Hrun).
    apply load_ok_inv in Hl as (-> & f' & Hf' & Hx). simplify_eq. simpl in Hx.
    destruct (x =? VK_NULL_HANDLE) eqn:Hz.
    + apply Z.eqb_eq in Hz. subst x. inversion Hrun; subst.
      split; [lia|]. split; [intros; lia|done].
    + apply Z.eqb_neq in Hz.
      apply IH in Hrun as (Hm & Hlead & Hstop); [|done].
      split; [lia|]. split.
      * intros i Hi. destruct (decide (i = s)) as [->|Hne]; [by exists x|].
        apply Hlead. lia.
      * intros Hlt. apply Hstop. lia.
Qed.

Lemma mapper_map_ok_count (wd wd' : world) :
  mapper_map pl_vulkan_get av_vkfmt_from_pixfmt mp_image_plane_w
    mp_image_plane_h pl_vulkan_wrap mppl_wrap_tex pl_vulkan_hold_ex wd = (Ok 0, wd') ->
  exists srcimg a f w1,
    m_src (mapper wd) = Some srcimg /\ planes0 srcimg = Some a /\
    frames wd !! a = Some f /\ frames w1 = frames wd /\
    count_images (Some a) (seq 0 4) 0 w1 =
      (Ok (p_num_images (m_priv (mapper wd'))), w1).
Proof.
  intros Hrun. unfold mapper_map in Hrun.
  destruct pl_vulkan_get;
    [change (negb true) with false in Hrun|change (negb false) with true in Hrun];
    cbv iota in Hrun; [|by unfold ret in Hrun].
  change (bind get_mapper ?k wd) with (k (mapper wd) wd) in Hrun. cbv beta in Hrun.
  destruct (m_src (mapper wd)) as [srcimg|] eqn:Hsrc; [|by unfold raise in Hrun].
  apply bind_ok_inv in Hrun as ([] & w1 & He & Hrun).
  unfold emit in He. inversion He; subst w1; clear He.
  apply bind_ok_inv in Hrun as (n & w2 & Hc & Hrun).
  destruct (count_images_frame _ _ _ _ _ _ _ Hc) as (a & f & Hva & Hf).
  pose proof Hc as Hc'.
  apply count_images_run in Hc' as [-> _]. simpl in Hf.
  rewrite Hva in *.
  apply bind_ok_inv in Hrun as ([] & w3 & Hs & Hrun).
  apply bind_ok_inv in Hrun as ([] & w4 & Hu & Hrun).
  unfold update_priv in Hu. inversion Hu; subst w4; clear Hu.
  apply bind_ok_inv in Hrun as ([] & w5 & He & Hrun).
  unfold emit in He. inversion He; subst w5; clear He.
  simpl in Hrun.
  match type of Hrun with
  | bind get_priv ?k ?w = _ =>
      change (k (m_priv (mapper w)) w = (Ok 0, wd')) in Hrun
  end.
  cbv beta in Hrun.
  apply bind_ok_inv in Hrun as (fin & w6 & Hm & Hrun).
  destruct fin.
  2: { exfalso. apply (unmap_result_not_success pl_vulkan_hold_ex w6).
       by rewrite Hrun. }
  apply bind_ok_inv in Hrun as ([] & w7 & Hu & Hrun).
  unfold update_priv in Hu. inversion Hu; subst w7; clear Hu.
  unfold ret in Hrun. inversion Hrun; subst wd'; clear Hrun.
  apply map_planes_seq_ok in Hm as (calls & _ & _ & ->).
  simpl. eexists srcimg, a, f, _.
  split; [done|]. split; [done|]. split; [done|]. split; [|exact Hc]. done.
Qed.

(** X12.  The image count of a successful import is the number of leading image
    handles of the source frame that are not [VK_NULL_HANDLE], four at
    most: the handles below the count are set, and if fewer than four
    images were counted the handle at the count is [VK_NULL_HANDLE].  So a
    frame whose second handle is NULL is imported as a single image, which
    is what makes a layout of several planes share image 0. *)
Theorem import_counts_leading_images (wd wd' : world) (srcimg : mp_image)
    (a : addr) (f : AVVkFrame) :
  m_src (mapper wd) = Some srcimg ->
  planes0 srcimg = Some a ->
  frames wd !! a = Some f ->
  mapper_map pl_vulkan_get av_vkfmt_from_pixfmt mp_image_plane_w
    mp_image_plane_h pl_vulkan_wrap mppl_wrap_tex pl_vulkan_hold_ex wd = (Ok 0, wd') ->
  let n := p_num_images (m_priv (mapper wd')) in
  (n <= 4)%nat /\
  (forall i, (i < n)%nat ->
     exists x, vkf_img f !! i = Some x /\ x <> VK_NULL_HANDLE) /\
  ((n < 4)%nat -> vkf_img f !! n = Some VK_NULL_HANDLE).
Proof.
  intros Hsrc Hpl Hf Hmap n.
  apply mapper_map_ok_count in Hmap
    as (srcimg' & a' & f' & w1 & Hsrc' & Hpl' & Hf' & Hfr & Hc).
  fold n in Hc. simplify_eq.
  apply (count_images_seq a f) in Hc as (Hn & Hlead & Hstop);
    [|by rewrite Hfr].
  split; [lia|]. split.
  - intros i Hi. apply Hlead. lia.
  - intros Hlt. apply Hstop. lia.
Qed.

End ImportCount.

Section ImportCountWitness.

Import Protocol.

Lemma import_counts_leading_images_witness :
  let wd := ProtocolSamples.world0 ProtocolSamples.frame1 3 in
  let r := ProtocolSamples.import ProtocolSamples.wrap_ok ProtocolSamples.hold_ok wd in
  r.1 = Ok 0 /\ p_num_images (m_priv (mapper r.2)) = 1%nat /\
  vkf_img ProtocolSamples.frame1 !! 1%nat = Some VK_NULL_HANDLE.
Proof.
  intros wd r. split; [vm_compute; reflexivity|]. split; [vm_compute; reflexivity|].
  destruct (import_counts_leading_images true ProtocolSamples.fmt_table
              ProtocolSamples.plane_size ProtocolSamples.plane_size
              ProtocolSamples.wrap_ok ProtocolSamples.wrap_tex_ok
              ProtocolSamples.hold_ok wd r.2 ProtocolSamples.src0 5%nat
              ProtocolSamples.frame1 eq_refl eq_refl eq_refl)
    as (_ & _ & H).
  - vm_compute. reflexivity.
  - apply H. vm_compute. lia.
Defined.

End ImportCountWitness.

(** ** Export returns the session to the unmapped state *)

Section ExportResets.

Import Protocol.
Local Open Scope prog_scope.

Variable pl_vulkan_hold_ex : pl_vulkan_hold_params -> bool * Z.

Ltac four l :=
  let x0 := fresh "x" in let x1 := fresh "x" in
  let x2 := fresh "x" in let x3 := fresh "x" in
  destruct l as [|x0 [|x1 [|x2 [|x3 l]]]]; simpl length in *; try lia.

Ltac eval_step HR Hf Hmode :=
  first
    [ progress cbn in HR
    | progress unfold bind, lift, ret, raise, emit, load, store, get_priv,
        get_mapper, update_priv, update_m_tex, read_idx in HR
    | rewrite Hmode in HR
    | rewrite Hf in HR
    | rewrite lookup_insert_eq in HR
    | rewrite Nat.min_0_r in HR
    | rewrite write_idx_lt in HR by (simpl; lia)
    | match type of HR with
      | context [pl_vulkan_hold_ex ?prm] =>
          let Hh := fresh "Hh" in
          destruct (pl_vulkan_hold_ex prm) as [[] ?] eqn:Hh
      end ].

Ltac eval_unmap Hf Hmode Hnp :=
  match goal with
  | |- context [mapper_unmap ?H ?W] =>
      let R := fresh "R" in
      let HR := fresh "HR" in
      remember (mapper_unmap H W) as R eqn:HR;
      unfold mapper_unmap, mark_touched, reserve, hold_planes, commit,
        plane_image_index in HR;
      repeat eval_step HR Hf Hmode;
      match type of HR with
      | context [unmap_end ?W'] =>
          rewrite (unmap_end_exact W' Hnp) in HR;
          cbn in HR; rewrite ?insert_insert_eq in HR;
          cbn in HR; subst R
      end
  end.

Ltac untouched_tac Hmode :=
  let i := fresh "i" in
  let Hu := fresh "Hu" in
  intros i Hu;
  destruct i as [|[|[|[|i]]]]; cbn;
  first
    [ split; reflexivity
    | exfalso;
      first
        [ apply (Hu 0%nat); [simpl; lia|];
          unfold plane_image_index; rewrite Hmode; reflexivity
        | apply (Hu 1%nat); [simpl; lia|];
          unfold plane_image_index; rewrite Hmode; reflexivity
        | apply (Hu 2%nat); [simpl; lia|];
          unfold plane_image_index; rewrite Hmode; reflexivity ] ].

Ltac access_tac :=
  let i := fresh "i" in
  intros i ?; destruct i as [|[|[|[|i]]]]; cbn in *;
  first [ reflexivity | lia | repeat split; reflexivity ].

Opaque unmap_end wrap64 write_idx multiplane.
Local Arguments mapper_unmap : simpl never.

Lemma mapper_unmap_resets (wd : world) (a : addr) (f : AVVkFrame)
    (srcimg : mp_image) (ts : list pl_tex) (rest : list (option pl_tex)) :
  let p := m_priv (mapper wd) in
  let np := num_planes (p_layout p) in
  let ni := p_num_images p in
  m_src (mapper wd) = Some srcimg ->
  p_vkf p = Some a ->
  frames wd !! a = Some f ->
  p_tex p = (Some <$> ts) ++ None :: rest ->
  (length ts <= 3)%nat ->
  (4 <= length (p_sem p))%nat ->
  (4 <= length (vkf_sem_value f))%nat ->
  (4 <= length (vkf_layout f))%nat ->
  (4 <= length (vkf_access f))%nat ->
  (np <= length (m_tex (mapper wd)))%nat ->
  exists wd' f',
    mapper_unmap pl_vulkan_hold_ex wd = (Ok tt, wd') /\
    frames wd' = <[a := f']> (frames wd) /\
    p_vkf (m_priv (mapper wd')) = None /\
    p_tex (m_priv (mapper wd')) = replicate (length ts) None ++ None :: rest /\
    m_tex (mapper wd') = replicate np None ++ drop np (m_tex (mapper wd)) /\
    (forall i, (i < Nat.min ni 4)%nat -> vkf_access f' !! i = Some 0) /\
    (forall i, (Nat.min ni 4 <= i)%nat ->
       vkf_access f' !! i = vkf_access f !! i /\
       vkf_sem_value f' !! i = vkf_sem_value f !! i /\
       vkf_layout f' !! i = vkf_layout f !! i) /\
    (forall i, (forall j, (j < length ts)%nat -> plane_image_index np ni j <> i) ->
       vkf_sem_value f' !! i = vkf_sem_value f !! i /\
       vkf_layout f' !! i = vkf_layout f !! i).
Proof.
  destruct wd as [fr [src mt [lay vkf texs img il sm sv ni]] trc].
  destruct f as [fimg flay fsem fsv facc].
  cbn.
  intros -> -> Hf -> Hts Hsm Hsv Hlay Hacc Hnp.
  four sm. four fsv. four flay. four facc.
  destruct (multiplane (num_planes lay) ni) eqn:Hmode.
  - apply multiplane_true in Hmode as Hni. subst ni.
    destruct ts as [|t0 [|t1 [|t2 [|t3 ts]]]]; simpl length in *; try lia.
    all: eval_unmap Hf Hmode Hnp.
    all: do 2 eexists.
    all: split; [reflexivity|].
    all: split; [cbn; first [reflexivity | symmetry; apply insert_id; exact Hf]|].
    all: do 3 (split; [reflexivity|]).
    all: split; [access_tac|].
    all: split; [access_tac|].
    all: untouched_tac Hmode.
  - destruct ni as [|[|[|[|ni]]]];
      (destruct ts as [|t0 [|t1 [|t2 [|t3 ts]]]]; simpl length in *; try lia).
    all: eval_unmap Hf Hmode Hnp.
    all: do 2 eexists.
    all: split; [reflexivity|].
    all: split; [cbn; first [reflexivity | symmetry; apply insert_id; exact Hf]|].
    all: do 3 (split; [reflexivity|]).
    all: split; [access_tac|].
    all: split; [access_tac|].
    all: untouched_tac Hmode.
Qed.

Transparent unmap_end wrap64 write_idx multiplane.

(** X13.  Export on a session that holds the native frame at [a], with its
    textures [ts] in the leading slots, returns and leaves the session
    unmapped: the frame reference is NULL, the texture slots of the planes
    are NULL and the renderer textures of the layout's planes are freed,
    while the source image, the layout and the snapshot stay.  In the
    native frame, the access flag of every counted image is 0; the images
    that are not counted, and the counted images that no plane with a
    texture is mapped to, keep their counter and layout; the image and
    semaphore handles are as before. *)
Theorem export_resets_session (wd : world) (a : addr) (f : AVVkFrame)
    (srcimg : mp_image) (ts : list pl_tex) (rest : list (option pl_tex)) :
  let p := m_priv (mapper wd) in
  let np := num_planes (p_layout p) in
  let ni := p_num_images p in
  m_src (mapper wd) = Some srcimg ->
  p_vkf p = Some a ->
  frames wd !! a = Some f ->
  p_tex p = (Some <$> ts) ++ None :: rest ->
  (length ts <= 3)%nat ->
  (4 <= length (p_sem p))%nat ->
  (4 <= length (vkf_sem_value f))%nat ->
  (4 <= length (vkf_layout f))%nat ->
  (4 <= length (vkf_access f))%nat ->
  (np <= length (m_tex (mapper wd)))%nat ->
  exists wd' f',
    mapper_unmap pl_vulkan_hold_ex wd = (Ok tt, wd') /\
    frames wd' = <[a := f']> (frames wd) /\
    m_src (mapper wd') = Some srcimg /\
    session_kept p (m_priv (mapper wd')) /\
    p_vkf (m_priv (mapper wd')) = None /\
    p_tex (m_priv (mapper wd')) = replicate (length ts) None ++ None :: rest /\
    m_tex (mapper wd') = replicate np None ++ drop np (m_tex (mapper wd)) /\
    vkf_img f' = vkf_img f /\ vkf_sem f' = vkf_sem f /\
    (forall i, (i < Nat.min ni 4)%nat -> vkf_access f' !! i = Some 0) /\
    (forall i, (Nat.min ni 4 <= i)%nat ->
       vkf_access f' !! i = vkf_access f !! i /\
       vkf_sem_value f' !! i = vkf_sem_value f !! i /\
       vkf_layout f' !! i = vkf_layout f !! i) /\
    (forall i, (forall j, (j < length ts)%nat -> plane_image_index np ni j <> i) ->
       vkf_sem_value f' !! i = vkf_sem_value f !! i /\
       vkf_layout f' !! i = vkf_layout f !! i).
Proof.
  intros p np ni Hsrc Hv Hf Htex Hts Hsm Hsv Hlay Hacc Hnp.
  destruct (mapper_unmap_resets wd a f srcimg ts rest Hsrc Hv Hf Htex Hts Hsm
              Hsv Hlay Hacc Hnp)
    as (wd' & f' & Hrun & Hfr & Hv' & Htex' & Hmt & Ha & Hrest & Hunt).
  destruct (mapper_unmap_keeps pl_vulkan_hold_ex wd) as (Hkept & Hs & Hsrc' & _).
  rewrite Hrun in Hkept, Hs, Hsrc'. simpl in Hkept, Hs, Hsrc'.
  specialize (Hkept a). rewrite Hf, Hfr, lookup_insert_eq in Hkept.
  inversion Hkept as [f0 f1 (Hi & Hsem & _) H1 H2|]; subst.
  exists wd', f'. split; [done|]. split; [done|]. split; [congruence|].
  split; [done|]. do 3 (split; [done|]). split; [done|]. split; [done|].
  split; [exact Ha|]. split; [exact Hrest|exact Hunt].
Qed.

End ExportResets.

Section ExportResetsWitness.

Import Protocol.

Lemma export_resets_session_witness :
  exists wd' f',
    mapper_unmap ProtocolSamples.hold_fail1 ProtocolSamples.mapped2 = (Ok tt, wd') /\
    frames wd' = <[5%nat := f']> (frames ProtocolSamples.mapped2) /\
    p_vkf (m_priv (mapper wd')) = None /\
    p_tex (m_priv (mapper wd')) = [None; None; None; None] /\
    vkf_access f' !! 0%nat = Some 0 /\ vkf_access f' !! 1%nat = Some 0.
Proof.
  destruct (export_resets_session ProtocolSamples.hold_fail1
              ProtocolSamples.mapped2 5%nat ProtocolSamples.frame2
              ProtocolSamples.src0 [1011; 1021] [None])
    as (wd' & f' & Hrun & Hfr & _ & _ & Hv & Htex & _ & _ & _ & Hacc & _).
  - reflexivity.
  - reflexivity.
  - vm_compute. reflexivity.
  - reflexivity.
  - simpl. lia.
  - vm_compute. lia.
  - vm_compute. lia.
  - vm_compute. lia.
  - vm_compute. lia.
  - vm_compute. lia.
  - exists wd', f'. split; [exact Hrun|]. split; [exact Hfr|].
    split; [exact Hv|]. split; [exact Htex|].
    split; apply Hacc; vm_compute; lia.
Defined.

End ExportResetsWitness.


(** ** Import followed by Export *)

Section SnapshotLengths.

Import Protocol.
Local Open Scope prog_scope.

Variable a : addr.
Variable f : AVVkFrame.

Lemma snapshot_body_sem_length i wd wd' :
  frames wd !! a = Some f ->
  (copy_entry (Some a) FImg i p_img set_p_img ;;;
   copy_entry (Some a) FLayout i p_img_layout set_p_img_layout ;;;
   copy_entry (Some a) FSem i p_sem set_p_sem ;;;
   copy_entry (Some a) FSemValue i p_sem_value set_p_sem_value) wd = (Ok tt, wd') ->
  length (p_sem (m_priv (mapper wd'))) = length (p_sem (m_priv (mapper wd))).
Proof.
  intros Hf Hrun.
  apply bind_ok_inv in Hrun as ([] & wd1 & H1 & Hrun).
  apply (copy_entry_run a f) in H1 as (x1 & Hx1 & Hl1 & ->); [|done].
  apply bind_ok_inv in Hrun as ([] & wd2 & H2 & Hrun).
  apply (copy_entry_run a f) in H2 as (x2 & Hx2 & Hl2 & ->); [|done].
  apply bind_ok_inv in Hrun as ([] & wd3 & H3 & Hrun).
  apply (copy_entry_run a f) in H3 as (x3 & Hx3 & Hl3 & ->); [|done].
  apply (copy_entry_run a f) in Hrun as (x4 & Hx4 & Hl4 & ->); [|done].
  simpl. by rewrite length_insert.
Qed.

Lemma snapshot_loop_sem_length len : forall s wd wd',
  frames wd !! a = Some f ->
  for_each (seq s len)
    (fun i (_ : unit) =>
       copy_entry (Some a) FImg i p_img set_p_img ;;;
       copy_entry (Some a) FLayout i p_img_layout set_p_img_layout ;;;
       copy_entry (Some a) FSem i p_sem set_p_sem ;;;
       copy_entry (Some a) FSemValue i p_sem_value set_p_sem_value)
    tt wd = (Ok tt, wd') ->
  length (p_sem (m_priv (mapper wd'))) = length (p_sem (m_priv (mapper wd))).
Proof.
  induction len as [|len IH]; intros s wd wd' Hf Hrun.
  - simpl in Hrun. inversion Hrun. by subst.
  - simpl in Hrun. apply bind_ok_inv in Hrun as ([] & wd1 & Hb & Hrun).
    pose proof (snapshot_body_sem_length _ _ _ Hf Hb) as Hlen.
    apply (snapshot_body_run a f) in Hb as ((Hfr & _) & _); [|done].
    rewrite <- Hlen. apply (IH (S s) wd1); [by rewrite Hfr|done].
Qed.

Lemma snapshot_sem_length n wd wd' :
  frames wd !! a = Some f ->
  snapshot (Some a) n wd = (Ok tt, wd') ->
  length (p_sem (m_priv (mapper wd'))) = length (p_sem (m_priv (mapper wd))).
Proof. unfold snapshot. apply snapshot_loop_sem_length. Qed.

End SnapshotLengths.

Section RoundTrip.

Import Protocol.
Local Open Scope prog_scope.

Variable pl_vulkan_get : bool.
Variable av_vkfmt_from_pixfmt : Z -> option (list Z).
Variable mp_image_plane_w : Z -> Z -> nat -> Z.
Variable mp_image_plane_h : Z -> Z -> nat -> Z.
Variable pl_vulkan_wrap : pl_vulkan_wrap_params -> option pl_tex.
Variable mppl_wrap_tex : pl_tex -> bool.
Variable pl_vulkan_hold_ex : pl_vulkan_hold_params -> bool * Z.

Lemma mapper_map_ok_sem_length (wd wd' : world) :
  mapper_map pl_vulkan_get av_vkfmt_from_pixfmt mp_image_plane_w
    mp_image_plane_h pl_vulkan_wrap mppl_wrap_tex pl_vulkan_hold_ex wd = (Ok 0, wd') ->
  length (p_sem (m_priv (mapper wd'))) = length (p_sem (m_priv (mapper wd))).
Proof.
  intros Hrun. unfold mapper_map in Hrun.
  destruct pl_vulkan_get;
    [change (negb true) with false in Hrun|change (negb false) with true in Hrun];
    cbv iota in Hrun; [|by unfold ret in Hrun].
  change (bind get_mapper ?k wd) with (k (mapper wd) wd) in Hrun. cbv beta in Hrun.
  destruct (m_src (mapper wd)) as [srcimg|] eqn:Hsrc; [|by unfold raise in Hrun].
  apply bind_ok_inv in Hrun as ([] & w1 & He & Hrun).
  unfold emit in He. inversion He; subst w1; clear He.
  apply bind_ok_inv in Hrun as (n & w2 & Hc & Hrun).
  simpl seq in Hc.
  destruct (count_images_frame _ _ _ _ _ _ _ Hc) as (a & f & Hva & Hf).
  apply count_images_run in Hc as [-> Hn]. simpl in Hn, Hf.
  rewrite Hva in *.
  apply bind_ok_inv in Hrun as ([] & w3 & Hs & Hrun).
  apply (snapshot_sem_length a f) in Hs; [|done]. simpl in Hs.
  apply bind_ok_inv in Hrun as ([] & w4 & Hu & Hrun).
  unfold update_priv in Hu. inversion Hu; subst w4; clear Hu.
  apply bind_ok_inv in Hrun as ([] & w5 & He & Hrun).
  unfold emit in He. inversion He; subst w5; clear He.
  simpl in Hrun.
  match type of Hrun with
  | bind get_priv ?k ?w = _ =>
      change (k (m_priv (mapper w)) w = (Ok 0, wd')) in Hrun
  end.
  cbv beta in Hrun.
  apply bind_ok_inv in Hrun as (fin & w6 & Hm & Hrun).
  destruct fin.
  2: { exfalso. apply (unmap_result_not_success pl_vulkan_hold_ex w6).
       by rewrite Hrun. }
  apply bind_ok_inv in Hrun as ([] & w7 & Hu & Hrun).
  unfold update_priv in Hu. inversion Hu; subst w7; clear Hu.
  unfold ret in Hrun. inversion Hrun; subst wd'; clear Hrun.
  apply map_planes_seq_ok in Hm as (calls & _ & _ & ->).
  simpl. exact Hs.
Qed.

(** X14.  A session with all four texture slots empty and a layout of at most
    three planes, whose import of a frame succeeded: the Export that
    follows returns, whatever the release calls answer, and the session is
    unmapped again.  The frame reference is NULL, the four texture slots
    are empty again, the renderer textures of the planes are freed, and the
    access flags of the counted images are 0. *)
Theorem import_export_round_trip (wd wd1 : world) (srcimg : mp_image)
    (a : addr) (f : AVVkFrame) :
  let p := m_priv (mapper wd) in
  let np := num_planes (p_layout p) in
  m_src (mapper wd) = Some srcimg ->
  planes0 srcimg = Some a ->
  frames wd !! a = Some f ->
  p_tex p = [None; None; None; None] ->
  (np <= 3)%nat ->
  (4 <= length (p_sem p))%nat ->
  (4 <= length (vkf_sem_value f))%nat ->
  (4 <= length (vkf_layout f))%nat ->
  (4 <= length (vkf_access f))%nat ->
  mapper_map pl_vulkan_get av_vkfmt_from_pixfmt mp_image_plane_w
    mp_image_plane_h pl_vulkan_wrap mppl_wrap_tex pl_vulkan_hold_ex wd = (Ok 0, wd1) ->
  exists wd2 f',
    mapper_unmap pl_vulkan_hold_ex wd1 = (Ok tt, wd2) /\
    frames wd2 = <[a := f']> (frames wd) /\
    m_src (mapper wd2) = Some srcimg /\
    p_vkf (m_priv (mapper wd2)) = None /\
    p_tex (m_priv (mapper wd2)) = [None; None; None; None] /\
    m_tex (mapper wd2) = replicate np None ++ drop np (m_tex (mapper wd)) /\
    forall i, (i < p_num_images (m_priv (mapper wd2)))%nat ->
              vkf_access f' !! i = Some 0.
Proof.
  intros p np Hsrc Hpl Hf Htex Hnp Hsem Hsv Hlay Hacc Hmap.
  pose proof (mapper_map_ok_sem_length _ _ Hmap) as Hsem1.
  pose proof Hmap as Hmap'.
  apply mapper_map_ok_state in Hmap
    as (srcimg' & a' & calls & Hsrc' & Hpl' & Hfr1 & Hsrc1 & Hlay1 & Hv1 & Hlen &
        Htex1 & Hmt1 & Htr1 & Hcalls).
  rewrite Hsrc in Hsrc'. injection Hsrc' as <-.
  rewrite Hpl in Hpl'. injection Hpl' as <-.
  fold p np in Hlen, Htex1, Hmt1, Hlay1.
  assert (exists rest, drop np (p_tex p) = None :: rest) as [rest Hrest].
  { rewrite Htex.
    destruct np as [|[|[|[|?]]]]; simpl; try lia; eauto. }
  rewrite Hrest in Htex1.
  destruct (mapper_unmap_resets pl_vulkan_hold_ex wd1 a f srcimg (calls.*2) rest)
    as (wd2 & f' & Hrun & Hfr2 & Hv2 & Htex2 & Hmt2 & Hacc2 & _).
  - done.
  - done.
  - by rewrite Hfr1.
  - done.
  - rewrite length_fmap. lia.
  - rewrite Hsem1. done.
  - done.
  - done.
  - done.
  - rewrite Hlay1, Hmt1, length_app, length_fmap, length_fmap, Hlen. fold np. lia.
  - destruct (mapper_unmap_keeps pl_vulkan_hold_ex wd1) as (_ & Hkept & Hsrc2 & _).
    rewrite Hrun in Hkept, Hsrc2. simpl in Hkept, Hsrc2.
    destruct Hkept as (_ & _ & _ & _ & _ & Hni2).
    apply mapper_map_snapshot in Hmap' as (_ & _ & _ & _ & _ & _ & _ & _ & Hni1 & _).
    exists wd2, f'. split; [done|]. split; [by rewrite Hfr2, Hfr1|].
    split; [by rewrite Hsrc2|]. split; [done|]. split.
    { rewrite Htex2, length_fmap, Hlen. rewrite Htex in Hrest.
      destruct np as [|[|[|[|?]]]]; simpl in Hrest |- *; try lia;
        by injection Hrest as <-. }
    split; [by rewrite Hmt2, Hlay1, Hmt1, drop_app_length'
              by (by rewrite length_fmap, length_fmap)|].
    intros i Hi. apply Hacc2. rewrite Hni2 in Hi. lia.
Qed.

(** X15.  A layout of four planes: whenever the import of a frame succeeds, all
    four texture slots are taken, and the Export that follows reads
    [p->tex[4]], past the end of the array, in its first loop; it has taken
    no lock and made no release by then. *)
Theorem import_four_planes_export_out_of_bounds (wd wd1 : world) :
  num_planes (p_layout (m_priv (mapper wd))) = 4%nat ->
  length (p_tex (m_priv (mapper wd))) = 4%nat ->
  mapper_map pl_vulkan_get av_vkfmt_from_pixfmt mp_image_plane_w
    mp_image_plane_h pl_vulkan_wrap mppl_wrap_tex pl_vulkan_hold_ex wd = (Ok 0, wd1) ->
  mapper_unmap pl_vulkan_hold_ex wd1 = (Fault OutOfBounds, wd1).
Proof.
  intros Hnp Hlen Hmap.
  apply mapper_map_ok_state in Hmap
    as (srcimg & a & calls & _ & _ & _ & Hsrc1 & _ & _ & Hcalls & Htex1 & _).
  rewrite Hnp in Hcalls, Htex1.
  rewrite drop_ge, app_nil_r in Htex1 by lia.
  destruct calls as [|c0 [|c1 [|c2 [|c3 [|c4 calls]]]]]; try done.
  by apply (export_four_textures_out_of_bounds pl_vulkan_hold_ex wd1 srcimg
              c0.2 c1.2 c2.2 c3.2).
Qed.

End RoundTrip.

Section RoundTripWitness.

Import Protocol.

Lemma import_export_round_trip_witness :
  exists wd2 f',
    mapper_unmap ProtocolSamples.hold_ok ProtocolSamples.mapped2 = (Ok tt, wd2) /\
    frames wd2 = <[5%nat := f']> {[ 5%nat := ProtocolSamples.frame2 ]} /\
    p_vkf (m_priv (mapper wd2)) = None /\
    p_tex (m_priv (mapper wd2)) = [None; None; None; None].
Proof.
  destruct (import_export_round_trip true ProtocolSamples.fmt_table
              ProtocolSamples.plane_size ProtocolSamples.plane_size
              ProtocolSamples.wrap_ok ProtocolSamples.wrap_tex_ok
              ProtocolSamples.hold_ok
              (ProtocolSamples.world0 ProtocolSamples.frame2 2)
              ProtocolSamples.mapped2 ProtocolSamples.src0 5%nat
              ProtocolSamples.frame2)
    as (wd2 & f' & Hrun & Hfr & _ & Hv & Htex & _).
  - reflexivity.
  - reflexivity.
  - reflexivity.
  - reflexivity.
  - simpl. lia.
  - simpl. lia.
  - simpl. lia.
  - simpl. lia.
  - simpl. lia.
  - vm_compute. reflexivity.
  - exists wd2, f'. split; [exact Hrun|]. split; [exact Hfr|].
    split; [exact Hv|exact Htex].
Defined.

Lemma import_four_planes_export_out_of_bounds_witness :
  let frame4 := mkAVVkFrame [101; 102; 103; 104] [1; 2; 3; 4] [201; 202; 203; 204]
                            [10; 20; 30; 40] [1; 1; 1; 1] in
  let r := ProtocolSamples.import ProtocolSamples.wrap_ok ProtocolSamples.hold_ok
             (ProtocolSamples.world0 frame4 4) in
  r.1 = Ok 0 /\
  mapper_unmap ProtocolSamples.hold_ok r.2 = (Fault OutOfBounds, r.2).
Proof.
  intros frame4 r. split; [vm_compute; reflexivity|].
  apply (import_four_planes_export_out_of_bounds true ProtocolSamples.fmt_table
           ProtocolSamples.plane_size ProtocolSamples.plane_size
           ProtocolSamples.wrap_ok ProtocolSamples.wrap_tex_ok
           ProtocolSamples.hold_ok (ProtocolSamples.world0 frame4 4) r.2);
    [reflexivity|reflexivity|vm_compute; reflexivity].
Defined.

End RoundTripWitness.

(** * The queue lock hooks *)

Section GuardProofs.

Import Guard.

Lemma serialised_snoc l e : serialised (l ++ [e]) = vk_step (serialised l) e.
Proof. unfold serialised. by rewrite fold_left_app. Qed.

Lemma upd_eq {A} (f : thread -> A) t x : upd f t x t = x.
Proof. unfold upd. by rewrite decide_True. Qed.

Lemma upd_ne {A} (f : thread -> A) t t' x : t' <> t -> upd f t x t' = f t'.
Proof. intros H. unfold upd. by rewrite decide_False. Qed.

Lemma guard_inv_init queues : guard_inv (guard_init queues).
Proof.
  exists (fun _ => Outside). split; [|split].
  - intros t. by exists (queues t).
  - intros t. simpl. split; [done|]. intros H. by destruct H.
  - exists None. split; [done|]. intros t qf i. split; done.
Qed.

Lemma guard_inv_advance t st : guard_inv st -> guard_inv (advance t st).
Proof.
  intros (ph & Hph & Hmx & o & Hser & Ho).
  unfold advance.
  destruct (Hph t) as (queues & Hp). rewrite Hp.
  destruct (ph t) eqn:Hpt; simpl.
  - (* outside its pair: the next call, if any, is [MutexLock] *)
    destruct queues as [|[qf i] queues]; simpl.
    { exists ph. split; [done|]. split; [done|]. by exists o. }
    destruct (mutex st) as [t0|] eqn:Hm.
    { exists ph. split; [done|]. split; [by rewrite Hm|]. by exists o. }
    assert (forall t', ph t' = Outside) as Hall.
    { intros t'. destruct (ph t') eqn:E; [done| | |];
        by assert (None = Some t') by (apply Hmx; rewrite E; done). }
    exists (upd ph t (HasMutex qf i)). split; [|split].
    + intros t'. simpl. destruct (decide (t' = t)) as [->|Hne].
      * rewrite !upd_eq. by exists queues.
      * rewrite !upd_ne by done. apply Hph.
    + intros t'. simpl. destruct (decide (t' = t)) as [->|Hne].
      * rewrite upd_eq. split; done.
      * rewrite upd_ne by done. rewrite Hall. split; [congruence|done].
    + exists o. simpl. rewrite serialised_snoc, Hser. split; [done|].
      intros t' qf' i'. destruct (decide (t' = t)) as [->|Hne].
      * rewrite upd_eq. rewrite Ho, Hpt. split; done.
      * rewrite upd_ne by done. apply Ho.
  - (* holds the mutex: the next call locks the queue *)
    assert (forall t', t' <> t -> ph t' = Outside) as Hall.
    { intros t' Hne. destruct (ph t') eqn:E; [done| | |].
      all: assert (mutex st = Some t') as H1 by (apply Hmx; rewrite E; done).
      all: assert (mutex st = Some t) as H2 by (apply Hmx; rewrite Hpt; done).
      all: congruence. }
    assert (o = None) as ->.
    { destruct o as [[[t' qf'] i']|]; [|done].
      assert (ph t' = HasQueue qf' i') as E by (by apply Ho).
      destruct (decide (t' = t)) as [->|Hne]; [congruence|].
      rewrite Hall in E by done. done. }
    exists (upd ph t (HasQueue qf i)). split; [|split].
    + intros t'. simpl. destruct (decide (t' = t)) as [->|Hne].
      * rewrite !upd_eq. by exists queues.
      * rewrite !upd_ne by done. apply Hph.
    + intros t'. simpl. destruct (decide (t' = t)) as [->|Hne].
      * rewrite upd_eq. rewrite Hmx, Hpt. split; done.
      * rewrite upd_ne by done. apply Hmx.
    + exists (Some (t, qf, i)). simpl. rewrite serialised_snoc, Hser.
      split; [done|].
      intros t' qf' i'. destruct (decide (t' = t)) as [->|Hne].
      * rewrite upd_eq. split; intros H; by simplify_eq.
      * rewrite upd_ne by done. rewrite Hall by done.
        split; intros H; by simplify_eq.
  - (* holds the queue: the next call unlocks it *)
    assert (o = Some (t, qf, i)) as -> by (by apply Ho).
    exists (upd ph t Leaving). split; [|split].
    + intros t'. simpl. destruct (decide (t' = t)) as [->|Hne].
      * rewrite !upd_eq. by exists queues.
      * rewrite !upd_ne by done. apply Hph.
    + intros t'. simpl. destruct (decide (t' = t)) as [->|Hne].
      * rewrite upd_eq. rewrite Hmx, Hpt. split; done.
      * rewrite upd_ne by done. apply Hmx.
    + exists None. simpl. rewrite serialised_snoc, Hser. simpl.
      rewrite decide_True by done. split; [done|].
      intros t' qf' i'. split; [done|].
      destruct (decide (t' = t)) as [->|Hne].
      * by rewrite upd_eq.
      * rewrite upd_ne by done. intros E. apply Ho in E. by simplify_eq.
  - (* leaving: the next call unlocks the mutex *)
    assert (mutex st = Some t) as Hm by (apply Hmx; rewrite Hpt; done).
    rewrite decide_True by done.
    exists (upd ph t Outside). split; [|split].
    + intros t'. simpl. destruct (decide (t' = t)) as [->|Hne].
      * rewrite !upd_eq. by exists queues.
      * rewrite !upd_ne by done. apply Hph.
    + intros t'. simpl. destruct (decide (t' = t)) as [->|Hne].
      * rewrite upd_eq. split; done.
      * rewrite upd_ne by done. rewrite <- Hmx, Hm.
        split; [done|]. intros H. by simplify_eq.
    + exists o. simpl. rewrite serialised_snoc, Hser.
      split; [by destruct o|].
      intros t' qf' i'. destruct (decide (t' = t)) as [->|Hne].
      * rewrite upd_eq. rewrite Ho, Hpt. split; done.
      * rewrite upd_ne by done. apply Ho.
Qed.

Lemma guard_inv_run sched : forall st, guard_inv st -> guard_inv (run sched st).
Proof.
  induction sched as [|t sched IH]; intros st H; [done|].
  simpl. by apply IH, guard_inv_advance.
Qed.

(** X6.  Decoder threads that pair their hook calls, under any schedule: the
    renderer's queue lock and unlock calls of different threads never
    interleave, and every unlock is the one of the lock that is open (same
    thread, same queue).  A thread that has a queue locked holds the
    mutex.  When all threads are done, the mutex is free and no queue is
    locked. *)
Theorem guard_serialises_queue_access (queues : thread -> list (Z * Z))
    (sched : list thread) :
  let st := run sched (guard_init queues) in
  serialised (log st) <> None /\
  (forall t qf i, serialised (log st) = Some (Some (t, qf, i)) ->
                  mutex st = Some t) /\
  ((forall t, pending st t = []) ->
   mutex st = None /\ serialised (log st) = Some None).
Proof.
  intros st.
  destruct (guard_inv_run sched _ (guard_inv_init queues))
    as (ph & Hph & Hmx & o & Hser & Ho).
  fold st in Hph, Hmx, Hser. split; [by rewrite Hser|]. split.
  - intros t qf i Hopen. rewrite Hser in Hopen. injection Hopen as ->.
    apply Hmx. by rewrite (proj1 (Ho t qf i) eq_refl).
  - intros Hdone.
    assert (forall t, ph t = Outside) as Hall.
    { intros t. destruct (Hph t) as (qs & Hp). rewrite Hdone in Hp.
      by destruct (ph t). }
    split.
    + destruct (mutex st) as [t|] eqn:Hm; [|done].
      by destruct (proj1 (Hmx t) eq_refl).
    + rewrite Hser. f_equal. destruct o as [[[t qf] i]|]; [|done].
      pose proof (proj1 (Ho t qf i) eq_refl) as E. by rewrite Hall in E.
Qed.

(** X7.  The guard cannot block paired callers for ever: as long as some thread
    has a call left, some thread can make its next call. *)
Theorem guard_makes_progress (queues : thread -> list (Z * Z))
    (sched : list thread) :
  let st := run sched (guard_init queues) in
  (exists t, pending st t <> []) ->
  exists t, length (log (advance t st)) = S (length (log st)).
Proof.
  intros st [t Ht].
  destruct (guard_inv_run sched _ (guard_inv_init queues))
    as (ph & Hph & Hmx & _).
  fold st in Hph, Hmx.
  destruct (mutex st) as [t0|] eqn:Hm.
  - exists t0. pose proof (proj1 (Hmx t0) eq_refl) as Hne.
    destruct (Hph t0) as (qs & Hp). unfold advance. rewrite Hp, Hm.
    destruct (ph t0); [done| | |]; simpl;
      rewrite ?decide_True by done; simpl; rewrite length_app; simpl; lia.
  - exists t. destruct (Hph t) as (qs & Hp).
    assert (ph t = Outside) as E.
    { destruct (ph t) eqn:E; [done| | |];
        by assert (None = Some t) by (apply Hmx; rewrite E; done). }
    rewrite E in Hp. simpl in Hp. unfold advance. rewrite Hp, Hm.
    destruct qs as [|[qf i] qs]; [by rewrite Hp in Ht|].
    simpl. rewrite length_app. simpl. lia.
Qed.

End GuardProofs.

Section GuardWitness.

Import Guard.

Lemma guard_makes_progress_witness :
  let queues := fun t : thread => if decide (t < 2)%nat then [(2, 0)] else [] in
  let st := run [0%nat; 1%nat; 0%nat; 1%nat] (guard_init queues) in
  mutex st = Some 0%nat /\
  log st = [(0%nat, MutexLock); (0%nat, VkLockQueue 2 0)] /\
  exists t, length (log (advance t st)) = S (length (log st)).
Proof.
  intros queues st. split; [reflexivity|]. split; [reflexivity|].
  apply (guard_makes_progress queues [0%nat; 1%nat; 0%nat; 1%nat]).
  exists 0%nat. discriminate.
Defined.

End GuardWitness.

(** * The timer routines *)

Section TimerSleep.

Import Timer.

(** X16.  [mp_sleep_ns] sleeps exactly when its argument is not negative, and
    then hands [nanosleep] a normalised [timespec] (nanoseconds within
    [0, 10^9)) that stands for exactly the requested duration. *)
Theorem mp_sleep_ns_timespec (ns : Z) :
  INT64_MIN <= ns <= INT64_MAX ->
  match mp_sleep_ns ns with
  | None => ns < 0
  | Some ts =>
      0 <= ns /\ tv_sec ts * 1000000000 + tv_nsec ts = ns /\
      0 <= tv_nsec ts < 1000000000 /\ 0 <= tv_sec ts <= INT64_MAX
  end.
Proof.
  unfold INT64_MIN, INT64_MAX, mp_sleep_ns. intros Hr.
  destruct (ns <? 0) eqn:Hneg; [by apply Z.ltb_lt in Hneg|].
  apply Z.ltb_ge in Hneg. simpl.
  unfold wrap64. rewrite Z.mod_small by lia.
  pose proof (Z.div_mod ns 1000000000 ltac:(lia)) as Hdm.
  pose proof (Z.mod_pos_bound ns 1000000000 ltac:(lia)) as Hb.
  assert (0 <= ns / 1000000000) by (apply Z.div_pos; lia).
  repeat split; try lia.
Qed.

Lemma mp_sleep_ns_timespec_witness :
  mp_sleep_ns 2500000000 = Some (mktimespec 2 500000000) /\
  2 * 1000000000 + 500000000 = 2500000000.
Proof.
  assert (INT64_MIN <= 2500000000 <= INT64_MAX) as Hr
    by (unfold INT64_MIN, INT64_MAX; lia).
  pose proof (mp_sleep_ns_timespec 2500000000 Hr) as H.
  split; [reflexivity|].
  change (mp_sleep_ns 2500000000) with (Some (mktimespec 2 500000000)) in H.
  exact (proj1 (proj2 H)).
Defined.

End TimerSleep.

Section TimerCore.

Import Timer.

Variable clock : nat -> timespec.
Variable MP_START_TIME : Z.

Lemma to_int64_small r : 0 <= r < 2 ^ 63 -> to_int64 r = r.
Proof. intros H. unfold to_int64. destruct (r <? 2 ^ 63) eqn:E; [done|]. apply Z.ltb_ge in E. lia. Qed.

Lemma wrap64_range z : 0 <= wrap64 z < 2 ^ 64.
Proof. unfold wrap64. apply Z.mod_pos_bound. lia. Qed.

Lemma wrap64_small z : 0 <= z < 2 ^ 64 -> wrap64 z = z.
Proof. intros H. unfold wrap64. by apply Z.mod_small. Qed.

(** X17.  The time [mp_time_ns] returns is never 0 and never lies between 0 and
    [MP_START_TIME]: it is at least [MP_START_TIME], or it is negative,
    which happens only when the clock is more than 2^63 ns past the
    offset.  With [MP_START_TIME] at least 1000, [mp_time_us] is strictly
    positive whenever [mp_time_ns] is not negative, as the assertions of
    [mp_time_us_add] and [mp_time_ns_add] expect. *)
Theorem mp_time_ns_not_before_start (st : timer_state) :
  0 < MP_START_TIME <= INT64_MAX ->
  let ns := (mp_time_ns clock MP_START_TIME st).1 in
  let r := wrap64 (mp_raw_time_ns (clock (clock_reads st)) - raw_time_offset st) in
  ns <> 0 /\ (MP_START_TIME <= ns \/ ns < 0) /\
  (ns < 0 <-> 2 ^ 63 <= r) /\
  (1000 <= MP_START_TIME -> 0 <= ns ->
   0 < (mp_time_us clock MP_START_TIME st).1).
Proof.
  intros Hs ns r. unfold INT64_MAX in Hs. subst ns.
  unfold mp_time_us, mp_time_ns, read_raw_time. simpl. fold r.
  pose proof (wrap64_range (mp_raw_time_ns (clock (clock_reads st)) -
                            raw_time_offset st)) as Hr. fold r in Hr.
  rewrite (wrap64_small MP_START_TIME) by lia.
  destruct (r <? MP_START_TIME) eqn:Hlt.
  - apply Z.ltb_lt in Hlt. rewrite to_int64_small by lia.
    repeat split; try lia.
    intros H1 _. apply Z.quot_str_pos. lia.
  - apply Z.ltb_ge in Hlt. unfold to_int64.
    destruct (r <? 2 ^ 63) eqn:Hbig.
    + apply Z.ltb_lt in Hbig. repeat split; try lia.
      intros H1 _. apply Z.quot_str_pos. lia.
    + apply Z.ltb_ge in Hbig. repeat split; try lia.
Qed.

(** X18.  After [mp_time_init] on a fresh timer, the time is [MP_START_TIME]
    plus the nanoseconds the raw clock has advanced since the reading
    taken at initialisation (in [uint64_t], so a wrap of the raw clock
    does no harm), as long as that sum stays below 2^63.  The random seed
    is the reading before it, and calling [mp_time_init] again changes
    nothing. *)
Theorem mp_time_ns_since_init (st : timer_state) :
  timer_init_once st = false ->
  0 <= MP_START_TIME ->
  let st1 := mp_time_init clock MP_START_TIME st in
  let k := clock_reads st in
  let elapsed := wrap64 (mp_raw_time_ns (clock (S (S k))) -
                         mp_raw_time_ns (clock (S k))) in
  elapsed + MP_START_TIME < 2 ^ 63 ->
  (mp_time_ns clock MP_START_TIME st1).1 = MP_START_TIME + elapsed /\
  rand_seed st1 = Some (mp_raw_time_ns (clock k)) /\
  mp_time_init clock MP_START_TIME st1 = st1.
Proof.
  intros Honce Hs st1 k elapsed Hsmall. subst st1.
  unfold mp_time_init. rewrite Honce.
  unfold do_timer_init, mp_time_ns, read_raw_time. simpl. fold k.
  split; [|done].
  set (raw := mp_raw_time_ns (clock (S (S k)))) in *.
  set (raw0 := mp_raw_time_ns (clock (S k))) in *.
  pose proof (wrap64_range (raw - raw0)) as He. fold elapsed in He.
  assert (wrap64 (raw - wrap64 (raw0 - MP_START_TIME)) = elapsed + MP_START_TIME)
    as ->.
  { unfold wrap64 in *.
    rewrite Zminus_mod_idemp_r.
    replace (raw - (raw0 - MP_START_TIME)) with ((raw - raw0) + MP_START_TIME) by lia.
    rewrite <- Zplus_mod_idemp_l. fold (wrap64 (raw - raw0)). fold elapsed.
    apply Z.mod_small. lia. }
  rewrite (wrap64_small MP_START_TIME) by lia.
  destruct (elapsed + MP_START_TIME <? MP_START_TIME) eqn:Hlt;
    [apply Z.ltb_lt in Hlt; lia|].
  rewrite to_int64_small by lia. lia.
Qed.

End TimerCore.

Section TimerCoreWitnesses.

Import Timer.

Lemma mp_time_ns_not_before_start_witness :
  (mp_time_ns TimerSamples.sample_clock 10000000000 TimerSamples.fresh_timer).1 = 100000000250 /\
  (mp_time_ns TimerSamples.sample_clock 10000000000 TimerSamples.fresh_timer).1 <> 0.
Proof.
  split; [reflexivity|].
  apply (mp_time_ns_not_before_start TimerSamples.sample_clock 10000000000 TimerSamples.fresh_timer).
  unfold INT64_MAX. lia.
Defined.

Lemma mp_time_ns_since_init_witness :
  let st1 := mp_time_init TimerSamples.sample_clock 10000000000 TimerSamples.fresh_timer in
  (mp_time_ns TimerSamples.sample_clock 10000000000 st1).1 = 10000000000 + 1000000000 /\
  mp_time_init TimerSamples.sample_clock 10000000000 st1 = st1.
Proof.
  intros st1.
  destruct (mp_time_ns_since_init TimerSamples.sample_clock 10000000000 TimerSamples.fresh_timer eq_refl)
    as (H1 & _ & H3).
  - lia.
  - vm_compute. reflexivity.
  - split; [exact H1|exact H3].
Defined.

End TimerCoreWitnesses.

(** ** Deadlines on the realtime clock *)

Section TimerRealtime.

Import Timer.

Variable clock : nat -> timespec.
Variable get_realtime : nat -> Z * timespec.
Variable MP_START_TIME : Z.
Variable MPMIN : Z -> Z -> Z.

Hypothesis MPMIN_min : forall a b, MPMIN a b = Z.min a b.

Lemma int64_in_range z : INT64_MIN <= z <= INT64_MAX -> int64 z = Some z.
Proof.
  intros [H1 H2]. unfold int64.
  apply Z.leb_le in H1, H2. by rewrite H1, H2.
Qed.

Lemma int64_out_of_range z : z < INT64_MIN \/ INT64_MAX < z -> int64 z = None.
Proof.
  intros H. unfold int64.
  destruct (INT64_MIN <=? z) eqn:H1; [|done].
  destruct (z <=? INT64_MAX) eqn:H2; [|done].
  apply Z.leb_le in H1, H2. lia.
Qed.

Lemma mp_time_ns_realtime_reads st n :
  (mp_time_ns clock MP_START_TIME
     (mktimer (raw_time_offset st) (timer_init_once st) (rand_seed st)
              (clock_reads st) n)).1 =
  (mp_time_ns clock MP_START_TIME st).1.
Proof. by destruct st. Qed.

Lemma mp_time_ns_to_realtime_run (time_ns : Z) (st : timer_state) (ts : timespec) :
  get_realtime (realtime_reads st) = (0, ts) ->
  0 <= tv_nsec ts < 1000000000 ->
  0 <= tv_sec ts < 2 ^ 62 ->
  let now := (mp_time_ns clock MP_START_TIME st).1 in
  INT64_MIN <= time_ns - now <= INT64_MAX ->
  let rel := Z.min (time_ns - now) (1000 * 24 * 60 * 60 * 1000000000) in
  let sec := tv_sec ts + Z.quot rel 1000000000 in
  let nsec := tv_nsec ts + Z.rem rel 1000000000 in
  (mp_time_ns_to_realtime clock get_realtime MP_START_TIME MPMIN false
     time_ns st).1 =
  Some (if 1000000000 <=? nsec then mktimespec (sec + 1) (nsec - 1000000000)
        else mktimespec sec nsec).
Proof.
  intros Hget Hns Hsec now Hrel rel sec nsec.
  unfold mp_time_ns_to_realtime. rewrite Hget.
  change (negb (0 =? 0)) with false. cbv iota.
  destruct (mp_time_ns clock MP_START_TIME
              (mktimer (raw_time_offset st) (timer_init_once st) (rand_seed st)
                       (clock_reads st) (S (realtime_reads st))))
    as [now' st'] eqn:Hnow.
  assert (now' = now) as ->.
  { unfold now. rewrite <- (mp_time_ns_realtime_reads st (S (realtime_reads st))).
    by rewrite Hnow. }
  rewrite (int64_in_range _ Hrel). cbv iota beta.
  rewrite MPMIN_min. fold rel.
  unfold INT64_MIN, INT64_MAX in Hrel.
  pose proof (Z.quot_rem' rel 1000000000) as Hqr.
  pose proof (Z.rem_bound_abs rel 1000000000 ltac:(lia)) as Hrem.
  assert (- 2 ^ 63 <= rel <= 1000 * 24 * 60 * 60 * 1000000000) as Hrel' by lia.
  fold sec nsec.
  rewrite (int64_in_range sec) by (unfold INT64_MIN, INT64_MAX, sec; lia).
  rewrite (int64_in_range nsec) by (unfold INT64_MIN, INT64_MAX, nsec; lia).
  destruct (1000000000 <=? nsec) eqn:Hcarry; [|done].
  by rewrite (int64_in_range (sec + 1))
    by (unfold INT64_MIN, INT64_MAX, sec; lia).
Qed.

(** X19.  [mp_time_ns_to_realtime] on the POSIX build, when the realtime clock
    answers with a normalised time [ts]: the result stands for [ts] plus
    the distance from now to the deadline, capped at 1000 days, and its
    nanoseconds are below 10^9.  For a deadline that is not in the past the
    result is normalised.  For a deadline in the past the nanoseconds are
    the sum of those of [ts] and the (negative) remainder of the distance:
    nothing brings them back into range, so they are negative whenever the
    remainder outweighs the nanoseconds of [ts]. *)
Theorem mp_time_ns_to_realtime_deadline (time_ns : Z) (st : timer_state)
    (ts : timespec) :
  get_realtime (realtime_reads st) = (0, ts) ->
  0 <= tv_nsec ts < 1000000000 ->
  0 <= tv_sec ts < 2 ^ 62 ->
  let now := (mp_time_ns clock MP_START_TIME st).1 in
  INT64_MIN <= time_ns - now <= INT64_MAX ->
  let rel := Z.min (time_ns - now) (1000 * 24 * 60 * 60 * 1000000000) in
  exists ts',
    (mp_time_ns_to_realtime clock get_realtime MP_START_TIME MPMIN false
       time_ns st).1 = Some ts' /\
    tv_sec ts' * 1000000000 + tv_nsec ts' =
      tv_sec ts * 1000000000 + tv_nsec ts + rel /\
    -1000000000 < tv_nsec ts' < 1000000000 /\
    (now <= time_ns -> 0 <= tv_nsec ts') /\
    (tv_nsec ts' < 0 <-> tv_nsec ts + Z.rem rel 1000000000 < 0).
Proof.
  intros Hget Hns Hsec now Hrel rel.
  pose proof (mp_time_ns_to_realtime_run time_ns st ts Hget Hns Hsec Hrel) as Hrun.
  fold now rel in Hrun. cbv zeta in Hrun.
  pose proof (Z.quot_rem' rel 1000000000) as Hqr.
  assert (-1000000000 < Z.rem rel 1000000000 < 1000000000) as Hrem.
  { pose proof (Z.rem_bound_abs rel 1000000000 ltac:(lia)). lia. }
  assert (0 <= rel -> 0 <= Z.rem rel 1000000000) as Hpos.
  { intros H. pose proof (Z.rem_bound_pos rel 1000000000 H ltac:(lia)). lia. }
  set (q := Z.quot rel 1000000000) in *.
  set (m := Z.rem rel 1000000000) in *.
  eexists. split; [exact Hrun|].
  destruct (1000000000 <=? tv_nsec ts + m) eqn:Hcarry.
  - apply Z.leb_le in Hcarry. simpl. repeat split; lia.
  - apply Z.leb_gt in Hcarry. simpl. repeat split; lia.
Qed.

(** X20.  [mp_time_us_to_realtime] converts its argument to nanoseconds without
    overflow for every time that is not below [INT64_MIN / 1000]: the
    deadline handed on is the argument times 1000, but at most
    [INT64_MAX / 1000 * 1000].  Below that bound the multiplication
    overflows. *)
Theorem mp_time_us_to_realtime_conversion (time_us : Z) (st : timer_state) :
  INT64_MIN <= time_us <= INT64_MAX ->
  (Z.quot INT64_MIN 1000 <= time_us ->
   mp_time_us_to_realtime clock get_realtime MP_START_TIME MPMIN false time_us st =
   mp_time_ns_to_realtime clock get_realtime MP_START_TIME MPMIN false
     (Z.min time_us (Z.quot INT64_MAX 1000) * 1000) st) /\
  (time_us < Z.quot INT64_MIN 1000 ->
   mp_time_us_to_realtime clock get_realtime MP_START_TIME MPMIN false time_us st =
   (None, st)).
Proof.
  intros Hr. unfold mp_time_us_to_realtime. rewrite MPMIN_min.
  change (Z.quot INT64_MAX 1000) with 9223372036854775.
  change (Z.quot INT64_MIN 1000) with (-9223372036854775).
  unfold INT64_MIN, INT64_MAX in Hr. split; intros H.
  - rewrite int64_in_range by (unfold INT64_MIN, INT64_MAX; lia).
    by rewrite Z.min_comm.
  - by rewrite int64_out_of_range by (unfold INT64_MIN, INT64_MAX; lia).
Qed.

End TimerRealtime.

Section TimerRealtimeWitnesses.

Import Timer.

Lemma mp_time_ns_to_realtime_deadline_witness :
  let st := mp_time_init TimerSamples.sample_clock 10000000000 TimerSamples.fresh_timer in
  (mp_time_ns TimerSamples.sample_clock 10000000000 st).1 = 11000000000 /\
  (mp_time_ns_to_realtime TimerSamples.sample_clock TimerSamples.sample_realtime 10000000000 Z.min false
     10999999990 st).1 = Some (mktimespec 1700000000 (-5)) /\
  exists ts',
    (mp_time_ns_to_realtime TimerSamples.sample_clock TimerSamples.sample_realtime 10000000000 Z.min false
       10999999990 st).1 = Some ts' /\ (tv_nsec ts' < 0 <-> 5 + -10 < 0).
Proof.
  intros st. split; [reflexivity|]. split; [reflexivity|].
  destruct (mp_time_ns_to_realtime_deadline TimerSamples.sample_clock TimerSamples.sample_realtime
              10000000000 Z.min (fun a b => eq_refl) 10999999990 st
              (mktimespec 1700000000 5))
    as (ts' & H1 & _ & _ & _ & H2).
  - reflexivity.
  - simpl. lia.
  - simpl. lia.
  - vm_compute. split; discriminate.
  - exists ts'. split; [exact H1|exact H2].
Defined.

Lemma mp_time_us_to_realtime_conversion_witness :
  mp_time_us_to_realtime TimerSamples.sample_clock TimerSamples.sample_realtime 10000000000 Z.min false
    12000000 TimerSamples.fresh_timer =
  mp_time_ns_to_realtime TimerSamples.sample_clock TimerSamples.sample_realtime 10000000000 Z.min false
    12000000000 TimerSamples.fresh_timer.
Proof.
  apply (mp_time_us_to_realtime_conversion TimerSamples.sample_clock TimerSamples.sample_realtime
           10000000000 Z.min (fun a b => eq_refl) 12000000 TimerSamples.fresh_timer).
  - vm_compute. split; discriminate.
  - vm_compute. discriminate.
Defined.

End TimerRealtimeWitnesses.

(** ** Adding a timeout to a time *)

Section TimerAddProofs.

Import Timer TimerAdd.

Variable MPCLAMP : double -> double -> double -> double.

Lemma int64_some z r : int64 z = Some r -> r = z /\ INT64_MIN <= r <= INT64_MAX.
Proof.
  unfold int64.
  destruct (INT64_MIN <=? z) eqn:H1; [|done].
  destruct (z <=? INT64_MAX) eqn:H2; [|done].
  apply Z.leb_le in H1, H2. intros H. simpl in H. injection H as <-. lia.
Qed.

Lemma double_to_int64_range t ti :
  double_to_int64 t = Some ti -> INT64_MIN <= ti <= INT64_MAX.
Proof.
  destruct t as [s|s| |s m e]; simpl; try done.
  - intros H. injection H as <-. unfold INT64_MIN, INT64_MAX. lia.
  - intros H. by apply int64_some in H as [_ H].
Qed.

Lemma saturating_sum time ti :
  0 < time <= INT64_MAX -> INT64_MIN <= ti <= INT64_MAX ->
  exists r,
    (if INT64_MAX - time <? ti then Value INT64_MAX
     else if ti <=? - time then Value 1
     else Value (time + ti)) = Value r /\
    r = Z.max 1 (Z.min INT64_MAX (time + ti)) /\ 1 <= r <= INT64_MAX.
Proof.
  unfold INT64_MIN, INT64_MAX. intros Ht Hti.
  destruct (2 ^ 63 - 1 - time <? ti) eqn:H1.
  { apply Z.ltb_lt in H1. eexists. split; [reflexivity|]. lia. }
  apply Z.ltb_ge in H1.
  destruct (ti <=? - time) eqn:H2.
  { apply Z.leb_le in H2. eexists. split; [reflexivity|]. lia. }
  apply Z.leb_gt in H2. eexists. split; [reflexivity|]. lia.
Qed.

(** X21.  [mp_time_ns_add] and [mp_time_us_add].  A time that is not
    positive fails the assertion.  For a time that passes it, let [ti] be
    the timeout in ticks, that is the conversion to an integer of the
    product of the timeout and [1e9] (or [1e6]), clamped by [MPCLAMP] to
    the range from [-0x1p63] to [0x1p63]: when that conversion is
    undefined no value is returned; otherwise the result is the sum of the
    time and [ti], saturated to the range from 1 to [INT64_MAX].  The sum
    never overflows, and a returned value is never 0 or negative. *)
Theorem mp_time_add_saturates (time : Z) (timeout_sec : double) :
  INT64_MIN <= time <= INT64_MAX ->
  (time <= 0 ->
   mp_time_ns_add MPCLAMP time timeout_sec = AssertionFailure /\
   mp_time_us_add MPCLAMP time timeout_sec = AssertionFailure) /\
  (0 < time ->
   match timeout_ticks MPCLAMP d_1e9 timeout_sec with
   | Some ti =>
       INT64_MIN <= ti <= INT64_MAX /\
       mp_time_ns_add MPCLAMP time timeout_sec =
         Value (Z.max 1 (Z.min INT64_MAX (time + ti)))
   | None => mp_time_ns_add MPCLAMP time timeout_sec = UndefinedConversion
   end /\
   match timeout_ticks MPCLAMP d_1e6 timeout_sec with
   | Some ti =>
       INT64_MIN <= ti <= INT64_MAX /\
       mp_time_us_add MPCLAMP time timeout_sec =
         Value (Z.max 1 (Z.min INT64_MAX (time + ti)))
   | None => mp_time_us_add MPCLAMP time timeout_sec = UndefinedConversion
   end /\
   (forall r, mp_time_ns_add MPCLAMP time timeout_sec = Value r ->
      1 <= r <= INT64_MAX /\
      exists ti, timeout_ticks MPCLAMP d_1e9 timeout_sec = Some ti /\
                 INT64_MIN <= ti <= INT64_MAX /\
                 r = Z.max 1 (Z.min INT64_MAX (time + ti))) /\
   (forall r, mp_time_us_add MPCLAMP time timeout_sec = Value r ->
      1 <= r <= INT64_MAX /\
      exists ti, timeout_ticks MPCLAMP d_1e6 timeout_sec = Some ti /\
                 INT64_MIN <= ti <= INT64_MAX /\
                 r = Z.max 1 (Z.min INT64_MAX (time + ti)))).
Proof.
  intros Hr. split.
  - intros Hle. unfold mp_time_ns_add, mp_time_us_add.
    destruct (0 <? time) eqn:Hpos; [apply Z.ltb_lt in Hpos; lia|done].
  - intros Hpos.
    assert (forall scale,
              match timeout_ticks MPCLAMP scale timeout_sec with
              | Some ti =>
                  INT64_MIN <= ti <= INT64_MAX /\
                  match timeout_ticks MPCLAMP scale timeout_sec with
                  | None => UndefinedConversion
                  | Some ti =>
                      if INT64_MAX - time <? ti then Value INT64_MAX
                      else if ti <=? - time then Value 1
                      else Value (time + ti)
                  end = Value (Z.max 1 (Z.min INT64_MAX (time + ti)))
              | None => True
              end) as Hsum.
    { intros scale.
      destruct (timeout_ticks MPCLAMP scale timeout_sec) as [ti|] eqn:Hti; [|done].
      assert (INT64_MIN <= ti <= INT64_MAX) as Hrange.
      { unfold timeout_ticks in Hti.
        destruct (SFeqb _ d_0x1p63).
        - injection Hti as <-. unfold INT64_MIN, INT64_MAX. lia.
        - by eapply double_to_int64_range. }
      split; [done|].
      destruct (saturating_sum time ti ltac:(lia) Hrange) as (r & Heq & -> & _).
      exact Heq. }
    apply Z.ltb_lt in Hpos.
    assert (forall scale r,
              match timeout_ticks MPCLAMP scale timeout_sec with
              | None => UndefinedConversion
              | Some ti =>
                  if INT64_MAX - time <? ti then Value INT64_MAX
                  else if ti <=? - time then Value 1
                  else Value (time + ti)
              end = Value r ->
              1 <= r <= INT64_MAX /\
              exists ti, timeout_ticks MPCLAMP scale timeout_sec = Some ti /\
                         INT64_MIN <= ti <= INT64_MAX /\
                         r = Z.max 1 (Z.min INT64_MAX (time + ti))) as Hval.
    { intros scale r Hres. specialize (Hsum scale).
      destruct (timeout_ticks MPCLAMP scale timeout_sec) as [ti|]; [|done].
      destruct Hsum as [Hrange Heq]. rewrite Heq in Hres. injection Hres as <-.
      split; [unfold INT64_MAX; lia|]. by exists ti. }
    unfold mp_time_ns_add, mp_time_us_add.
    rewrite Hpos. change (negb true) with false. cbv iota.
    fold (timeout_ticks MPCLAMP d_1e9 timeout_sec).
    fold (timeout_ticks MPCLAMP d_1e6 timeout_sec).
    split; [|split; [|split; [apply Hval|apply Hval]]].
    + specialize (Hsum d_1e9).
      by destruct (timeout_ticks MPCLAMP d_1e9 timeout_sec).
    + specialize (Hsum d_1e6).
      by destruct (timeout_ticks MPCLAMP d_1e6 timeout_sec).
Qed.

End TimerAddProofs.

Section TimerAddSpecial.

Import Timer TimerAdd.

Variable MPCLAMP : double -> double -> double -> double.

Hypothesis MPCLAMP_macro : forall a lo hi,
  MPCLAMP a lo hi = if SFltb a lo then lo else if SFltb hi a then hi else a.

Ltac eval_double :=
  repeat first
    [ progress cbv iota beta
    | match goal with
      | |- context [SFltb ?a ?b] =>
          let v := eval vm_compute in (SFltb a b) in change (SFltb a b) with v
      | |- context [SFeqb ?a ?b] =>
          let v := eval vm_compute in (SFeqb a b) in change (SFeqb a b) with v
      | |- context [double_to_int64 ?a] =>
          let v := eval vm_compute in (double_to_int64 a) in
          change (double_to_int64 a) with v
      end ].

Lemma mp_time_ns_add_infinity (time : Z) :
  0 < time <= INT64_MAX ->
  mp_time_ns_add MPCLAMP time (S754_infinity false) = Value INT64_MAX.
Proof.
  intros [Hpos Hmax]. apply Z.ltb_lt in Hpos.
  assert ((INT64_MAX - time <? INT64_MAX) = true) as H1
    by (apply Z.ltb_lt; unfold INT64_MAX in *; lia).
  unfold mp_time_ns_add.
  rewrite Hpos, !MPCLAMP_macro. change (negb true) with false.
  eval_double. by rewrite H1.
Qed.

(** X22.  With [MPCLAMP] the usual clamp, for every time that passes the
    assertion: an infinite timeout gives [INT64_MAX], a timeout of minus
    infinity gives 1, a timeout of zero gives the time itself, and for a
    timeout that is not a number the conversion to an integer is
    undefined. *)
Theorem mp_time_add_special_timeouts (time : Z) :
  0 < time <= INT64_MAX ->
  (mp_time_ns_add MPCLAMP time (S754_infinity false) = Value INT64_MAX /\
   mp_time_ns_add MPCLAMP time (S754_infinity true) = Value 1 /\
   mp_time_ns_add MPCLAMP time (S754_zero false) = Value time /\
   mp_time_ns_add MPCLAMP time S754_nan = UndefinedConversion) /\
  (mp_time_us_add MPCLAMP time (S754_infinity false) = Value INT64_MAX /\
   mp_time_us_add MPCLAMP time (S754_infinity true) = Value 1 /\
   mp_time_us_add MPCLAMP time (S754_zero false) = Value time /\
   mp_time_us_add MPCLAMP time S754_nan = UndefinedConversion).
Proof.
  intros Ht. pose proof Ht as [Hpos Hmax]. apply Z.ltb_lt in Hpos.
  unfold INT64_MAX in Hmax.
  assert ((INT64_MAX - time <? INT64_MAX) = true) as H1
    by (apply Z.ltb_lt; unfold INT64_MAX; lia).
  assert ((INT64_MAX - time <? - 9223372036854775808) = false) as H2
    by (apply Z.ltb_ge; unfold INT64_MAX; lia).
  assert ((- 9223372036854775808 <=? - time) = true) as H3
    by (apply Z.leb_le; lia).
  assert ((INT64_MAX - time <? 0) = false) as H4
    by (apply Z.ltb_ge; unfold INT64_MAX; lia).
  assert ((0 <=? - time) = false) as H5 by (apply Z.leb_gt; lia).
  unfold mp_time_ns_add, mp_time_us_add.
  rewrite Hpos, !MPCLAMP_macro. change (negb true) with false.
  eval_double.
  rewrite H1, H2, H3, H4, H5. by rewrite Z.add_0_r.
Qed.

End TimerAddSpecial.

Section TimerAddWitnesses.

Import Timer TimerAdd.

(** Half a second after the time of 11 s. *)
Lemma mp_time_add_saturates_witness :
  timeout_ticks TimerSamples.clamp d_1e9 (binary_normalize 53 1024 1 (-1) false) =
    Some 500000000 /\
  mp_time_ns_add TimerSamples.clamp 11000000000 (binary_normalize 53 1024 1 (-1) false) =
    Value 11500000000.
Proof.
  split; [vm_compute; reflexivity|].
  assert (INT64_MIN <= 11000000000 <= INT64_MAX) as Hr
    by (unfold INT64_MIN, INT64_MAX; lia).
  destruct (mp_time_add_saturates TimerSamples.clamp 11000000000
              (binary_normalize 53 1024 1 (-1) false) Hr) as [_ H].
  destruct (H ltac:(lia)) as [Hns _].
  change (timeout_ticks TimerSamples.clamp d_1e9
            (binary_normalize 53 1024 1 (-1) false))
    with (Some 500000000) in Hns.
  exact (proj2 Hns).
Defined.

Lemma mp_time_add_special_timeouts_witness :
  mp_time_ns_add TimerSamples.clamp 11000000000 (S754_infinity false) = Value INT64_MAX /\
  mp_time_us_add TimerSamples.clamp 11000000 S754_nan = UndefinedConversion.
Proof.
  assert (0 < 11000000000 <= INT64_MAX) as H1 by (unfold INT64_MAX; lia).
  assert (0 < 11000000 <= INT64_MAX) as H2 by (unfold INT64_MAX; lia).
  split.
  - exact (proj1 (proj1 (mp_time_add_special_timeouts TimerSamples.clamp
                           (fun a lo hi => eq_refl) 11000000000 H1))).
  - exact (proj2 (proj2 (proj2 (proj2 (mp_time_add_special_timeouts TimerSamples.clamp
                           (fun a lo hi => eq_refl) 11000000 H2))))).
Defined.

End TimerAddWitnesses.

(** ** A relative timeout as a realtime deadline *)

Section TimerRelative.

Import Timer TimerAdd.

Variable clock : nat -> timespec.
Variable get_realtime : nat -> Z * timespec.
Variable MP_START_TIME : Z.
Variable MPMIN : Z -> Z -> Z.
Variable MPCLAMP : double -> double -> double -> double.

Hypothesis MPMIN_min : forall a b, MPMIN a b = Z.min a b.
Hypothesis MPCLAMP_macro : forall a lo hi,
  MPCLAMP a lo hi = if SFltb a lo then lo else if SFltb hi a then hi else a.

(** X23.  An infinite relative timeout on the POSIX build: the deadline is
    exactly 1000 days after the time the realtime clock shows, with the
    same nanoseconds, whenever the timer shows a positive time that is at
    least 1000 days away from [INT64_MAX]. *)
Theorem mp_rel_time_to_timespec_forever (st : timer_state) (ts : timespec) :
  let t1 := mp_time_ns clock MP_START_TIME st in
  let t2 := mp_time_ns clock MP_START_TIME t1.2 in
  get_realtime (realtime_reads st) = (0, ts) ->
  0 <= tv_nsec ts < 1000000000 ->
  0 <= tv_sec ts < 2 ^ 62 ->
  0 < t1.1 <= INT64_MAX ->
  0 <= t2.1 <= INT64_MAX - 1000 * 24 * 60 * 60 * 1000000000 ->
  (mp_rel_time_to_timespec MPCLAMP clock get_realtime MP_START_TIME MPMIN false
     (S754_infinity false) st).1 =
  Some (mktimespec (tv_sec ts + 1000 * 24 * 60 * 60) (tv_nsec ts)).
Proof.
  intros t1 t2 Hget Hns Hsec Ht1 Ht2.
  unfold mp_rel_time_to_timespec.
  destruct (mp_time_ns clock MP_START_TIME st) as [now st1] eqn:Hnow.
  simpl in t1, t2, Ht1.
  rewrite (mp_time_ns_add_infinity MPCLAMP MPCLAMP_macro now Ht1).
  assert (realtime_reads st1 = realtime_reads st) as Hrr.
  { unfold mp_time_ns, read_raw_time in Hnow. simpl in Hnow.
    by inversion Hnow. }
  rewrite (mp_time_ns_to_realtime_run clock get_realtime MP_START_TIME
             MPMIN MPMIN_min INT64_MAX st1 ts); try done.
  - fold t2. rewrite Z.min_r by (unfold INT64_MAX in *; lia).
    change (Z.rem (1000 * 24 * 60 * 60 * 1000000000) 1000000000) with 0.
    change (Z.quot (1000 * 24 * 60 * 60 * 1000000000) 1000000000)
      with (1000 * 24 * 60 * 60).
    rewrite Z.add_0_r.
    destruct (1000000000 <=? tv_nsec ts) eqn:Hc; [apply Z.leb_le in Hc; lia|done].
  - by rewrite Hrr.
  - fold t2. unfold INT64_MIN, INT64_MAX in *. lia.
Qed.

End TimerRelative.

Section TimerRelativeWitness.

Import Timer TimerAdd.

Lemma mp_rel_time_to_timespec_forever_witness :
  let st := mp_time_init TimerSamples.sample_clock 10000000000
              TimerSamples.fresh_timer in
  (mp_rel_time_to_timespec TimerSamples.clamp TimerSamples.sample_clock
     TimerSamples.sample_realtime 10000000000 Z.min false (S754_infinity false)
     st).1 = Some (mktimespec (1700000000 + 86400000) 5).
Proof.
  intros st.
  apply (mp_rel_time_to_timespec_forever TimerSamples.sample_clock
           TimerSamples.sample_realtime 10000000000 Z.min TimerSamples.clamp
           (fun a b => eq_refl) (fun a lo hi => eq_refl) st
           (mktimespec 1700000000 5)).
  - reflexivity.
  - simpl. lia.
  - simpl. lia.
  - vm_compute. split; [reflexivity|discriminate].
  - vm_compute. split; discriminate.
Defined.

End TimerRelativeWitness.
